(** * SmartShop front-end: order pricing preview, order draft, payment form
      and order-detail action gating.

    Shallow embedding of the TypeScript/React sources

      - features/orders/CreateOrderPage   ([calculateTotals], [addItem],
        [updateQuantity], [removeItem], [loadData]'s stock filter),
      - features/orders/OrderDetailPage   ([totalPaid], [remainingAmount],
        [canConfirm], [canCancel] and the action buttons of the page),
      - features/payments/AddPaymentPage  ([validate]),
      - services/*.service.ts             (the record and enum types).

    Conventions of the embedding.

      - A JavaScript [number] holding money is an IEEE 754 binary64 value:
        [spec_float] at precision 53 and maximal exponent 1024, with the
        operations of [SpecFloat] (round to nearest, ties to even), so that
        sums are neither associative nor exact and NaN, the infinities and
        the two zeros are there.  Quantities, stocks and identifiers, which
        the pages only ever fill with integers, are [Z]; a quantity enters
        a product through [Js.ofZ].
      - A JavaScript string is the list of its UTF-16 code units ([list N]),
        so that [trim] and the promo-code regular expression see exactly the
        characters the engine sees.
      - React state is passed explicitly: an event handler is a function from
        the current state value to the next one.

    Where a statement compares a computed amount with the exact one, the
    exact value of a finite number is a rational ([valueOf]); the bounds
    on the rounding of sums, differences and products are proved below
    from the definitions of [SpecFloat] (sections [Binary64Mantissa],
    [Binary64Values], [Binary64Operations] and [RunningSums]). *)

From Stdlib Require Import List ZArith NArith QArith Qround Qpower Qabs.
From Stdlib Require Import Lqa Lia Bool String Ascii.
From Stdlib Require Import Permutation Sorted.
From Stdlib Require Import Floats.SpecFloat.

(** Further sources embedded below, beside the three pages above:

      - features/orders/CreateOrderPage   ([filteredProducts],
        [filteredClients], [handleSubmit], the step navigation),
      - features/payments/AddPaymentPage  ([handleSubmit], [handleChange]),
      - features/auth/AuthContext         ([checkAuth], [login], [logout]),
        with the [ProtectedRoute] of App,
      - features/dashboard/DashboardPage  (the figures and the recent
        orders),
      - features/clients/ClientFormPage   ([validate], [handleSubmit]),
      - features/products/ProductsListPage (the pager).

    An awaited service call is represented by its outcome, a resolved
    value or a rejection, given as an argument to the handler; case
    mappings of strings ([toLowerCase], [toUpperCase]) are parameters. *)
Import ListNotations.

(* ------------------------------------------------------------------ *)
(** ** JavaScript values used by the pages                              *)
(* ------------------------------------------------------------------ *)

Module Js.

(** Numbers: binary64. *)
Definition number := spec_float.

Definition prec : Z := 53.
Definition emax : Z := 1024.

(** [x + y], [x - y], [x * y] and [x / y]. *)
Definition add (x y : number) : number := SFadd prec emax x y.
Definition sub (x y : number) : number := SFsub prec emax x y.
Definition mul (x y : number) : number := SFmul prec emax x y.
Definition div (x y : number) : number := SFdiv prec emax x y.

(** The number an integer denotes: the nearest binary64 value. *)
Definition ofZ (z : Z) : number := binary_normalize prec emax z 0 false.

(** The number a decimal literal of the source (or of a JSON document)
    denotes, the literal being given as the fraction it writes: [0.05] is
    [5 # 100].  The quotient of the two integers is rounded once, to the
    nearest binary64 value, as the literal is. *)
Definition num (q : Q) : number :=
  match Qnum q with
  | Z0 => S754_zero false
  | Zpos n =>
      SFdiv prec emax (S754_finite false n 0) (S754_finite false (Qden q) 0)
  | Zneg n =>
      SFdiv prec emax (S754_finite true n 0) (S754_finite false (Qden q) 0)
  end.

(** Relational operators on numbers, as booleans: a comparison with NaN
    is false. *)
Definition lt (x y : number) : bool := SFltb x y.
Definition le (x y : number) : bool := SFleb x y.
Definition ge (x y : number) : bool := le y x.
Definition gt (x y : number) : bool := lt y x.

Definition isNaN (x : number) : bool :=
  match x with S754_nan => true | _ => false end.

(** [!x] for a number: the two zeros and NaN are falsy. *)
Definition falsy_number (x : number) : bool :=
  match x with
  | S754_zero _ | S754_nan => true
  | _ => false
  end.

(** Strings: UTF-16 code units. *)
Definition str := list N.

Definition of_ascii (s : string) : str :=
  map N_of_ascii (list_ascii_of_string s).

(** [!s]: the empty string is the only falsy string. *)
Definition falsy_str (s : str) : bool :=
  match s with [] => true | _ :: _ => false end.

(** [!s] for [s : string | undefined]. *)
Definition falsy_opt (s : option str) : bool :=
  match s with None => true | Some s' => falsy_str s' end.

(** ECMAScript WhiteSpace and LineTerminator code points, the characters
    removed by [String.prototype.trim]. *)
Definition isWhiteSpace (c : N) : bool :=
  ((c =? 9) || (c =? 10) || (c =? 11) || (c =? 12) || (c =? 13)
   || (c =? 32) || (c =? 160) || (c =? 5760)
   || ((8192 <=? c) && (c <=? 8202))
   || (c =? 8232) || (c =? 8233) || (c =? 8239) || (c =? 8287)
   || (c =? 12288) || (c =? 65279))%N.

Fixpoint trimStart (s : str) : str :=
  match s with
  | [] => []
  | c :: r => if isWhiteSpace c then trimStart r else s
  end.

Definition trimEnd (s : str) : str := rev (trimStart (rev s)).

Definition trim (s : str) : str := trimEnd (trimStart s).

(** [s?.trim()] followed by [!]: true when the field is undefined or
    trims to the empty string. *)
Definition blank_opt (s : option str) : bool :=
  match s with None => true | Some s' => falsy_str (trim s') end.

(** Pieces of a regular expression anchored at both ends: a literal and a
    character class repeated a fixed number of times.  Each consumes a
    prefix of the input and returns the rest. *)
Fixpoint literal (lit s : str) : option str :=
  match lit, s with
  | [], _ => Some s
  | _ :: _, [] => None
  | a :: lit', c :: s' => if (a =? c)%N then literal lit' s' else None
  end.

Fixpoint classN (cls : N -> bool) (n : nat) (s : str) : option str :=
  match n, s with
  | O, _ => Some s
  | S _, [] => None
  | S n', c :: s' => if cls c then classN cls n' s' else None
  end.

(** The class [[A-Z0-9]]. *)
Definition upperOrDigit (c : N) : bool :=
  (((65 <=? c) && (c <=? 90)) || ((48 <=? c) && (c <=? 57)))%N.

(** [Array.prototype.sort] with a comparator.  The sort is stable, so for
    a comparator that is a consistent ordering its result is that of a
    stable insertion sort: an element goes before the first element it
    does not compare greater than. *)
Fixpoint sortInsert {A : Type} (compare : A -> A -> Z) (x : A)
    (l : list A) : list A :=
  match l with
  | [] => [x]
  | y :: l' =>
      if (compare x y <=? 0)%Z then x :: l
      else y :: sortInsert compare x l'
  end.

Definition sort {A : Type} (compare : A -> A -> Z) (l : list A) : list A :=
  fold_right (sortInsert compare) [] l.

(** The outcome of an awaited call: the value it resolves to, or a
    rejection. *)
Inductive Outcome (A : Type) :=
| Resolved (value : A)
| Rejected.

Arguments Resolved {A} value.
Arguments Rejected {A}.

(** Regular expressions over code units, for patterns anchored at both
    ends and built from character classes, sequence, alternation and
    repetition.  [test] decides the match by taking the derivative of the
    expression by each code unit in turn. *)
Inductive RegExp :=
| Never
| Empty
| Class (cls : N -> bool)
| Seq (r1 r2 : RegExp)
| Or (r1 r2 : RegExp)
| Star (r : RegExp).

(** [r+] and [r{n}]. *)
Definition Plus (r : RegExp) : RegExp := Seq r (Star r).

Fixpoint Times (n : nat) (r : RegExp) : RegExp :=
  match n with
  | O => Empty
  | S n' => Seq r (Times n' r)
  end.

(** A literal string. *)
Fixpoint Lit (s : str) : RegExp :=
  match s with
  | [] => Empty
  | c :: s' => Seq (Class (N.eqb c)) (Lit s')
  end.

Fixpoint nullable (r : RegExp) : bool :=
  match r with
  | Never => false
  | Empty => true
  | Class _ => false
  | Seq r1 r2 => nullable r1 && nullable r2
  | Or r1 r2 => nullable r1 || nullable r2
  | Star _ => true
  end.

Fixpoint derive (c : N) (r : RegExp) : RegExp :=
  match r with
  | Never => Never
  | Empty => Never
  | Class cls => if cls c then Empty else Never
  | Seq r1 r2 =>
      if nullable r1
      then Or (Seq (derive c r1) r2) (derive c r2)
      else Seq (derive c r1) r2
  | Or r1 r2 => Or (derive c r1) (derive c r2)
  | Star r1 => Seq (derive c r1) (Star r1)
  end.

Definition test (r : RegExp) (s : str) : bool :=
  nullable (fold_left (fun r' c => derive c r') s r).

(** The class [[^\s@]]. *)
Definition notSpaceNorAt (c : N) : bool :=
  negb (isWhiteSpace c || (c =? 64)%N).

(** [String.prototype.startsWith] and [String.prototype.includes] on code
    units. *)
Fixpoint startsWith (s needle : str) : bool :=
  match needle, s with
  | [], _ => true
  | _ :: _, [] => false
  | a :: needle', c :: s' => (a =? c)%N && startsWith s' needle'
  end.

Fixpoint includes (s needle : str) : bool :=
  startsWith s needle
  || match s with
     | [] => false
     | _ :: s' => includes s' needle
     end.

End Js.

Arguments Js.add : simpl never.
Arguments Js.sub : simpl never.
Arguments Js.mul : simpl never.
Arguments Js.div : simpl never.
Arguments Js.ofZ : simpl never.
Arguments Js.num : simpl never.

(* ------------------------------------------------------------------ *)
(** ** services/*.service.ts: the data carried by the pages             *)
(* ------------------------------------------------------------------ *)

(** The string unions of the services become enumerations; the interfaces
    become records that keep the fields the modelled functions read
    (dates, aggregate counters and the nested summaries, which none of
    them reads, are left out). *)

Inductive Tier := BASIC | SILVER | GOLD | PLATINUM.

Inductive Role := ADMIN | CLIENT.

Inductive OrderStatus := PENDING | CONFIRMED | CANCELED | REJECTED.

Inductive PaymentStatus := EN_ATTENTE | ENCAISSE | REJETE.

Inductive PaymentMethod := ESPECES | CHEQUE | VIREMENT.

Definition Tier_eqb (a b : Tier) : bool :=
  match a, b with
  | BASIC, BASIC | SILVER, SILVER | GOLD, GOLD | PLATINUM, PLATINUM => true
  | _, _ => false
  end.

Definition Role_eqb (a b : Role) : bool :=
  match a, b with
  | ADMIN, ADMIN | CLIENT, CLIENT => true
  | _, _ => false
  end.

Definition OrderStatus_eqb (a b : OrderStatus) : bool :=
  match a, b with
  | PENDING, PENDING | CONFIRMED, CONFIRMED
  | CANCELED, CANCELED | REJECTED, REJECTED => true
  | _, _ => false
  end.

Definition PaymentStatus_eqb (a b : PaymentStatus) : bool :=
  match a, b with
  | EN_ATTENTE, EN_ATTENTE | ENCAISSE, ENCAISSE | REJETE, REJETE => true
  | _, _ => false
  end.

Definition PaymentMethod_eqb (a b : PaymentMethod) : bool :=
  match a, b with
  | ESPECES, ESPECES | CHEQUE, CHEQUE | VIREMENT, VIREMENT => true
  | _, _ => false
  end.

Module User.
Record t := mk { id : Z; username : Js.str; role : Role }.
End User.

Module Client.
Record t := mk { id : Z; fullName : Js.str; email : Js.str; tier : Tier }.
End Client.

Module Product.
Record t := mk { id : Z; name : Js.str; price : Js.number; stock : Z }.
End Product.

Module Order.
Record t := mk {
  id : Z;
  clientName : Js.str;
  subTotal : Js.number;
  totalDiscount : Js.number;
  tax : Js.number;
  totalAmount : Js.number;
  status : OrderStatus
}.
End Order.

Module Payment.
Record t := mk {
  id : Z;
  paymentNumber : Z;
  amount : Js.number;
  paymentMethod : PaymentMethod;
  paymentStatus : PaymentStatus;
  reference : Js.str
}.
End Payment.

Module CreatePaymentRequest.
Record t := mk {
  orderId : Z;
  amount : Js.number;
  paymentMethod : PaymentMethod;
  reference : Js.str;
  bank : option Js.str;
  chequeNumber : option Js.str;
  dueDate : option Js.str
}.
End CreatePaymentRequest.

Module OrderItemRequest.
Record t := mk { productId : Z; quantity : Z }.
End OrderItemRequest.

Module CreateOrderRequest.
Record t := mk {
  clientId : Z;
  items : list OrderItemRequest.t;
  promoCode : option Js.str
}.
End CreateOrderRequest.

(* ------------------------------------------------------------------ *)
(** ** features/orders/CreateOrderPage                                  *)
(* ------------------------------------------------------------------ *)

Module CreateOrderPage.

(** The page-local [OrderItem] type: a draft line remembers the stock of
    the product at the time it was added. *)
Module OrderItem.
Record t := mk {
  productId : Z;
  productName : Js.str;
  quantity : Z;
  price : Js.number;
  stock : Z
}.
End OrderItem.

Record Totals := mkTotals {
  subTotal : Js.number;
  totalDiscount : Js.number;
  tax : Js.number;
  totalAmount : Js.number;
  tierDiscount : Js.number;
  promoDiscount : Js.number
}.

(** [loadData]: [setProducts(productsData.filter(p => p.stock > 0))]. *)
Definition loadData (productsData : list Product.t) : list Product.t :=
  filter (fun p => (0 <? Product.stock p)%Z) productsData.

(** [/^PROMO-[A-Z0-9]{4}$/.test(promoCode)]. *)
Definition promoRegex (promoCode : Js.str) : bool :=
  match Js.literal (Js.of_ascii "PROMO-") promoCode with
  | Some rest =>
      match Js.classN Js.upperOrDigit 4 rest with
      | Some [] => true
      | _ => false
      end
  | None => false
  end.

Definition calculateTotals (selectedClient : option Client.t)
    (orderItems : list OrderItem.t) (promoCode : Js.str) : Totals :=
  let subTotal :=
    fold_left
      (fun sum item =>
         Js.add sum (Js.mul (OrderItem.price item)
                            (Js.ofZ (OrderItem.quantity item))))
      orderItems (Js.num 0) in
  let tierDiscount :=
    match selectedClient with
    | Some c =>
        let tier := Client.tier c in
        if Tier_eqb tier SILVER && Js.ge subTotal (Js.num 500)
        then Js.mul subTotal (Js.num 0.05)
        else if Tier_eqb tier GOLD && Js.ge subTotal (Js.num 800)
        then Js.mul subTotal (Js.num 0.10)
        else if Tier_eqb tier PLATINUM && Js.ge subTotal (Js.num 1200)
        then Js.mul subTotal (Js.num 0.15)
        else Js.num 0
    | None => Js.num 0
    end in
  let promoDiscount :=
    if negb (Js.falsy_str promoCode) && promoRegex promoCode
    then Js.mul subTotal (Js.num 0.05) else Js.num 0 in
  let totalDiscount := Js.add tierDiscount promoDiscount in
  let taxableAmount := Js.sub subTotal totalDiscount in
  let tax := Js.mul taxableAmount (Js.num 0.20) in
  let totalAmount := Js.add taxableAmount tax in
  mkTotals subTotal totalDiscount tax totalAmount tierDiscount promoDiscount.

Definition sameProduct (productId : Z) (item : OrderItem.t) : bool :=
  (OrderItem.productId item =? productId)%Z.

Definition withQuantity (item : OrderItem.t) (q : Z) : OrderItem.t :=
  OrderItem.mk (OrderItem.productId item) (OrderItem.productName item) q
               (OrderItem.price item) (OrderItem.stock item).

(** The handlers return the next value of the [orderItems] state; a
    handler that does not call [setOrderItems] returns it unchanged. *)
Definition addItem (orderItems : list OrderItem.t) (product : Product.t)
    : list OrderItem.t :=
  match find (sameProduct (Product.id product)) orderItems with
  | Some existingItem =>
      if (OrderItem.quantity existingItem <? Product.stock product)%Z then
        map (fun item =>
               if sameProduct (Product.id product) item
               then withQuantity item (OrderItem.quantity item + 1)
               else item)
            orderItems
      else orderItems
  | None =>
      orderItems ++
        [OrderItem.mk (Product.id product) (Product.name product) 1
                      (Product.price product) (Product.stock product)]
  end.

Definition updateQuantity (orderItems : list OrderItem.t)
    (productId delta : Z) : list OrderItem.t :=
  map (fun item =>
         if sameProduct productId item then
           let newQuantity :=
             Z.max 1 (Z.min (OrderItem.stock item)
                            (OrderItem.quantity item + delta)) in
           withQuantity item newQuantity
         else item)
      orderItems.

Definition removeItem (orderItems : list OrderItem.t) (productId : Z)
    : list OrderItem.t :=
  filter (fun item => negb (sameProduct productId item)) orderItems.

(** The part of [filteredProducts] that does not depend on the search
    box: a product already in the draft is not listed for adding. *)
Definition notInDraft (orderItems : list OrderItem.t) (product : Product.t)
    : bool :=
  match find (sameProduct (Product.id product)) orderItems with
  | Some _ => false
  | None => true
  end.

(** The clicks of step 2 of the page. *)
Inductive Event :=
| AddItem (product : Product.t)
| UpdateQuantity (productId delta : Z)
| RemoveItem (productId : Z).

Definition handle (orderItems : list OrderItem.t) (e : Event)
    : list OrderItem.t :=
  match e with
  | AddItem product => addItem orderItems product
  | UpdateQuantity productId delta => updateQuantity orderItems productId delta
  | RemoveItem productId => removeItem orderItems productId
  end.

(** [filteredClients] and [filteredProducts].  Case folding is the
    engine's; it is a parameter of the two filters. *)
Definition filteredClients (toLowerCase : Js.str -> Js.str)
    (clients : list Client.t) (clientSearch : Js.str) : list Client.t :=
  filter (fun client =>
            Js.includes (toLowerCase (Client.fullName client))
                        (toLowerCase clientSearch)
            || Js.includes (toLowerCase (Client.email client))
                           (toLowerCase clientSearch))
         clients.

Definition filteredProducts (toLowerCase : Js.str -> Js.str)
    (products : list Product.t) (orderItems : list OrderItem.t)
    (productSearch : Js.str) : list Product.t :=
  filter (fun product =>
            Js.includes (toLowerCase (Product.name product))
                        (toLowerCase productSearch)
            && notInDraft orderItems product)
         products.

(** The warning under the promo code input:
    [promoCode && !/^PROMO-[A-Z0-9]{4}$/.test(promoCode)]. *)
Definition promoWarning (promoCode : Js.str) : bool :=
  negb (Js.falsy_str promoCode) && negb (promoRegex promoCode).

(** [handleSubmit], up to the call of [orderService.create]: the request
    it sends, or nothing when the guard returns early. *)
Definition handleSubmit (selectedClient : option Client.t)
    (orderItems : list OrderItem.t) (promoCode : Js.str)
    : option CreateOrderRequest.t :=
  match selectedClient with
  | None => None
  | Some client =>
      if Nat.eqb (List.length orderItems) 0 then None
      else
        Some (CreateOrderRequest.mk
                (Client.id client)
                (map (fun item =>
                        OrderItemRequest.mk (OrderItem.productId item)
                                            (OrderItem.quantity item))
                     orderItems)
                (if Js.falsy_str promoCode then None else Some promoCode))
  end.

(** The state of the three-step page. *)
Module State.
Record t := mk {
  step : Z;
  selectedClient : option Client.t;
  orderItems : list OrderItem.t;
  promoCode : Js.str;
  submitting : bool
}.
End State.

Definition initialState : State.t := State.mk 1 None [] [] false.

(** What the user can do on the page, and the end of a failed creation
    request ([catch] and [finally] of [handleSubmit]). *)
Inductive Click :=
| SelectClient (client : Client.t)
| Previous
| Next
| Submit
| Item (e : Event)
| PromoInput (value : Js.str)
| CreateFailed.

Definition hasClient (st : State.t) : bool :=
  match State.selectedClient st with Some _ => true | None => false end.

Definition noItems (st : State.t) : bool :=
  Nat.eqb (List.length (State.orderItems st)) 0.

(** The [disabled] attributes of the navigation buttons. *)
Definition previousDisabled (st : State.t) : bool := (State.step st =? 1)%Z.

Definition nextDisabled (st : State.t) : bool :=
  ((State.step st =? 1)%Z && negb (hasClient st))
  || ((State.step st =? 2)%Z && noItems st).

Definition submitDisabled (st : State.t) : bool :=
  State.submitting st || noItems st.

(** The handlers.  [toUpperCase] is the engine's case mapping applied to
    the promo code input. *)
Definition onClick (toUpperCase : Js.str -> Js.str) (st : State.t)
    (c : Click) : State.t :=
  match c with
  | SelectClient client =>
      State.mk 2 (Some client) (State.orderItems st) (State.promoCode st)
               (State.submitting st)
  | Previous =>
      State.mk (Z.max 1 (State.step st - 1)) (State.selectedClient st)
               (State.orderItems st) (State.promoCode st)
               (State.submitting st)
  | Next =>
      State.mk (State.step st + 1) (State.selectedClient st)
               (State.orderItems st) (State.promoCode st)
               (State.submitting st)
  | Submit =>
      match handleSubmit (State.selectedClient st) (State.orderItems st)
                         (State.promoCode st) with
      | None => st
      | Some _ =>
          State.mk (State.step st) (State.selectedClient st)
                   (State.orderItems st) (State.promoCode st) true
      end
  | Item e =>
      State.mk (State.step st) (State.selectedClient st)
               (handle (State.orderItems st) e) (State.promoCode st)
               (State.submitting st)
  | PromoInput value =>
      State.mk (State.step st) (State.selectedClient st)
               (State.orderItems st) (toUpperCase value)
               (State.submitting st)
  | CreateFailed =>
      State.mk (State.step st) (State.selectedClient st)
               (State.orderItems st) (State.promoCode st) false
  end.

End CreateOrderPage.


(* ------------------------------------------------------------------ *)
(** ** features/orders/OrderDetailPage (revision with the payment list)  *)
(* ------------------------------------------------------------------ *)

Module OrderDetailPage.

(** What a click on a button of the page triggers: [handleConfirm],
    [handleCancel], [handleEncash(payment.id)], [handleReject(payment.id)],
    or the navigation to the payment form. *)
Inductive Action :=
| Confirm
| Cancel
| Encash (paymentId : Z)
| Reject (paymentId : Z)
| AddPayment.

Definition Action_eqb (a b : Action) : bool :=
  match a, b with
  | Confirm, Confirm | Cancel, Cancel | AddPayment, AddPayment => true
  | Encash i, Encash j | Reject i, Reject j => (i =? j)%Z
  | _, _ => false
  end.

Record Button := mkButton { onClick : Action; disabled : bool }.

(** The React state of the component together with the user of the
    authentication context. *)
Record State := mkState {
  user : option User.t;
  order : option Order.t;
  payments : list Payment.t;
  loading : bool;
  error : option Js.str;
  actionLoading : bool
}.

(** [user?.role === 'ADMIN']. *)
Definition isAdmin (user : option User.t) : bool :=
  match user with
  | Some u => Role_eqb (User.role u) ADMIN
  | None => false
  end.

Definition totalPaid (payments : list Payment.t) : Js.number :=
  fold_left (fun sum p => Js.add sum (Payment.amount p))
    (filter (fun p => PaymentStatus_eqb (Payment.paymentStatus p) ENCAISSE)
            payments)
    (Js.num 0).

Definition remainingAmount (order : option Order.t)
    (payments : list Payment.t) : Js.number :=
  match order with
  | Some o => Js.sub (Order.totalAmount o) (totalPaid payments)
  | None => Js.num 0
  end.

(** Below the early returns of the component [order] is not null. *)
Definition canConfirm (user : option User.t) (order : Order.t)
    (payments : list Payment.t) : bool :=
  OrderStatus_eqb (Order.status order) PENDING && isAdmin user
  && Js.le (remainingAmount (Some order) payments) (Js.num 0).

Definition canCancel (user : option User.t) (order : Order.t) : bool :=
  OrderStatus_eqb (Order.status order) PENDING && isAdmin user.

Definition notClosed (order : Order.t) : bool :=
  negb (OrderStatus_eqb (Order.status order) CANCELED)
  && negb (OrderStatus_eqb (Order.status order) REJECTED).

(** Header: [{canConfirm && <button onClick={handleConfirm} .../>}] and the
    same for cancel. *)
Definition headerButtons (st : State) (o : Order.t) : list Button :=
  (if canConfirm (user st) o (payments st)
   then [mkButton Confirm (actionLoading st)] else [])
  ++ (if canCancel (user st) o
      then [mkButton Cancel (actionLoading st)] else []).

(** Payments card: the "Add Payment" button and, per payment, the
    encash/reject pair. *)
Definition paymentRowButtons (st : State) (payment : Payment.t)
    : list Button :=
  if isAdmin (user st)
     && PaymentStatus_eqb (Payment.paymentStatus payment) EN_ATTENTE
  then [mkButton (Encash (Payment.id payment)) (actionLoading st);
        mkButton (Reject (Payment.id payment)) (actionLoading st)]
  else [].

Definition paymentsCardButtons (st : State) (o : Order.t) : list Button :=
  (if notClosed o then [mkButton AddPayment false] else [])
  ++ flat_map (paymentRowButtons st) (payments st).

(** Payment summary card. *)
Definition summaryButtons (st : State) (o : Order.t) : list Button :=
  if Js.gt (remainingAmount (Some o) (payments st)) (Js.num 0)
     && notClosed o
  then [mkButton AddPayment false] else [].

(** "Actions for Admin" card. *)
Definition adminButtons (st : State) (o : Order.t) : list Button :=
  if isAdmin (user st) && OrderStatus_eqb (Order.status o) PENDING
  then [mkButton Confirm
          (actionLoading st
           || Js.gt (remainingAmount (Some o) (payments st)) (Js.num 0));
        mkButton Cancel (actionLoading st)]
  else [].

(** The action buttons of the rendered page, in document order.  The
    loading and error screens carry none of them. *)
Definition render (st : State) : list Button :=
  if loading st then []
  else
    match order st with
    | Some o =>
        if negb (Js.falsy_opt (error st)) then []
        else headerButtons st o ++ paymentsCardButtons st o
             ++ summaryButtons st o ++ adminButtons st o
    | None => []
    end.

(** An action is offered when some rendered button that is not disabled
    triggers it. *)
Definition offered (st : State) (a : Action) : bool :=
  existsb (fun b => Action_eqb (onClick b) a && negb (disabled b))
          (render st).


End OrderDetailPage.

(* ------------------------------------------------------------------ *)
(** ** features/orders/OrderDetailPage, first revision (no payment list) *)
(* ------------------------------------------------------------------ *)

Module OrderDetailPageV1.

Definition isAdmin := OrderDetailPage.isAdmin.

Definition canConfirm (user : option User.t) (order : Order.t) : bool :=
  OrderStatus_eqb (Order.status order) PENDING && isAdmin user.

Definition canCancel (user : option User.t) (order : Order.t) : bool :=
  OrderStatus_eqb (Order.status order) PENDING && isAdmin user.

End OrderDetailPageV1.

(* ------------------------------------------------------------------ *)
(** ** features/payments/AddPaymentPage                                  *)
(* ------------------------------------------------------------------ *)

Module AddPaymentPage.

(** [Partial<Record<keyof CreatePaymentRequest, string>>], restricted to
    the keys [validate] can set. *)
Record Errors := mkErrors {
  amount : option string;
  reference : option string;
  bank : option string;
  chequeNumber : option string;
  dueDate : option string
}.

Definition noErrors : Errors := mkErrors None None None None None.

Definition setAmount (e : Errors) (m : string) : Errors :=
  mkErrors (Some m) (reference e) (bank e) (chequeNumber e) (dueDate e).
Definition setReference (e : Errors) (m : string) : Errors :=
  mkErrors (amount e) (Some m) (bank e) (chequeNumber e) (dueDate e).
Definition setBank (e : Errors) (m : string) : Errors :=
  mkErrors (amount e) (reference e) (Some m) (chequeNumber e) (dueDate e).
Definition setChequeNumber (e : Errors) (m : string) : Errors :=
  mkErrors (amount e) (reference e) (bank e) (Some m) (dueDate e).
Definition setDueDate (e : Errors) (m : string) : Errors :=
  mkErrors (amount e) (reference e) (bank e) (chequeNumber e) (Some m).

(** [Object.keys(newErrors)]. *)
Definition keys (e : Errors) : list string :=
  (match amount e with Some _ => ["amount"%string] | None => [] end)
  ++ (match reference e with Some _ => ["reference"%string] | None => [] end)
  ++ (match bank e with Some _ => ["bank"%string] | None => [] end)
  ++ (match chequeNumber e with
      | Some _ => ["chequeNumber"%string] | None => [] end)
  ++ (match dueDate e with Some _ => ["dueDate"%string] | None => [] end).

(** [validate]: returns the error object it stores with [setErrors] and
    the boolean it returns. *)
Definition validate (order : option Order.t)
    (formData : CreatePaymentRequest.t) : Errors * bool :=
  let newErrors := noErrors in
  let newErrors :=
    if Js.falsy_number (CreatePaymentRequest.amount formData)
       || Js.le (CreatePaymentRequest.amount formData) (Js.num 0)
    then setAmount newErrors "Amount must be greater than 0"
    else
      match order with
      | Some o =>
          if Js.gt (CreatePaymentRequest.amount formData)
                   (Order.totalAmount o)
          then setAmount newErrors "Amount cannot exceed order total"
          else newErrors
      | None => newErrors
      end in
  let newErrors :=
    if Js.falsy_str (Js.trim (CreatePaymentRequest.reference formData))
    then setReference newErrors "Reference is required"
    else newErrors in
  let newErrors :=
    if PaymentMethod_eqb (CreatePaymentRequest.paymentMethod formData) CHEQUE
    then
      let newErrors :=
        if Js.blank_opt (CreatePaymentRequest.bank formData)
        then setBank newErrors "Bank is required for cheque payments"
        else newErrors in
      let newErrors :=
        if Js.blank_opt (CreatePaymentRequest.chequeNumber formData)
        then setChequeNumber newErrors "Cheque number is required"
        else newErrors in
      if Js.falsy_opt (CreatePaymentRequest.dueDate formData)
      then setDueDate newErrors "Due date is required for cheque payments"
      else newErrors
    else newErrors in
  let newErrors :=
    if PaymentMethod_eqb (CreatePaymentRequest.paymentMethod formData)
                         VIREMENT
    then
      if Js.blank_opt (CreatePaymentRequest.bank formData)
      then setBank newErrors "Bank is required for bank transfers"
      else newErrors
    else newErrors in
  (newErrors, Nat.eqb (List.length (keys newErrors)) 0).

(** [...(s && { key: s.trim() })] and [...(s && { key: s })]: the
    optional keys of the request. *)
Definition spreadTrimmed (s : option Js.str) : option Js.str :=
  match s with
  | Some v => if Js.falsy_str v then None else Some (Js.trim v)
  | None => None
  end.

Definition spreadPlain (s : option Js.str) : option Js.str :=
  match s with
  | Some v => if Js.falsy_str v then None else Some v
  | None => None
  end.

(** [handleSubmit], up to the call of [paymentService.create]: the
    request it sends, or nothing when [validate] fails.  [orderId] is the
    number read from the route. *)
Definition handleSubmit (order : option Order.t) (orderId : Z)
    (formData : CreatePaymentRequest.t) : option CreatePaymentRequest.t :=
  if negb (snd (validate order formData)) then None
  else
    Some (CreatePaymentRequest.mk
            orderId
            (CreatePaymentRequest.amount formData)
            (CreatePaymentRequest.paymentMethod formData)
            (Js.trim (CreatePaymentRequest.reference formData))
            (spreadTrimmed (CreatePaymentRequest.bank formData))
            (spreadTrimmed (CreatePaymentRequest.chequeNumber formData))
            (spreadPlain (CreatePaymentRequest.dueDate formData))).

(** The calls of [handleChange] the form makes: a field together with a
    value of its type. *)
Inductive Change :=
| ChangeAmount (value : Js.number)
| ChangePaymentMethod (value : PaymentMethod)
| ChangeReference (value : Js.str)
| ChangeBank (value : Js.str)
| ChangeChequeNumber (value : Js.str)
| ChangeDueDate (value : Js.str).

(** [handleChange]: the field is replaced and, when that field has an
    error message, the message is cleared. *)
Definition handleChange (formData : CreatePaymentRequest.t) (errors : Errors)
    (c : Change) : CreatePaymentRequest.t * Errors :=
  match c with
  | ChangeAmount v =>
      (CreatePaymentRequest.mk
         (CreatePaymentRequest.orderId formData) v
         (CreatePaymentRequest.paymentMethod formData)
         (CreatePaymentRequest.reference formData)
         (CreatePaymentRequest.bank formData)
         (CreatePaymentRequest.chequeNumber formData)
         (CreatePaymentRequest.dueDate formData),
       mkErrors None (reference errors) (bank errors)
                (chequeNumber errors) (dueDate errors))
  | ChangePaymentMethod v =>
      (CreatePaymentRequest.mk
         (CreatePaymentRequest.orderId formData)
         (CreatePaymentRequest.amount formData) v
         (CreatePaymentRequest.reference formData)
         (CreatePaymentRequest.bank formData)
         (CreatePaymentRequest.chequeNumber formData)
         (CreatePaymentRequest.dueDate formData),
       errors)
  | ChangeReference v =>
      (CreatePaymentRequest.mk
         (CreatePaymentRequest.orderId formData)
         (CreatePaymentRequest.amount formData)
         (CreatePaymentRequest.paymentMethod formData) v
         (CreatePaymentRequest.bank formData)
         (CreatePaymentRequest.chequeNumber formData)
         (CreatePaymentRequest.dueDate formData),
       mkErrors (amount errors) None (bank errors)
                (chequeNumber errors) (dueDate errors))
  | ChangeBank v =>
      (CreatePaymentRequest.mk
         (CreatePaymentRequest.orderId formData)
         (CreatePaymentRequest.amount formData)
         (CreatePaymentRequest.paymentMethod formData)
         (CreatePaymentRequest.reference formData) (Some v)
         (CreatePaymentRequest.chequeNumber formData)
         (CreatePaymentRequest.dueDate formData),
       mkErrors (amount errors) (reference errors) None
                (chequeNumber errors) (dueDate errors))
  | ChangeChequeNumber v =>
      (CreatePaymentRequest.mk
         (CreatePaymentRequest.orderId formData)
         (CreatePaymentRequest.amount formData)
         (CreatePaymentRequest.paymentMethod formData)
         (CreatePaymentRequest.reference formData)
         (CreatePaymentRequest.bank formData) (Some v)
         (CreatePaymentRequest.dueDate formData),
       mkErrors (amount errors) (reference errors) (bank errors) None
                (dueDate errors))
  | ChangeDueDate v =>
      (CreatePaymentRequest.mk
         (CreatePaymentRequest.orderId formData)
         (CreatePaymentRequest.amount formData)
         (CreatePaymentRequest.paymentMethod formData)
         (CreatePaymentRequest.reference formData)
         (CreatePaymentRequest.bank formData)
         (CreatePaymentRequest.chequeNumber formData) (Some v),
       mkErrors (amount errors) (reference errors) (bank errors)
                (chequeNumber errors) None)
  end.

End AddPaymentPage.


(* ------------------------------------------------------------------ *)
(** ** features/auth/AuthContext and the protected route of App           *)
(* ------------------------------------------------------------------ *)

Module AuthContext.

Record State := mkState { user : option User.t; loading : bool }.

Definition initialState : State := mkState None true.

(** [checkAuth], run once when the provider mounts: the user reported by
    [getCurrentUser] or null, and [loading] off in both cases. *)
Definition checkAuth (st : State) (currentUser : Js.Outcome User.t)
    : State :=
  mkState (match currentUser with
           | Js.Resolved u => Some u
           | Js.Rejected => None
           end)
          false.

(** [login]: both calls must resolve for the user to be set; the second
    component tells whether the promise returned to the caller rejects. *)
Definition login (st : State) (loginCall : Js.Outcome unit)
    (currentUser : Js.Outcome User.t) : State * bool :=
  match loginCall with
  | Js.Rejected => (st, true)
  | Js.Resolved _ =>
      match currentUser with
      | Js.Resolved u => (mkState (Some u) (loading st), false)
      | Js.Rejected => (st, true)
      end
  end.

(** [logout]: the user is cleared in the [finally] block, whether the
    call resolved or not. *)
Definition logout (st : State) (logoutCall : Js.Outcome unit)
    : State * bool :=
  (mkState None (loading st),
   match logoutCall with
   | Js.Resolved _ => false
   | Js.Rejected => true
   end).

(** [isAuthenticated: !!user]. *)
Definition isAuthenticated (st : State) : bool :=
  match user st with Some _ => true | None => false end.

(** The calls that complete during the life of the provider. *)
Inductive Completed :=
| CheckAuth (currentUser : Js.Outcome User.t)
| Login (loginCall : Js.Outcome unit) (currentUser : Js.Outcome User.t)
| Logout (logoutCall : Js.Outcome unit).

Definition complete (st : State) (e : Completed) : State :=
  match e with
  | CheckAuth currentUser => checkAuth st currentUser
  | Login loginCall currentUser => fst (login st loginCall currentUser)
  | Logout logoutCall => fst (logout st logoutCall)
  end.

Definition run (es : list Completed) : State :=
  fold_left complete es initialState.

End AuthContext.

Module App.

(** What [ProtectedRoute] renders. *)
Inductive Rendered := Spinner | NavigateToLogin | Children.

Definition ProtectedRoute (auth : AuthContext.State) : Rendered :=
  if AuthContext.loading auth then Spinner
  else if negb (AuthContext.isAuthenticated auth) then NavigateToLogin
  else Children.

End App.

(* ------------------------------------------------------------------ *)
(** ** features/clients/ClientFormPage                                   *)
(* ------------------------------------------------------------------ *)

Module ClientFormPage.

Module FormData.
Record t := mk { fullName : Js.str; email : Js.str; password : Js.str }.
End FormData.

Record FormErrors := mkErrors {
  fullName : option string;
  email : option string;
  password : option string
}.

(** [/^[^\s@]+@[^\s@]+\.[^\s@]+$/]. *)
Definition emailRegExp : Js.RegExp :=
  Js.Seq (Js.Plus (Js.Class Js.notSpaceNorAt))
    (Js.Seq (Js.Class (N.eqb 64))
       (Js.Seq (Js.Plus (Js.Class Js.notSpaceNorAt))
          (Js.Seq (Js.Class (N.eqb 46))
                  (Js.Plus (Js.Class Js.notSpaceNorAt))))).

(** [Object.keys(newErrors)]. *)
Definition keys (e : FormErrors) : list string :=
  (match fullName e with Some _ => ["fullName"%string] | None => [] end)
  ++ (match email e with Some _ => ["email"%string] | None => [] end)
  ++ (match password e with Some _ => ["password"%string] | None => [] end).

(** [validate]; [isEditing] tells whether the route carries a client
    id. *)
Definition validate (isEditing : bool) (formData : FormData.t)
    : FormErrors * bool :=
  let newErrors := mkErrors None None None in
  let newErrors :=
    if Js.falsy_str (Js.trim (FormData.fullName formData))
    then mkErrors (Some "Full name is required"%string)
                  (email newErrors) (password newErrors)
    else if (List.length (FormData.fullName formData) <? 2)%nat
            || (100 <? List.length (FormData.fullName formData))%nat
    then mkErrors
           (Some "Full name must be between 2 and 100 characters"%string)
           (email newErrors) (password newErrors)
    else newErrors in
  let newErrors :=
    if Js.falsy_str (Js.trim (FormData.email formData))
    then mkErrors (fullName newErrors) (Some "Email is required"%string)
                  (password newErrors)
    else if negb (Js.test emailRegExp (FormData.email formData))
    then mkErrors (fullName newErrors) (Some "Invalid email format"%string)
                  (password newErrors)
    else newErrors in
  let newErrors :=
    if negb isEditing then
      if Js.falsy_str (FormData.password formData)
      then mkErrors (fullName newErrors) (email newErrors)
                    (Some "Password is required"%string)
      else if (List.length (FormData.password formData) <? 6)%nat
      then mkErrors (fullName newErrors) (email newErrors)
                    (Some "Password must be at least 6 characters"%string)
      else newErrors
    else newErrors in
  (newErrors, Nat.eqb (List.length (keys newErrors)) 0).

(** The body passed to [clientService.update] or [clientService.create]. *)
Inductive Request :=
| Update (fullName email : Js.str)
| Create (fullName email password : Js.str).

(** [handleSubmit], up to the service call. *)
Definition handleSubmit (isEditing : bool) (formData : FormData.t)
    : option Request :=
  if negb (snd (validate isEditing formData)) then None
  else if isEditing
  then Some (Update (Js.trim (FormData.fullName formData))
                    (Js.trim (FormData.email formData)))
  else Some (Create (Js.trim (FormData.fullName formData))
                    (Js.trim (FormData.email formData))
                    (FormData.password formData)).

End ClientFormPage.

(* ------------------------------------------------------------------ *)
(** ** features/products/ProductsListPage: the pager                     *)
(* ------------------------------------------------------------------ *)

Module ProductsListPage.

Record Pager := mkPager { currentPage : Z; totalPages : Z }.

Definition initialPager : Pager := mkPager 0 0.

Inductive PagerEvent :=
| PreviousPage
| NextPage
| ToggleDeleted
| Loaded (totalPages : Z).

(** The [disabled] attributes of the two buttons. *)
Definition previousDisabled (p : Pager) : bool := (currentPage p =? 0)%Z.

Definition nextDisabled (p : Pager) : bool :=
  (totalPages p - 1 <=? currentPage p)%Z.

Definition handle (p : Pager) (e : PagerEvent) : Pager :=
  match e with
  | PreviousPage => mkPager (Z.max 0 (currentPage p - 1)) (totalPages p)
  | NextPage =>
      mkPager (Z.min (totalPages p - 1) (currentPage p + 1)) (totalPages p)
  | ToggleDeleted => mkPager 0 (totalPages p)
  | Loaded n => mkPager (currentPage p) n
  end.

End ProductsListPage.

(* ------------------------------------------------------------------ *)
(** ** features/dashboard/DashboardPage                                  *)
(* ------------------------------------------------------------------ *)

Module DashboardPage.

Definition totalRevenue (orders : list Order.t) : Js.number :=
  fold_left (fun sum order => Js.add sum (Order.totalAmount order))
    (filter (fun o => negb (OrderStatus_eqb (Order.status o) CANCELED)
                      && negb (OrderStatus_eqb (Order.status o) REJECTED))
            orders)
    (Js.num 0).

Definition activeOrdersCount (orders : list Order.t) : nat :=
  List.length
    (filter (fun o => OrderStatus_eqb (Order.status o) PENDING
                      || OrderStatus_eqb (Order.status o) CONFIRMED)
            orders).

Definition lowStockCount (products : list Product.t) : nat :=
  List.length (filter (fun p => (Product.stock p <? 10)%Z) products).

(** [[...orders].sort((a, b) => b.id - a.id).slice(0, 5)]. *)
Definition recentOrders (orders : list Order.t) : list Order.t :=
  firstn 5 (Js.sort (fun a b => (Order.id b - Order.id a)%Z) orders).

End DashboardPage.

(* ------------------------------------------------------------------ *)
(** ** Specification-side notions                                       *)
(* ------------------------------------------------------------------ *)

(** A number that is neither NaN nor an infinity. *)
Definition finite (x : Js.number) : Prop :=
  match x with
  | S754_zero _ | S754_finite _ _ _ => True
  | S754_infinity _ | S754_nan => False
  end.

(** A number in the binary64 format: the mantissa of a finite one has at
    most 53 bits and the exponent is the smallest the format allows for
    it. *)
Definition wellFormed (x : Js.number) : Prop :=
  valid_binary Js.prec Js.emax x = true.

(** The exact value of a finite number, mantissa times two to the
    exponent, as a rational (and zero for NaN and the infinities). *)
Definition valueOf (x : Js.number) : Q :=
  match x with
  | S754_finite s m e =>
      let v := (inject_Z (Zpos m) * 2 ^ e)%Q in
      if s then (- v)%Q else v
  | _ => 0%Q
  end.

(** The smallest exponent of the format. *)
Definition emin : Z := -1074.

(** The record [SpecFloat] keeps while it shifts a mantissa [m] to the
    right, after [k] shifts: quotient, round bit, sticky bit. *)
Definition shifted (m k : Z) : shr_record :=
  Build_shr_record (m / 2 ^ k)%Z
    (if (k =? 0)%Z then false else Z.testbit m (k - 1))
    (if (k =? 0)%Z then false else negb (m mod 2 ^ (k - 1) =? 0)%Z).

(** The mantissa [m] shifted by [n] places and rounded to nearest, ties to
    even. *)
Definition roundedMantissa (m n : Z) : Z :=
  round_nearest_even (m / 2 ^ n)%Z
    (if (m mod 2 ^ n =? 0)%Z then loc_Exact
     else loc_Inexact (2 * (m mod 2 ^ n) ?= 2 ^ n)%Z).

(** The number kept for a mantissa and an exponent: zero, a finite number
    or, past the largest exponent, an infinity. *)
Definition encode (s : bool) (m e : Z) : Js.number :=
  match m with
  | Z0 => S754_zero s
  | Zpos p =>
      if (e <=? Js.emax - Js.prec)%Z then S754_finite s p e
      else S754_infinity s
  | Zneg _ => S754_nan
  end.

(** A magnitude given by an integer mantissa and an exponent, with its
    sign. *)
Definition scaled (s : bool) (m e : Z) : Q :=
  let v := (inject_Z m * 2 ^ e)%Q in if s then (- v)%Q else v.

(** [r] is the number kept for the exact result [v] of an operation: a
    number of the format, of the sign of [v]; when [v] is below [2^k] in
    absolute value, with [k] at most 1023, a finite number at most half a
    unit in the last place away from [v]; and [v] itself when [v] is a
    number of the format other than zero. *)
Definition roundedTo (v : Q) (r : Js.number) : Prop :=
  wellFormed r
  /\ (0 <= v -> 0 <= valueOf r)%Q
  /\ (v <= 0 -> valueOf r <= 0)%Q
  /\ (forall k : Z,
        (Qabs v < 2 ^ k)%Q -> (k <= 1023)%Z ->
        finite r
        /\ (Qabs (valueOf r - v) <= 2 ^ (Z.max (k - 53) emin - 1))%Q)
  /\ (forall x : Js.number,
        wellFormed x -> finite x -> (valueOf x == v)%Q -> ~ (v == 0)%Q ->
        r = x).

(** Sum of a list of rationals, written the way the specification writes
    its sigma. *)
Fixpoint Qsum (l : list Q) : Q :=
  match l with
  | [] => 0%Q
  | x :: r => (x + Qsum r)%Q
  end.

(** Sum of a list of numbers in the arithmetic of the engine: the terms
    are added one at a time, in the order of the list, to a running total
    that starts at zero, and every addition rounds. *)
Fixpoint sumFrom (total : Js.number) (l : list Js.number) : Js.number :=
  match l with
  | [] => total
  | x :: r => sumFrom (Js.add total x) r
  end.

Definition runningSum (l : list Js.number) : Js.number :=
  sumFrom (Js.num 0) l.

(** The amounts of the payments in a given status, in list order. *)
Definition amountsWithStatus (s : PaymentStatus) (payments : list Payment.t)
    : list Js.number :=
  map Payment.amount
      (filter (fun p => PaymentStatus_eqb (Payment.paymentStatus p) s)
              payments).

(** A money amount expressed in whole minor units (hundredths). *)
Definition wholeMinorUnits (x : Q) : Prop := exists z : Z, (x == z # 100)%Q.

(** Rounding to the nearest minor unit, halves up. *)
Definition roundMinor (x : Q) : Q := (Qfloor (x * 100 + (1 # 2)) # 100)%Q.

(** An upper-case letter (A to Z) or a digit (0 to 9), by code unit. *)
Definition upperAlnum (c : N) : Prop :=
  (65 <= c <= 90)%N \/ (48 <= c <= 57)%N.

(** The strings denoted by the pattern: [PROMO-] followed by exactly four
    upper-case letters or digits. *)
Definition promoShaped (s : Js.str) : Prop :=
  exists c1 c2 c3 c4 : N,
    s = Js.of_ascii "PROMO-" ++ [c1; c2; c3; c4]
    /\ Forall upperAlnum [c1; c2; c3; c4].

(** The discount rate the specification attaches to a tier at a given
    subtotal: one threshold-gated percentage per tier, or none. *)
Definition tierRate (tier : Tier) (subTotal : Js.number)
    : option Js.number :=
  match tier with
  | BASIC => None
  | SILVER =>
      if Js.ge subTotal (Js.num 500) then Some (Js.num 0.05) else None
  | GOLD =>
      if Js.ge subTotal (Js.num 800) then Some (Js.num 0.10) else None
  | PLATINUM =>
      if Js.ge subTotal (Js.num 1200) then Some (Js.num 0.15) else None
  end.

(** The rate granted by the promo code field: 5% for a code of the
    expected shape, none otherwise. *)
Definition promoRate (promoCode : Js.str) : option Js.number :=
  if CreateOrderPage.promoRegex promoCode then Some (Js.num 0.05) else None.

(** A rate applied to a base amount: their product, and zero when there
    is no rate. *)
Definition discountAt (base : Js.number) (rate : option Js.number)
    : Js.number :=
  match rate with
  | Some r => Js.mul base r
  | None => Js.num 0
  end.

(** The total of one draft line. *)
Definition lineTotal (item : CreateOrderPage.OrderItem.t) : Js.number :=
  Js.mul (CreateOrderPage.OrderItem.price item)
         (Js.ofZ (CreateOrderPage.OrderItem.quantity item)).

(** A line whose price is a finite number of the format and whose
    quantity is below 2^53 in absolute value. *)
Definition plainLine (item : CreateOrderPage.OrderItem.t) : Prop :=
  wellFormed (CreateOrderPage.OrderItem.price item)
  /\ finite (CreateOrderPage.OrderItem.price item)
  /\ (Z.abs (CreateOrderPage.OrderItem.quantity item) < 2 ^ 53)%Z.

(** The exact value of a line: price times quantity, and its absolute
    value. *)
Definition exactLine (item : CreateOrderPage.OrderItem.t) : Q :=
  (valueOf (CreateOrderPage.OrderItem.price item)
   * inject_Z (CreateOrderPage.OrderItem.quantity item))%Q.

Definition exactLineAbs (item : CreateOrderPage.OrderItem.t) : Q :=
  (Qabs (valueOf (CreateOrderPage.OrderItem.price item))
   * inject_Z (Z.abs (CreateOrderPage.OrderItem.quantity item)))%Q.

(** A text field counts as missing when it is undefined or holds white
    space only, and as absent when it is undefined or empty. *)
Definition whiteSpaceOnly (s : Js.str) : Prop :=
  Forall (fun c => Js.isWhiteSpace c = true) s.

Definition missing (s : option Js.str) : Prop :=
  match s with
  | None => True
  | Some s' => whiteSpaceOnly s'
  end.

Definition absent (s : option Js.str) : Prop := s = None \/ s = Some [].

(** Sum of the amounts of the payments that are not REJETE. *)
Definition sumNotRejected (payments : list Payment.t) : Js.number :=
  runningSum
    (map Payment.amount
         (filter (fun p => negb (PaymentStatus_eqb
                                   (Payment.paymentStatus p) REJETE))
                 payments)).

(** The method-specific requirements of a payment request: a cheque
    needs bank, cheque number and due date; a transfer needs the bank. *)
Definition methodFieldMissing (formData : CreatePaymentRequest.t) : Prop :=
  (CreatePaymentRequest.paymentMethod formData = CHEQUE
   /\ (missing (CreatePaymentRequest.bank formData)
       \/ missing (CreatePaymentRequest.chequeNumber formData)
       \/ absent (CreatePaymentRequest.dueDate formData)))
  \/ (CreatePaymentRequest.paymentMethod formData = VIREMENT
      /\ missing (CreatePaymentRequest.bank formData)).

(** The rejection condition in the words of the specification: a
    non-positive amount, an amount above the order total less the
    payments already recorded and not rejected, or a missing
    method-specific field. *)
Definition statedInvalid (order : Order.t) (existing : list Payment.t)
    (formData : CreatePaymentRequest.t) : Prop :=
  Js.le (CreatePaymentRequest.amount formData) (Js.num 0) = true
  \/ Js.lt (Js.sub (Order.totalAmount order) (sumNotRejected existing))
           (CreatePaymentRequest.amount formData) = true
  \/ methodFieldMissing formData.

(** A draft line is in order when its quantity lies between one and the
    stock recorded on the line. *)
Definition lineOk (item : CreateOrderPage.OrderItem.t) : Prop :=
  (1 <= CreateOrderPage.OrderItem.quantity item
   <= CreateOrderPage.OrderItem.stock item)%Z.

(** The draft invariant: no product on two lines, every line in order. *)
Definition draftOk (orderItems : list CreateOrderPage.OrderItem.t) : Prop :=
  NoDup (map CreateOrderPage.OrderItem.productId orderItems)
  /\ Forall lineOk orderItems.

(** A product as the page hands it to [addItem]: it is in stock (the
    product list is filtered on [stock > 0] when it is loaded) and a line
    of the draft for it recorded the stock it still shows (lines copy
    their stock from that same list). *)
Definition listed (orderItems : list CreateOrderPage.OrderItem.t)
    (product : Product.t) : Prop :=
  (1 <= Product.stock product)%Z
  /\ forall item, In item orderItems ->
       CreateOrderPage.OrderItem.productId item = Product.id product ->
       CreateOrderPage.OrderItem.stock item = Product.stock product.

(** The clicks the rendered page allows: the "add" button exists only for
    the products of the loaded list that are not yet in the draft; the
    plus, minus and remove buttons are not restricted here. *)
Definition clickable (products : list Product.t)
    (orderItems : list CreateOrderPage.OrderItem.t)
    (e : CreateOrderPage.Event) : Prop :=
  match e with
  | CreateOrderPage.AddItem product =>
      In product products
      /\ CreateOrderPage.notInDraft orderItems product = true
  | _ => True
  end.

(** The drafts the page can be in, starting from the empty one. *)
Inductive reachable (products : list Product.t)
    : list CreateOrderPage.OrderItem.t -> Prop :=
| reach_empty : reachable products []
| reach_click orderItems e :
    reachable products orderItems ->
    clickable products orderItems e ->
    reachable products (CreateOrderPage.handle orderItems e).

(** The user is an administrator. *)
Definition adminUser (user : option User.t) : Prop :=
  exists u, user = Some u /\ User.role u = ADMIN.

(** The four actions of the order detail page that change the status of
    an order or of a payment. *)
Definition mutating (a : OrderDetailPage.Action) : bool :=
  match a with
  | OrderDetailPage.AddPayment => false
  | _ => true
  end.

(** What the order detail page requires, besides the role, before it
    offers an action. *)
Definition gate (st : OrderDetailPage.State) (a : OrderDetailPage.Action)
    : Prop :=
  match a with
  | OrderDetailPage.Confirm | OrderDetailPage.Cancel =>
      exists o, OrderDetailPage.order st = Some o
                /\ Order.status o = PENDING
  | OrderDetailPage.Encash paymentId | OrderDetailPage.Reject paymentId =>
      exists p, In p (OrderDetailPage.payments st)
                /\ Payment.id p = paymentId
                /\ Payment.paymentStatus p = EN_ATTENTE
  | OrderDetailPage.AddPayment => True
  end.

(** The clicks the rendered create-order page offers in a state: the
    customer buttons at step 1, the item buttons and the promo input at
    step 2 once a customer is selected, and the navigation buttons that
    are not disabled.  The search boxes only narrow the lists, so any
    loaded customer and any listed product may be clicked. *)
Definition pageOffers (products : list Product.t) (clients : list Client.t)
    (st : CreateOrderPage.State.t) (c : CreateOrderPage.Click) : Prop :=
  match c with
  | CreateOrderPage.SelectClient client =>
      CreateOrderPage.State.step st = 1%Z /\ In client clients
  | CreateOrderPage.Previous => CreateOrderPage.previousDisabled st = false
  | CreateOrderPage.Next =>
      (CreateOrderPage.State.step st < 3)%Z
      /\ CreateOrderPage.nextDisabled st = false
  | CreateOrderPage.Submit =>
      ~ (CreateOrderPage.State.step st < 3)%Z
      /\ CreateOrderPage.submitDisabled st = false
  | CreateOrderPage.Item e =>
      CreateOrderPage.State.step st = 2%Z
      /\ CreateOrderPage.hasClient st = true
      /\ clickable products (CreateOrderPage.State.orderItems st) e
  | CreateOrderPage.PromoInput _ =>
      CreateOrderPage.State.step st = 2%Z
      /\ CreateOrderPage.hasClient st = true
  | CreateOrderPage.CreateFailed =>
      CreateOrderPage.State.submitting st = true
  end.

(** The states of the create-order page, from the initial one. *)
Inductive pageReachable (toUpperCase : Js.str -> Js.str)
    (products : list Product.t) (clients : list Client.t)
    : CreateOrderPage.State.t -> Prop :=
| page_initial :
    pageReachable toUpperCase products clients CreateOrderPage.initialState
| page_click st c :
    pageReachable toUpperCase products clients st ->
    pageOffers products clients st c ->
    pageReachable toUpperCase products clients
                  (CreateOrderPage.onClick toUpperCase st c).

(** The strings a regular expression denotes. *)
Inductive matches : Js.RegExp -> Js.str -> Prop :=
| matches_empty : matches Js.Empty []
| matches_class cls c : cls c = true -> matches (Js.Class cls) [c]
| matches_seq r1 r2 s1 s2 :
    matches r1 s1 -> matches r2 s2 -> matches (Js.Seq r1 r2) (s1 ++ s2)
| matches_or_l r1 r2 s : matches r1 s -> matches (Js.Or r1 r2) s
| matches_or_r r1 r2 s : matches r2 s -> matches (Js.Or r1 r2) s
| matches_star_nil r : matches (Js.Star r) []
| matches_star_more r s1 s2 :
    matches r s1 -> matches (Js.Star r) s2 ->
    matches (Js.Star r) (s1 ++ s2).

(** A character allowed in the parts of an e-mail address: neither white
    space nor the at sign. *)
Definition addressChar (c : N) : Prop :=
  Js.isWhiteSpace c = false /\ c <> 64%N.

(** The strings of the shape local@domain.tld: three non-empty parts of
    allowed characters around an at sign and a dot. *)
Definition emailShaped (s : Js.str) : Prop :=
  exists a b c : Js.str,
    s = a ++ [64%N] ++ b ++ [46%N] ++ c
    /\ a <> [] /\ b <> [] /\ c <> []
    /\ Forall addressChar a /\ Forall addressChar b
    /\ Forall addressChar c.

(** The promo code pattern as a regular expression:
    [PROMO-] then four times [[A-Z0-9]]. *)
Definition promoRegExp : Js.RegExp :=
  Js.Seq (Js.Lit (Js.of_ascii "PROMO-"))
         (Js.Times 4 (Js.Class Js.upperOrDigit)).

(** The clicks the pager of the product list allows. *)
Definition pagerOffers (p : ProductsListPage.Pager)
    (e : ProductsListPage.PagerEvent) : Prop :=
  match e with
  | ProductsListPage.PreviousPage =>
      ProductsListPage.previousDisabled p = false
  | ProductsListPage.NextPage => ProductsListPage.nextDisabled p = false
  | ProductsListPage.ToggleDeleted => True
  | ProductsListPage.Loaded _ => True
  end.

Inductive pagerReachable : ProductsListPage.Pager -> Prop :=
| pager_initial : pagerReachable ProductsListPage.initialPager
| pager_step p e :
    pagerReachable p -> pagerOffers p e ->
    pagerReachable (ProductsListPage.handle p e).

(** A user was reported by [getCurrentUser] in one of the completed
    calls. *)
Definition reported (u : User.t) (es : list AuthContext.Completed) : Prop :=
  In (AuthContext.CheckAuth (Js.Resolved u)) es
  \/ exists loginCall,
       In (AuthContext.Login loginCall (Js.Resolved u)) es.

(** An order that is neither canceled nor rejected. *)
Definition active (o : Order.t) : bool :=
  match Order.status o with
  | PENDING | CONFIRMED => true
  | CANCELED | REJECTED => false
  end.

(** The order detail page shows its cards (it is past the loading and
    error screens). *)
Definition shown (st : OrderDetailPage.State) : Prop :=
  OrderDetailPage.loading st = false
  /\ Js.falsy_opt (OrderDetailPage.error st) = true.

(** Some enabled button of a list triggers the action. *)
Definition triggers (buttons : list OrderDetailPage.Button)
    (a : OrderDetailPage.Action) : Prop :=
  exists b, In b buttons /\ OrderDetailPage.onClick b = a
            /\ OrderDetailPage.disabled b = false.

(** What holds in every state of the create-order page: the step is 1,
    2 or 3; from step 2 on a customer is selected; at step 3 the draft is
    not empty; the draft satisfies its invariant; the selected customer
    is one of the loaded ones. *)
Definition pageInvariant (clients : list Client.t)
    (st : CreateOrderPage.State.t) : Prop :=
  (1 <= CreateOrderPage.State.step st <= 3)%Z
  /\ ((2 <= CreateOrderPage.State.step st)%Z ->
      CreateOrderPage.hasClient st = true)
  /\ (CreateOrderPage.State.step st = 3%Z ->
      CreateOrderPage.State.orderItems st <> [])
  /\ draftOk (CreateOrderPage.State.orderItems st)
  /\ (forall c, CreateOrderPage.State.selectedClient st = Some c ->
                In c clients).

(** A draft line without its quantity. *)
Definition lineIdentity (item : CreateOrderPage.OrderItem.t)
    : Z * Js.str * Js.number * Z :=
  (CreateOrderPage.OrderItem.productId item,
   CreateOrderPage.OrderItem.productName item,
   CreateOrderPage.OrderItem.price item,
   CreateOrderPage.OrderItem.stock item).

(** The line [addItem] creates for a product. *)
Definition newLine (product : Product.t) : CreateOrderPage.OrderItem.t :=
  CreateOrderPage.OrderItem.mk (Product.id product) (Product.name product) 1
                               (Product.price product) (Product.stock product).


(* ------------------------------------------------------------------ *)
(** ** Sample data                                                      *)
(* ------------------------------------------------------------------ *)

Module Sample.

Definition admin : User.t := User.mk 1 (Js.of_ascii "admin") ADMIN.

Definition platinumClient : Client.t :=
  Client.mk 3 (Js.of_ascii "Amal") (Js.of_ascii "amal@example.org") PLATINUM.

Definition silverClient : Client.t :=
  Client.mk 4 (Js.of_ascii "Said") (Js.of_ascii "said@example.org") SILVER.

(** Amounts are written as decimal fractions, the way a JSON document
    spells them. *)
Definition line (productId : Z) (price : Q) (quantity stock : Z)
    : CreateOrderPage.OrderItem.t :=
  CreateOrderPage.OrderItem.mk productId (Js.of_ascii "item") quantity
                               (Js.num price) stock.

Definition promo : Js.str := Js.of_ascii "PROMO-AB12".

Definition order120 : Order.t :=
  Order.mk 7 (Js.of_ascii "Amal") (Js.num 100) (Js.num 0) (Js.num 20)
           (Js.num 120) PENDING.

Definition payment (id : Z) (amount : Q) (s : PaymentStatus) : Payment.t :=
  Payment.mk id id (Js.num amount) ESPECES s (Js.of_ascii "REF").

Definition page (ps : list Payment.t) : OrderDetailPage.State :=
  OrderDetailPage.mkState (Some admin) (Some order120) ps false None false.

Definition orderOf (total : Q) (status : OrderStatus) : Order.t :=
  Order.mk 7 (Js.of_ascii "Amal") (Js.num total) (Js.num 0) (Js.num 0)
           (Js.num total) status.

Definition pageOf (o : Order.t) (ps : list Payment.t)
    : OrderDetailPage.State :=
  OrderDetailPage.mkState (Some admin) (Some o) ps false None false.

Definition cash (amount : Q) (reference : string) : CreatePaymentRequest.t :=
  CreatePaymentRequest.mk 7 (Js.num amount) ESPECES (Js.of_ascii reference)
    (Some []) (Some []) (Some []).

Definition keyboard : Product.t :=
  Product.mk 11 (Js.of_ascii "keyboard") (Js.num 250) 3.

End Sample.

(* ------------------------------------------------------------------ *)
(** ** Facts on the JavaScript layer                                    *)
(* ------------------------------------------------------------------ *)

Lemma num_0 : Js.num 0 = S754_zero false.
Proof. reflexivity. Qed.

(** Comparing the other way round gives the opposite answer. *)
Lemma SFcompare_swap (x y : Js.number) :
  SFcompare y x = option_map CompOpp (SFcompare x y).
Proof.
  destruct x as [sx | sx | | sx mx ex], y as [sy | sy | | sy my ey];
    try destruct sx; try destruct sy; try reflexivity;
    simpl; rewrite (Z.compare_antisym ex ey);
    destruct (ex ?= ey)%Z; simpl; try reflexivity;
    rewrite (Pos.compare_cont_antisym _ _ Eq); simpl;
    destruct (Pos.compare_cont Eq mx my); reflexivity.
Qed.

Lemma js_gt_not_le (x y : Js.number) :
  Js.gt x y = true -> Js.le x y = false.
Proof.
  unfold Js.gt, Js.lt, Js.le, SFltb, SFleb. rewrite (SFcompare_swap x y).
  destruct (SFcompare x y) as [[| |] |]; simpl; congruence.
Qed.

Lemma js_le_not_gt (x y : Js.number) :
  Js.le x y = true -> Js.gt x y = false.
Proof.
  intro H. destruct (Js.gt x y) eqn:E; [| reflexivity].
  apply js_gt_not_le in E. congruence.
Qed.

(** Away from NaN the order is total: [x <= y] is the negation of
    [x > y]. *)
Lemma js_le_negb_gt (x y : Js.number) :
  Js.isNaN x = false -> Js.isNaN y = false ->
  Js.le x y = negb (Js.gt x y).
Proof.
  intros Hx Hy.
  unfold Js.gt, Js.lt, Js.le, SFltb, SFleb. rewrite (SFcompare_swap x y).
  destruct x, y; try discriminate; simpl;
    repeat match goal with
           | |- context [match ?b with _ => _ end] => destruct b; simpl
           end; reflexivity.
Qed.

Lemma js_gt_not_NaN (x y : Js.number) :
  Js.gt x y = true -> Js.isNaN x = false /\ Js.isNaN y = false.
Proof.
  unfold Js.gt, Js.lt, SFltb. destruct x, y; simpl; try discriminate; auto.
Qed.

Lemma js_le_not_NaN (x y : Js.number) :
  Js.le x y = true -> Js.isNaN x = false /\ Js.isNaN y = false.
Proof.
  unfold Js.le, SFleb. destruct x, y; simpl; try discriminate; auto.
Qed.

(** [!x || x <= 0] is the negation of [x > 0]. *)
Lemma falsy_or_le_zero (x : Js.number) :
  Js.falsy_number x || Js.le x (Js.num 0) = negb (Js.gt x (Js.num 0)).
Proof. destruct x as [[|] | [|] | | [|] m e]; reflexivity. Qed.




Lemma falsy_str_iff (s : Js.str) : Js.falsy_str s = true <-> s = [].
Proof. destruct s; simpl; split; congruence. Qed.

(** A left fold that adds is the running sum of the mapped list. *)
Lemma fold_left_sumFrom {A : Type} (f : A -> Js.number) (l : list A)
    (a : Js.number) :
  fold_left (fun sum x => Js.add sum (f x)) l a = sumFrom a (map f l).
Proof.
  revert a. induction l as [| x r IH]; intro a; simpl; [reflexivity |].
  apply IH.
Qed.

Lemma sumFrom_app (a : Js.number) (l1 l2 : list Js.number) :
  sumFrom a (l1 ++ l2) = sumFrom (sumFrom a l1) l2.
Proof.
  revert a. induction l1 as [| x r IH]; intro a; simpl; [reflexivity |].
  apply IH.
Qed.

(** [trim] of a string is empty exactly when the string consists of
    white space only. *)
Lemma trimStart_nil_iff (s : Js.str) :
  Js.trimStart s = [] <-> forallb Js.isWhiteSpace s = true.
Proof.
  induction s as [| c r IH]; simpl.
  - tauto.
  - destruct (Js.isWhiteSpace c); simpl; [exact IH |].
    split; discriminate.
Qed.

Lemma trimStart_whitespace_free (s : Js.str) :
  forallb Js.isWhiteSpace (Js.trimStart s) = true -> Js.trimStart s = [].
Proof.
  induction s as [| c r IH]; simpl; [reflexivity |].
  destruct (Js.isWhiteSpace c) eqn:E; [exact IH |].
  simpl. rewrite E. discriminate.
Qed.

Lemma forallb_rev {A : Type} (f : A -> bool) (l : list A) :
  forallb f (rev l) = forallb f l.
Proof.
  induction l as [| x r IH]; simpl; [reflexivity |].
  rewrite forallb_app, IH. simpl. rewrite andb_true_r. apply andb_comm.
Qed.

Lemma trim_nil_iff (s : Js.str) :
  Js.trim s = [] <-> forallb Js.isWhiteSpace s = true.
Proof.
  unfold Js.trim, Js.trimEnd. split.
  - intro H.
    assert (H' : Js.trimStart (rev (Js.trimStart s)) = []).
    { destruct (Js.trimStart (rev (Js.trimStart s))) as [| c r] eqn:E;
        [reflexivity |].
      simpl in H. apply app_eq_nil in H. destruct H; discriminate. }
    apply trimStart_nil_iff in H'. rewrite forallb_rev in H'.
    apply trimStart_whitespace_free in H'. apply trimStart_nil_iff, H'.
  - intro H. apply trimStart_nil_iff in H. rewrite H. reflexivity.
Qed.

(* ------------------------------------------------------------------ *)
(** ** Binary64 arithmetic: what the operations return                   *)
(* ------------------------------------------------------------------ *)

(** The operations of [SpecFloat] shift the exact result of an operation
    to the precision of the format and round it.  This part establishes,
    from their definitions, that addition, subtraction and multiplication
    of finite numbers return the exact result rounded to the format
    ([roundedTo]). *)

Section Binary64Mantissa.

Local Open Scope Z_scope.

(** Number of binary digits. *)
Lemma digits2_pos_size (p : positive) : digits2_pos p = Pos.size p.
Proof. induction p; simpl; congruence. Qed.

Lemma digits2_pos_bounds (p : positive) :
  2 ^ (Zpos (digits2_pos p) - 1) <= Zpos p < 2 ^ Zpos (digits2_pos p).
Proof.
  rewrite digits2_pos_size. split.
  - pose proof (Pos.size_le p) as H.
    apply Pos2Z.pos_le_pos in H. rewrite Pos2Z.inj_pow in H.
    replace (Zpos (Pos.size p)) with (Zpos (Pos.size p) - 1 + 1) in H by lia.
    rewrite Z.pow_add_r in H by lia. change (Zpos p~0) with (2 * Zpos p) in H.
    lia.
  - pose proof (Pos.size_gt p) as H.
    apply Pos2Z.pos_lt_pos in H. rewrite Pos2Z.inj_pow in H. exact H.
Qed.

Lemma pow2_lt_mono_inv (a b : Z) : 0 <= b -> 2 ^ a < 2 ^ b -> a < b.
Proof.
  intros Hb H. destruct (Z.lt_ge_cases a b) as [|Hge]; [assumption|].
  exfalso. assert (2 ^ b <= 2 ^ a) by (apply Z.pow_le_mono_r; lia). lia.
Qed.

(** The digit count is determined by the binade. *)
Lemma digits2_pos_unique (p : positive) (k : Z) :
  2 ^ (k - 1) <= Zpos p < 2 ^ k -> Zpos (digits2_pos p) = k.
Proof.
  intros [Hlo Hhi]. pose proof (digits2_pos_bounds p) as [Dlo Dhi].
  set (d := Zpos (digits2_pos p)) in *.
  assert (0 < k).
  { destruct k as [| k | k]; [simpl in Hhi; lia | lia |].
    rewrite Z.pow_neg_r in Hhi by lia. lia. }
  assert (d - 1 < k) by (apply pow2_lt_mono_inv; lia).
  assert (0 <= d) by (unfold d; lia).
  assert (k - 1 < d) by (apply pow2_lt_mono_inv; lia).
  lia.
Qed.

(** ** Shifting a mantissa to the right *)

Lemma shr_1_nonneg (m : Z) (r s : bool) :
  0 <= m ->
  shr_1 (Build_shr_record m r s)
  = Build_shr_record (m / 2) (Z.odd m) (r || s).
Proof.
  intro Hm. rewrite <- Z.div2_div.
  destruct m as [| p | p]; [reflexivity | | lia].
  destruct p; reflexivity.
Qed.


Lemma shifted_0 (m : Z) : shifted m 0 = Build_shr_record m false false.
Proof. unfold shifted. simpl. rewrite Z.div_1_r. reflexivity. Qed.

Lemma mod_pow2_split (m k : Z) :
  0 < k ->
  m mod 2 ^ k = m mod 2 ^ (k - 1) + 2 ^ (k - 1) * Z.b2z (Z.testbit m (k - 1)).
Proof.
  intro Hk. rewrite Z.testbit_spec' by lia.
  replace (2 ^ k) with (2 ^ (k - 1) * 2).
  - apply Z.rem_mul_r; [| lia].
    apply Z.pow_nonzero; lia.
  - rewrite Z.mul_comm, <- Z.pow_succ_r by lia. f_equal. lia.
Qed.

Lemma shr_1_shifted (m k : Z) :
  0 <= m -> 0 <= k -> shr_1 (shifted m k) = shifted m (k + 1).
Proof.
  intros Hm Hk. unfold shifted.
  assert (Hq : 0 <= m / 2 ^ k) by (apply Z.div_pos; [lia | apply Z.pow_pos_nonneg; lia]).
  rewrite shr_1_nonneg by exact Hq.
  replace (k + 1 =? 0) with false by (symmetry; apply Z.eqb_neq; lia).
  replace (k + 1 - 1) with k by lia.
  f_equal.
  - rewrite Z.div_div by (try apply Z.pow_nonzero; lia).
    rewrite (Z.mul_comm (2 ^ k) 2), <- Z.pow_succ_r by lia. reflexivity.
  - rewrite Z.testbit_odd, Z.shiftr_div_pow2 by lia. reflexivity.
  - destruct (Z.eqb_spec k 0) as [-> | Hk0].
    + simpl. rewrite Z.mod_1_r. reflexivity.
    + rewrite (mod_pow2_split m k) by lia.
      pose proof (Z.mod_pos_bound m (2 ^ (k - 1))
                    ltac:(apply Z.pow_pos_nonneg; lia)) as Hb.
      assert (0 < 2 ^ (k - 1)) by (apply Z.pow_pos_nonneg; lia).
      destruct (Z.testbit m (k - 1)); simpl.
      * symmetry. apply negb_true_iff, Z.eqb_neq. nia.
      * rewrite Z.mul_0_r, Z.add_0_r. reflexivity.
Qed.

Lemma iter_pos_shifted (p : positive) (m k : Z) :
  0 <= m -> 0 <= k ->
  iter_pos shr_1 p (shifted m k) = shifted m (k + Zpos p).
Proof.
  intro Hm. revert k.
  induction p as [p IH | p IH |]; intros k Hk; cbn [iter_pos].
  - rewrite shr_1_shifted, !IH by lia. f_equal. lia.
  - rewrite !IH by lia. f_equal. lia.
  - apply shr_1_shifted; assumption.
Qed.

(** What the round and sticky bits say: where the part shifted out lies
    with respect to one half of the last place kept. *)
Lemma loc_of_shifted (m k : Z) :
  0 <= m -> 0 < k ->
  loc_of_shr_record (shifted m k)
  = if m mod 2 ^ k =? 0 then loc_Exact
    else loc_Inexact (2 * (m mod 2 ^ k) ?= 2 ^ k).
Proof.
  intros Hm Hk. unfold shifted.
  replace (k =? 0) with false by (symmetry; apply Z.eqb_neq; lia).
  rewrite (mod_pow2_split m k) by lia.
  pose proof (Z.mod_pos_bound m (2 ^ (k - 1))
                ltac:(apply Z.pow_pos_nonneg; lia)) as Hb.
  assert (Hp : 2 ^ k = 2 * 2 ^ (k - 1)).
  { rewrite <- Z.pow_succ_r by lia. f_equal. lia. }
  rewrite Hp.
  set (c := m mod 2 ^ (k - 1)) in *. set (h := 2 ^ (k - 1)) in *.
  destruct (Z.testbit m (k - 1)); cbn [Z.b2z];
    destruct (Z.eqb_spec c 0) as [Hc | Hc];
    cbn [loc_of_shr_record negb].
  - replace (c + h * 1 =? 0) with false by (symmetry; apply Z.eqb_neq; lia).
    replace (2 * (c + h * 1) ?= 2 * h) with Eq
      by (symmetry; apply Z.compare_eq_iff; lia).
    reflexivity.
  - replace (c + h * 1 =? 0) with false by (symmetry; apply Z.eqb_neq; lia).
    replace (2 * (c + h * 1) ?= 2 * h) with Gt
      by (symmetry; apply Z.compare_gt_iff; lia).
    reflexivity.
  - replace (c + h * 0 =? 0) with true by (symmetry; apply Z.eqb_eq; lia).
    reflexivity.
  - replace (c + h * 0 =? 0) with false by (symmetry; apply Z.eqb_neq; lia).
    replace (2 * (c + h * 0) ?= 2 * h) with Lt
      by (symmetry; apply Z.compare_lt_iff; lia).
    reflexivity.
Qed.

(** ** Rounding the shifted mantissa *)


Lemma roundedMantissa_spec (m n : Z) :
  0 <= m -> 0 < n ->
  let r := roundedMantissa m n in
  m / 2 ^ n <= r <= m / 2 ^ n + 1
  /\ Z.abs (r * 2 ^ n - m) * 2 <= 2 ^ n
  /\ (m mod 2 ^ n = 0 -> r * 2 ^ n = m).
Proof.
  intros Hm Hn r. unfold r, roundedMantissa.
  assert (Hp : 0 < 2 ^ n) by (apply Z.pow_pos_nonneg; lia).
  pose proof (Z.div_mod m (2 ^ n) ltac:(lia)) as Hdm.
  pose proof (Z.mod_pos_bound m (2 ^ n) Hp) as Hb.
  set (q := m / 2 ^ n) in *. set (c := m mod 2 ^ n) in *.
  set (P := 2 ^ n) in *.
  destruct (Z.eqb_spec c 0) as [Hc | Hc]; cbn [round_nearest_even].
  - repeat split; try lia.
  - destruct (Z.compare_spec (2 * c) P) as [He | Hl | Hg];
      cbn [round_nearest_even].
    + destruct (Z.even q); repeat split; try lia.
    + repeat split; try lia.
    + repeat split; try lia.
Qed.

(** ** The exponent function of the format *)


Lemma fexp_eq (e : Z) : fexp Js.prec Js.emax e = Z.max (e - 53) emin.
Proof. reflexivity. Qed.


(** Second stage of [binary_round_aux]: a mantissa of at most 53 bits, or
    exactly 2^53 after a carry, is brought back to the format. *)
Lemma renormalize (s : bool) (m1 e' : Z) :
  0 <= m1 <= 2 ^ 53 -> emin <= e' -> (m1 < 2 ^ 52 -> e' = emin) ->
  (let '(mrs'', e'') := shr_fexp Js.prec Js.emax m1 e' loc_Exact in
   match shr_m mrs'' with
   | Z0 => S754_zero s
   | Zpos m =>
       if e'' <=? Js.emax - Js.prec then S754_finite s m e''
       else S754_infinity s
   | Zneg _ => S754_nan
   end)
  = if m1 =? 2 ^ 53 then encode s (2 ^ 52) (e' + 1) else encode s m1 e'.
Proof.
  intros Hm He Hsub. unfold shr_fexp.
  destruct (Z.eqb_spec m1 (2 ^ 53)) as [-> | Hne].
  - change (Zdigits2 (2 ^ 53)) with 54. rewrite fexp_eq.
    replace (Z.max (54 + e' - 53) emin - e') with 1 by lia.
    reflexivity.
  - destruct m1 as [| p | p]; [| | lia].
    + cbn [Zdigits2]. rewrite fexp_eq.
      destruct (Z.max (0 + e' - 53) emin - e') eqn:E; try lia; reflexivity.
    + cbn [Zdigits2]. rewrite fexp_eq.
      pose proof (digits2_pos_bounds p) as [Dlo Dhi].
      set (d := Zpos (digits2_pos p)) in *.
      assert (Hd : d <= 53).
      { assert (d - 1 < 53) by (apply pow2_lt_mono_inv; lia). lia. }
      assert (Hn : Z.max (d + e' - 53) emin - e' = 0).
      { destruct (Z.eq_dec d 53) as [-> | Hd']; [lia |].
        assert (Z.pos p < 2 ^ 52).
        { apply Z.lt_le_trans with (2 ^ d); [exact Dhi |].
          apply Z.pow_le_mono_r; lia. }
        rewrite (Hsub ltac:(assumption)). lia. }
      rewrite Hn. reflexivity.
Qed.

(** A mantissa and an exponent are those of a number of the format when
    the mantissa has at most 53 bits and either all 53 or the smallest
    exponent. *)
Lemma canonical_iff (p : positive) (e : Z) :
  canonical_mantissa Js.prec Js.emax p e = true
  <-> Zpos p < 2 ^ 53 /\ emin <= e /\ (Zpos p < 2 ^ 52 -> e = emin).
Proof.
  unfold canonical_mantissa. rewrite Z.eqb_eq, fexp_eq.
  pose proof (digits2_pos_bounds p) as [Dlo Dhi].
  set (d := Zpos (digits2_pos p)) in *.
  assert (Hd0 : 0 < d) by (unfold d; lia).
  split.
  - intro H.
    assert (Hd : d <= 53) by lia.
    split; [| split; [lia |]].
    + apply Z.lt_le_trans with (2 ^ d); [exact Dhi |].
      apply Z.pow_le_mono_r; lia.
    + intro Hlt. destruct (Z.eq_dec d 53) as [E | E]; [| lia].
      rewrite E in Dlo. simpl in Dlo. lia.
  - intros (Hlt & He & Hsub).
    assert (Hd : d <= 53).
    { assert (d - 1 < 53) by (apply pow2_lt_mono_inv; lia). lia. }
    destruct (Z.eq_dec d 53) as [E | E]; [lia |].
    assert (Z.pos p < 2 ^ 52).
    { apply Z.lt_le_trans with (2 ^ d); [exact Dhi |].
      apply Z.pow_le_mono_r; lia. }
    rewrite (Hsub ltac:(assumption)). lia.
Qed.

Lemma pow2_split (a b : Z) : 0 <= a -> 0 <= b -> 2 ^ (a + b) = 2 ^ a * 2 ^ b.
Proof. intros. apply Z.pow_add_r; assumption. Qed.

(** ** [binary_round_aux] on an exact positive mantissa *)

Theorem binary_round_aux_spec (s : bool) (m : positive) (e : Z) :
  let n := fexp Js.prec Js.emax (Zpos (digits2_pos m) + e) - e in
  0 <= n ->
  exists m1 e1,
    binary_round_aux Js.prec Js.emax s (Zpos m) e loc_Exact = encode s m1 e1
    /\ 0 <= m1 < 2 ^ 53
    /\ e + n <= e1 <= e + n + 1
    /\ emin <= e1
    /\ (m1 < 2 ^ 52 -> e1 = emin)
    /\ Z.abs (m1 * 2 ^ (e1 - e) - Zpos m) * 2 <= 2 ^ n
    /\ (Zpos m mod 2 ^ n = 0 -> m1 * 2 ^ (e1 - e) = Zpos m).
Proof.
  intros n Hn.
  pose proof (digits2_pos_bounds m) as [Dlo Dhi].
  assert (Hfe : n = Z.max (Zpos (digits2_pos m) + e - 53) emin - e)
    by reflexivity.
  set (d := Zpos (digits2_pos m)) in *.
  assert (Hd0 : 0 < d) by (unfold d; lia).
  unfold binary_round_aux.
  unfold shr_fexp at 1. cbn [Zdigits2 shr_record_of_loc]. fold d. fold n.
  destruct n as [| p | p] eqn:En; [| | lia]; cbn [shr].
  - (* no shift *)
    cbn [shr_m loc_of_shr_record round_nearest_even].
    assert (Hd : d <= 53) by lia.
    assert (Hlt : Zpos m < 2 ^ 53).
    { apply Z.lt_le_trans with (2 ^ d); [exact Dhi |].
      apply Z.pow_le_mono_r; lia. }
    assert (Hsub : Zpos m < 2 ^ 52 -> e = emin).
    { intro H. destruct (Z.eq_dec d 53) as [E | E]; [| lia].
      rewrite E in Dlo. simpl in Dlo. lia. }
    rewrite (renormalize s (Zpos m) e) by (try assumption; lia).
    replace (Zpos m =? 2 ^ 53) with false
      by (symmetry; apply Z.eqb_neq; lia).
    exists (Zpos m), e. rewrite Z.sub_diag, Z.mul_1_r.
    repeat split; try assumption; try lia.
  - (* shift by [Zpos p] *)
    rewrite <- shifted_0, (iter_pos_shifted p (Zpos m) 0) by lia.
    rewrite Z.add_0_l, loc_of_shifted by lia.
    cbn [shifted shr_m]. fold (roundedMantissa (Zpos m) (Zpos p)).
    destruct (roundedMantissa_spec (Zpos m) (Zpos p) ltac:(lia) ltac:(lia))
      as (Hq & Herr & Hex).
    set (r := roundedMantissa (Zpos m) (Zpos p)) in *.
    set (q := Zpos m / 2 ^ Zpos p) in *.
    assert (Hp2 : 0 < 2 ^ Zpos p) by (apply Z.pow_pos_nonneg; lia).
    assert (Hq0 : 0 <= q) by (apply Z.div_pos; lia).
    assert (Hnorm : Zpos p = d - 53 -> 2 ^ 52 <= q < 2 ^ 53).
    { intro E. split.
      - apply Z.div_le_lower_bound; [exact Hp2 |].
        rewrite E, Z.mul_comm, <- pow2_split by lia.
        replace (52 + (d - 53)) with (d - 1) by lia. exact Dlo.
      - apply Z.div_lt_upper_bound; [exact Hp2 |].
        rewrite E, <- pow2_split by lia.
        replace (d - 53 + 53) with d by lia. exact Dhi. }
    assert (Hsubn : d - 53 < Zpos p -> q < 2 ^ 52).
    { intro E. apply Z.div_lt_upper_bound; [exact Hp2 |].
      rewrite <- pow2_split by lia.
      apply Z.lt_le_trans with (2 ^ d); [exact Dhi |].
      apply Z.pow_le_mono_r; lia. }
    assert (Hr : 0 <= r <= 2 ^ 53).
    { destruct (Z.eq_dec (Zpos p) (d - 53)) as [E | E].
      - specialize (Hnorm E). lia.
      - specialize (Hsubn ltac:(lia)). simpl in *. lia. }
    assert (Hsub : r < 2 ^ 52 -> e + Zpos p = emin).
    { intro Hlt. destruct (Z.eq_dec (Zpos p) (d - 53)) as [E | E]; [| lia].
      specialize (Hnorm E). lia. }
    rewrite (renormalize s r (e + Zpos p)) by (try assumption; lia).
    destruct (Z.eqb_spec r (2 ^ 53)) as [Er | Er].
    + exists (2 ^ 52), (e + Zpos p + 1).
      replace (e + Zpos p + 1 - e) with (1 + Zpos p) by lia.
      rewrite pow2_split by lia.
      replace (2 ^ 52 * (2 ^ 1 * 2 ^ Zpos p)) with (r * 2 ^ Zpos p)
        by (rewrite Er; change (2 ^ 53) with (2 ^ 52 * 2 ^ 1); ring).
      change (2 ^ 52) with 4503599627370496.
      change (2 ^ 53) with 9007199254740992 in *.
      repeat split; try assumption; try lia.
    + exists r, (e + Zpos p).
      replace (e + Zpos p - e) with (Zpos p) by lia.
      repeat split; try assumption; try lia.
Qed.

End Binary64Mantissa.

Section Binary64Values.

Local Open Scope Q_scope.

Lemma two_neq_0 : ~ 2 == 0.
Proof. discriminate. Qed.

Lemma pow2_pos (e : Z) : 0 < 2 ^ e.
Proof. apply Qpower_0_lt. reflexivity. Qed.

Lemma pow2_add (a b : Z) : 2 ^ (a + b) == 2 ^ a * 2 ^ b.
Proof. apply Qpower_plus, two_neq_0. Qed.

Lemma pow2_inject (n : Z) : (0 <= n)%Z -> inject_Z (2 ^ n) == 2 ^ n.
Proof. intro H. rewrite Zpower_Qpower by exact H. reflexivity. Qed.

Lemma pow2_le (a b : Z) : (a <= b)%Z -> 2 ^ a <= 2 ^ b.
Proof. intro H. apply Qpower_le_compat_l; [exact H | discriminate]. Qed.

Lemma pow2_succ (a : Z) : 2 ^ (a + 1) == 2 * 2 ^ a.
Proof. rewrite pow2_add. change (2 ^ 1) with 2. ring. Qed.

Lemma inject_Z_sub (a b : Z) : inject_Z (a - b) == inject_Z a - inject_Z b.
Proof.
  unfold Z.sub. rewrite inject_Z_plus, inject_Z_opp. reflexivity.
Qed.

Lemma Qabs_inject_Z (z : Z) : Qabs (inject_Z z) = inject_Z (Z.abs z).
Proof. reflexivity. Qed.

Lemma valueOf_encode (s : bool) (m e : Z) :
  (0 <= m)%Z -> finite (encode s m e) ->
  valueOf (encode s m e) == scaled s m e.
Proof.
  intros Hm Hf. unfold encode, scaled in *.
  destruct m as [| p | p]; [| | lia].
  - simpl. destruct s; ring.
  - destruct (e <=? Js.emax - Js.prec)%Z; [reflexivity | contradiction].
Qed.

Lemma wellFormed_encode (s : bool) (m e : Z) :
  (0 <= m < 2 ^ 53)%Z -> (emin <= e)%Z -> ((m < 2 ^ 52)%Z -> e = emin) ->
  wellFormed (encode s m e).
Proof.
  intros Hm He Hsub. unfold encode, wellFormed.
  destruct m as [| p | p]; [reflexivity | | lia].
  destruct (e <=? Js.emax - Js.prec)%Z eqn:E; [| reflexivity].
  simpl. unfold bounded. rewrite E, andb_true_r.
  apply canonical_iff. tauto.
Qed.

Lemma scaled_abs (s : bool) (m e : Z) :
  (0 <= m)%Z -> Qabs (scaled s m e) == inject_Z m * 2 ^ e.
Proof.
  intro Hm. unfold scaled.
  assert (0 <= inject_Z m * 2 ^ e).
  { apply Qmult_le_0_compat; [| apply Qlt_le_weak, pow2_pos].
    change 0 with (inject_Z 0). rewrite <- Zle_Qle. exact Hm. }
  destruct s; [rewrite Qabs_opp |]; apply Qabs_pos; assumption.
Qed.

(** The error of [binary_round_aux], as rationals. *)
Theorem binary_round_aux_value (s : bool) (m : positive) (e : Z) :
  let E := fexp Js.prec Js.emax (Zpos (digits2_pos m) + e) in
  (e <= E)%Z ->
  exists m1 e1,
    binary_round_aux Js.prec Js.emax s (Zpos m) e loc_Exact = encode s m1 e1
    /\ (0 <= m1 < 2 ^ 53)%Z
    /\ (E <= e1 <= E + 1)%Z
    /\ (emin <= e1)%Z
    /\ ((m1 < 2 ^ 52)%Z -> e1 = emin)
    /\ Qabs (inject_Z m1 * 2 ^ e1 - inject_Z (Zpos m) * 2 ^ e) * 2 <= 2 ^ E
    /\ ((Zpos m mod 2 ^ (E - e) = 0)%Z ->
        inject_Z m1 * 2 ^ e1 == inject_Z (Zpos m) * 2 ^ e).
Proof.
  intros E HE.
  destruct (binary_round_aux_spec s m e ltac:(fold E; lia))
    as (m1 & e1 & Hr & Hm1 & He1 & Hmin & Hsub & Herr & Hex).
  fold E in He1, Herr, Hex.
  exists m1, e1.
  assert (Hsplit : inject_Z m1 * 2 ^ e1
                   == inject_Z (m1 * 2 ^ (e1 - e)) * 2 ^ e).
  { rewrite inject_Z_mult, pow2_inject by lia.
    rewrite <- Qmult_assoc, <- pow2_add.
    replace (e1 - e + e)%Z with e1 by lia. reflexivity. }
  assert (HE2 : 2 ^ E == inject_Z (2 ^ (E - e)) * 2 ^ e).
  { rewrite pow2_inject by lia. rewrite <- pow2_add.
    replace (E - e + e)%Z with E by lia. reflexivity. }
  replace (e + (E - e) - e)%Z with (E - e)%Z in Herr, Hex by lia.
  repeat split; try assumption; try lia.
  - rewrite Hsplit.
    setoid_replace (inject_Z (m1 * 2 ^ (e1 - e)) * 2 ^ e
                    - inject_Z (Zpos m) * 2 ^ e)
      with (inject_Z (m1 * 2 ^ (e1 - e) - Zpos m) * 2 ^ e)
      by (rewrite inject_Z_sub; ring).
    rewrite Qabs_Qmult, (Qabs_pos (2 ^ e)) by apply Qlt_le_weak, pow2_pos.
    rewrite Qabs_inject_Z, HE2.
    setoid_replace (inject_Z (Z.abs (m1 * 2 ^ (e1 - e) - Zpos m)) * 2 ^ e * 2)
      with (inject_Z (Z.abs (m1 * 2 ^ (e1 - e) - Zpos m) * 2) * 2 ^ e)
      by (rewrite inject_Z_mult; ring).
    apply Qmult_le_compat_r; [| apply Qlt_le_weak, pow2_pos].
    rewrite <- Zle_Qle. exact Herr.
  - intro H. rewrite Hsplit, (Hex H). reflexivity.
Qed.


(** ** Alignment of a mantissa on a smaller exponent *)

Lemma iter_xO_value (m d : positive) :
  Zpos (Pos.iter xO m d) = (Zpos m * 2 ^ Zpos d)%Z.
Proof.
  rewrite (Pos.iter_swap_gen _ _ Zpos xO (Z.mul 2)) by reflexivity.
  change (Pos.iter (Z.mul 2) (Zpos m) d) with (Z.shiftl (Zpos m) (Zpos d)).
  apply Z.shiftl_mul_pow2. lia.
Qed.

Lemma digits_shift (m : positive) (k : Z) (p : positive) :
  (0 <= k)%Z -> Zpos p = (Zpos m * 2 ^ k)%Z ->
  Zpos (digits2_pos p) = (Zpos (digits2_pos m) + k)%Z.
Proof.
  intros Hk Hp. apply digits2_pos_unique. rewrite Hp.
  pose proof (digits2_pos_bounds m) as [Dlo Dhi].
  set (d := Zpos (digits2_pos m)) in *.
  assert (0 < d)%Z by (unfold d; lia).
  assert (0 < 2 ^ k)%Z by (apply Z.pow_pos_nonneg; lia).
  replace (d + k - 1)%Z with (d - 1 + k)%Z by lia.
  rewrite !pow2_split by lia. split; nia.
Qed.

Lemma shl_align_spec (m : positive) (e e' : Z) :
  let mz := fst (shl_align m e e') in
  let ez := snd (shl_align m e e') in
  ez = Z.min e e'
  /\ Zpos mz = (Zpos m * 2 ^ (e - ez))%Z
  /\ (Zpos (digits2_pos mz) + ez = Zpos (digits2_pos m) + e)%Z.
Proof.
  unfold shl_align. destruct (e' - e)%Z as [| d | d] eqn:E; cbn [fst snd].
  - replace (Z.min e e') with e by lia. rewrite Z.sub_diag, Z.mul_1_r. auto.
  - replace (Z.min e e') with e by lia. rewrite Z.sub_diag, Z.mul_1_r. auto.
  - replace (Z.min e e') with e' by lia.
    assert (Hv : Zpos (Pos.iter xO m d) = (Zpos m * 2 ^ (e - e'))%Z).
    { rewrite iter_xO_value. f_equal. f_equal. lia. }
    split; [reflexivity |]. split; [exact Hv |].
    rewrite (digits_shift m (e - e') _ ltac:(lia) Hv). lia.
Qed.


(** ** [binary_round]: rounding an exact value to the format *)

Theorem binary_round_value (s : bool) (m : positive) (e : Z) :
  let E := fexp Js.prec Js.emax (Zpos (digits2_pos m) + e) in
  exists m1 e1,
    binary_round Js.prec Js.emax s m e = encode s m1 e1
    /\ (0 <= m1 < 2 ^ 53)%Z
    /\ (E <= e1 <= E + 1)%Z
    /\ (emin <= e1)%Z
    /\ ((m1 < 2 ^ 52)%Z -> e1 = emin)
    /\ Qabs (inject_Z m1 * 2 ^ e1 - inject_Z (Zpos m) * 2 ^ e) * 2 <= 2 ^ E
    /\ ((E <= e)%Z \/ (Zpos m mod 2 ^ (E - e) = 0)%Z ->
        inject_Z m1 * 2 ^ e1 == inject_Z (Zpos m) * 2 ^ e).
Proof.
  intro E. unfold binary_round. fold E.
  destruct (shl_align_spec m e E) as (Hez & Hmz & Hdz).
  destruct (shl_align m e E) as [mz ez]. cbn [fst snd] in *.
  assert (HE : fexp Js.prec Js.emax (Zpos (digits2_pos mz) + ez) = E).
  { rewrite Hdz. reflexivity. }
  destruct (binary_round_aux_value s mz ez ltac:(rewrite HE; lia))
    as (m1 & e1 & Hr & Hm1 & He1 & Hmin & Hsub & Herr & Hex).
  rewrite HE in He1, Herr, Hex.
  assert (Hval : inject_Z (Zpos mz) * 2 ^ ez == inject_Z (Zpos m) * 2 ^ e).
  { rewrite Hmz, inject_Z_mult, pow2_inject by lia.
    rewrite <- Qmult_assoc, <- pow2_add.
    replace (e - ez + ez)%Z with e by lia. reflexivity. }
  rewrite Hval in Herr, Hex.
  exists m1, e1. repeat split; try assumption; try lia.
  intros [H | H]; apply Hex.
  - replace ez with E by lia. rewrite Z.sub_diag. apply Z.mod_1_r.
  - destruct (Z.le_gt_cases E e) as [Hle | Hgt].
    + replace ez with E by lia. rewrite Z.sub_diag. apply Z.mod_1_r.
    + replace ez with e in * by lia.
      rewrite Z.sub_diag, Z.mul_1_r in Hmz. rewrite Hmz. exact H.
Qed.

(** ** Magnitude and uniqueness of the representation *)

Lemma value_bounds (p : positive) (e : Z) :
  2 ^ (Zpos (digits2_pos p) - 1 + e) <= inject_Z (Zpos p) * 2 ^ e
  /\ inject_Z (Zpos p) * 2 ^ e < 2 ^ (Zpos (digits2_pos p) + e).
Proof.
  pose proof (digits2_pos_bounds p) as [Dlo Dhi].
  set (d := Zpos (digits2_pos p)) in *.
  assert (0 < d)%Z by (unfold d; lia).
  rewrite !pow2_add. split.
  - apply Qmult_le_compat_r; [| apply Qlt_le_weak, pow2_pos].
    rewrite <- (pow2_inject (d - 1)) by lia.
    rewrite <- Zle_Qle. exact Dlo.
  - apply Qmult_lt_compat_r; [apply pow2_pos |].
    rewrite <- (pow2_inject d) by lia.
    rewrite <- Zlt_Qlt. exact Dhi.
Qed.

Lemma pow2_lt_inv (a b : Z) : 2 ^ a < 2 ^ b -> (a < b)%Z.
Proof. intro H. apply (Qpower_lt_compat_l_inv 2); [exact H | reflexivity]. Qed.

Lemma magnitude_unique (p1 p2 : positive) (e1 e2 : Z) :
  inject_Z (Zpos p1) * 2 ^ e1 == inject_Z (Zpos p2) * 2 ^ e2 ->
  (Zpos (digits2_pos p1) + e1 = Zpos (digits2_pos p2) + e2)%Z.
Proof.
  intro H.
  destruct (value_bounds p1 e1) as [L1 U1].
  destruct (value_bounds p2 e2) as [L2 U2].
  rewrite H in L1, U1.
  assert (Zpos (digits2_pos p1) - 1 + e1 < Zpos (digits2_pos p2) + e2)%Z
    by (apply pow2_lt_inv; eapply Qle_lt_trans; eassumption).
  assert (Zpos (digits2_pos p2) - 1 + e2 < Zpos (digits2_pos p1) + e1)%Z
    by (apply pow2_lt_inv; eapply Qle_lt_trans; eassumption).
  lia.
Qed.

Lemma canonical_unique (p1 p2 : positive) (e1 e2 : Z) :
  canonical_mantissa Js.prec Js.emax p1 e1 = true ->
  canonical_mantissa Js.prec Js.emax p2 e2 = true ->
  inject_Z (Zpos p1) * 2 ^ e1 == inject_Z (Zpos p2) * 2 ^ e2 ->
  p1 = p2 /\ e1 = e2.
Proof.
  intros C1 C2 H. pose proof (magnitude_unique _ _ _ _ H) as Hm.
  unfold canonical_mantissa in C1, C2. apply Z.eqb_eq in C1, C2.
  assert (He : e1 = e2) by (rewrite <- C1, <- C2, Hm; reflexivity).
  split; [| exact He]. subst e2.
  assert (Hz : ~ 2 ^ e1 == 0) by apply Qnot_eq_sym, Qlt_not_eq, pow2_pos.
  apply (proj1 (Qmult_inj_r _ _ _ Hz)) in H.
  apply (proj1 (inject_Z_injective _ _)) in H. congruence.
Qed.



(** ** What an operation returns for an exact result [v] *)


Lemma scaled_pos (m : positive) (e : Z) : 0 < inject_Z (Zpos m) * 2 ^ e.
Proof.
  apply Qmult_lt_0_compat; [| apply pow2_pos]. reflexivity.
Qed.

Lemma scaled_nonneg (m e : Z) : (0 <= m)%Z -> 0 <= inject_Z m * 2 ^ e.
Proof.
  intro H. apply Qmult_le_0_compat; [| apply Qlt_le_weak, pow2_pos].
  change 0 with (inject_Z 0). rewrite <- Zle_Qle. exact H.
Qed.

Lemma valueOf_encode_sign (s : bool) (m e : Z) :
  (0 <= m)%Z ->
  if s then valueOf (encode s m e) <= 0 else 0 <= valueOf (encode s m e).
Proof.
  intro Hm. unfold encode. destruct m as [| p | p]; [| | lia].
  - destruct s; simpl; apply Qle_refl.
  - destruct (e <=? Js.emax - Js.prec)%Z; [| destruct s; simpl; apply Qle_refl].
    pose proof (scaled_pos p e). destruct s; simpl; lra.
Qed.

Lemma encode_roundedTo (s : bool) (m : positive) (e m1 e1 : Z) :
  let E := fexp Js.prec Js.emax (Zpos (digits2_pos m) + e) in
  (0 <= m1 < 2 ^ 53)%Z ->
  (E <= e1 <= E + 1)%Z ->
  (emin <= e1)%Z ->
  ((m1 < 2 ^ 52)%Z -> e1 = emin) ->
  Qabs (inject_Z m1 * 2 ^ e1 - inject_Z (Zpos m) * 2 ^ e) * 2 <= 2 ^ E ->
  ((E <= e)%Z \/ (Zpos m mod 2 ^ (E - e) = 0)%Z ->
   inject_Z m1 * 2 ^ e1 == inject_Z (Zpos m) * 2 ^ e) ->
  roundedTo (scaled s (Zpos m) e) (encode s m1 e1).
Proof.
  intros E Hm1 He1 Hmin Hsub Herr Hex.
  pose proof (scaled_pos m e) as Hpos.
  pose proof (valueOf_encode_sign s m1 e1 ltac:(lia)) as Hsign.
  assert (HE : E = Z.max (Zpos (digits2_pos m) + e - 53) emin)
    by reflexivity.
  split; [apply wellFormed_encode; assumption |].
  split; [| split; [| split]].
  - intro H. destruct s; [| exact Hsign]. unfold scaled in H. lra.
  - intro H. destruct s; [exact Hsign |]. unfold scaled in H. lra.
  - intros k Hk Hk1.
    rewrite scaled_abs in Hk by lia.
    destruct (value_bounds m e) as [Lo _].
    assert (Hd : (Zpos (digits2_pos m) - 1 + e < k)%Z)
      by (apply pow2_lt_inv; eapply Qle_lt_trans; eassumption).
    assert (HEk : (E <= Z.max (k - 53) emin)%Z) by lia.
    assert (Hfin : finite (encode s m1 e1)).
    { unfold encode. destruct m1 as [| p | p]; [exact I | | lia].
      replace (e1 <=? Js.emax - Js.prec)%Z with true; [exact I |].
      symmetry. apply Z.leb_le. unfold Js.emax, Js.prec, emin in *. lia. }
    split; [exact Hfin |].
    rewrite valueOf_encode by (lia || exact Hfin).
    assert (Hd2 : Qabs (scaled s m1 e1 - scaled s (Zpos m) e)
                  == Qabs (inject_Z m1 * 2 ^ e1 - inject_Z (Zpos m) * 2 ^ e)).
    { unfold scaled. destruct s; [| reflexivity].
      setoid_replace (- (inject_Z m1 * 2 ^ e1) - - (inject_Z (Zpos m) * 2 ^ e))
        with (- (inject_Z m1 * 2 ^ e1 - inject_Z (Zpos m) * 2 ^ e)) by ring.
      apply Qabs_opp. }
    rewrite Hd2.
    assert (Hh : 2 ^ E == 2 * 2 ^ (E - 1)).
    { rewrite <- pow2_succ. replace (E - 1 + 1)%Z with E by lia. reflexivity. }
    rewrite Hh in Herr.
    apply Qle_trans with (2 ^ (E - 1)); [lra |].
    apply pow2_le. lia.
  - intros x Hwf Hfx Hv Hnz.
    destruct x as [sx | sx | | sx mx ex]; try contradiction.
    { exfalso. apply Hnz. rewrite <- Hv. reflexivity. }
    assert (Hs : sx = s /\ inject_Z (Zpos mx) * 2 ^ ex
                          == inject_Z (Zpos m) * 2 ^ e).
    { pose proof (scaled_pos mx ex) as Hx. unfold scaled in Hv. simpl in Hv.
      destruct sx, s; split; try reflexivity; try lra. }
    destruct Hs as [-> Hval].
    unfold wellFormed in Hwf. simpl in Hwf. unfold bounded in Hwf.
    apply andb_true_iff in Hwf. destruct Hwf as [Hc Hb].
    pose proof (magnitude_unique _ _ _ _ Hval) as Hmag.
    assert (HEx : E = ex).
    { unfold canonical_mantissa in Hc. apply Z.eqb_eq in Hc.
      unfold E. rewrite <- Hmag. exact Hc. }
    assert (Hexact : inject_Z m1 * 2 ^ e1 == inject_Z (Zpos m) * 2 ^ e).
    { apply Hex. destruct (Z.le_gt_cases E e) as [Hle | Hgt]; [left; lia |].
      right. rewrite HEx.
      assert (Hz : Zpos m = (Zpos mx * 2 ^ (ex - e))%Z).
      { apply inject_Z_injective.
        assert (Hz' : ~ 2 ^ e == 0)
          by apply Qnot_eq_sym, Qlt_not_eq, pow2_pos.
        apply (proj1 (Qmult_inj_r _ _ _ Hz')).
        rewrite <- Hval, inject_Z_mult, pow2_inject by lia.
        rewrite <- Qmult_assoc, <- pow2_add.
        replace (ex - e + e)%Z with ex by lia. reflexivity. }
      rewrite Hz. apply Z.mod_mul. apply Z.pow_nonzero; lia. }
    rewrite <- Hval in Hexact.
    destruct m1 as [| p1 | p1]; [| | lia].
    { exfalso. pose proof (scaled_pos mx ex).
      setoid_replace (inject_Z 0 * 2 ^ e1) with 0 in Hexact by ring. lra. }
    assert (Hc1 : canonical_mantissa Js.prec Js.emax p1 e1 = true)
      by (apply canonical_iff; tauto).
    destruct (canonical_unique _ _ _ _ Hc1 Hc Hexact) as [-> ->].
    unfold encode. rewrite Hb. reflexivity.
Qed.



Lemma roundedTo_compat (v v' : Q) (r : spec_float) :
  v == v' -> roundedTo v r -> roundedTo v' r.
Proof.
  intros E (Hwf & Hp & Hn & Hk & Hx).
  split; [exact Hwf |].
  split; [intro H; apply Hp; rewrite E; exact H |].
  split; [intro H; apply Hn; rewrite E; exact H |].
  split.
  - intros k H1 H2. rewrite <- E in H1. destruct (Hk k H1 H2) as [Hf He].
    split; [exact Hf |]. rewrite <- E. exact He.
  - intros x H1 H2 H3 H4. apply Hx; try assumption.
    + rewrite E. exact H3.
    + rewrite E. exact H4.
Qed.

Lemma Qabs_0_le_pow2 (v : Q) (k : Z) : v == 0 -> Qabs (0 - v) <= 2 ^ k.
Proof.
  intro E. rewrite E. setoid_replace (0 - 0) with 0 by ring.
  simpl. apply Qlt_le_weak, pow2_pos.
Qed.

Lemma roundedTo_zero (v : Q) (s : bool) :
  v == 0 -> roundedTo v (S754_zero s).
Proof.
  intro E. split; [reflexivity |].
  split; [intros _; apply Qle_refl |].
  split; [intros _; apply Qle_refl |].
  split.
  - intros k _ _. split; [exact I |]. simpl valueOf.
    apply Qabs_0_le_pow2. exact E.
  - intros x _ _ _ H. contradiction.
Qed.

Lemma valueOf_finite (s : bool) (m : positive) (e : Z) :
  valueOf (S754_finite s m e) = scaled s (Zpos m) e.
Proof. reflexivity. Qed.

(** A number of the format is kept as it is. *)
Lemma roundedTo_self (x : spec_float) :
  wellFormed x -> finite x -> roundedTo (valueOf x) x.
Proof.
  intros Hwf Hf. destruct x as [s | s | | s m e]; try contradiction.
  { apply roundedTo_zero. reflexivity. }
  split; [exact Hwf |].
  split; [tauto |]. split; [tauto |].
  split.
  - intros k _ _. split; [exact I |].
    setoid_replace (valueOf (S754_finite s m e) - valueOf (S754_finite s m e))
      with 0 by ring.
    simpl. apply Qlt_le_weak, pow2_pos.
  - intros x Hwx Hfx Hv Hnz.
    destruct x as [sx | sx | | sx mx ex]; try contradiction.
    { exfalso. apply Hnz. rewrite <- Hv. reflexivity. }
    rewrite !valueOf_finite in Hv.
    pose proof (scaled_pos mx ex) as Hx. pose proof (scaled_pos m e) as Hm.
    assert (Hs : sx = s /\ inject_Z (Zpos m) * 2 ^ e
                          == inject_Z (Zpos mx) * 2 ^ ex).
    { unfold scaled in Hv. destruct sx, s; split; try reflexivity; lra. }
    destruct Hs as [-> Hval].
    unfold wellFormed in Hwf, Hwx. simpl in Hwf, Hwx. unfold bounded in *.
    apply andb_true_iff in Hwf, Hwx.
    destruct (canonical_unique _ _ _ _ (proj1 Hwf) (proj1 Hwx) Hval)
      as [-> ->].
    reflexivity.
Qed.

Lemma wellFormed_bounds (s : bool) (m : positive) (e : Z) :
  wellFormed (S754_finite s m e) ->
  (Zpos m < 2 ^ 53)%Z /\ (emin <= e)%Z /\ ((Zpos m < 2 ^ 52)%Z -> e = emin).
Proof.
  unfold wellFormed. simpl. unfold bounded. intro H.
  apply andb_true_iff in H. apply canonical_iff. tauto.
Qed.

(** ** Multiplication *)

Theorem mul_roundedTo (x y : spec_float) :
  wellFormed x -> wellFormed y -> finite x -> finite y ->
  roundedTo (valueOf x * valueOf y) (SFmul Js.prec Js.emax x y).
Proof.
  intros Hx Hy Fx Fy.
  destruct x as [sx | sx | | sx mx ex], y as [sy | sy | | sy my ey];
    try contradiction;
    try (apply roundedTo_zero; simpl; ring).
  cbn [SFmul].
  destruct (wellFormed_bounds _ _ _ Hx) as (Bx & Ex & Sx).
  destruct (wellFormed_bounds _ _ _ Hy) as (By & Ey & Sy).
  set (E := fexp Js.prec Js.emax (Zpos (digits2_pos (mx * my)) + (ex + ey))).
  assert (HE : (ex + ey <= E)%Z).
  { assert (HE' : E = Z.max (Zpos (digits2_pos (mx * my)) + (ex + ey) - 53)
                            emin) by reflexivity.
    destruct (Z.lt_ge_cases (Zpos mx) (2 ^ 52)) as [Lx | Gx].
    - rewrite (Sx Lx) in *.
      destruct (Z.lt_ge_cases (Zpos my) (2 ^ 52)) as [Ly | Gy].
      + rewrite (Sy Ly) in *. unfold emin in *. lia.
      + assert (52 < Zpos (digits2_pos (mx * my)))%Z; [| lia].
        apply pow2_lt_mono_inv; [lia |].
        pose proof (digits2_pos_bounds (mx * my)) as [_ Dhi].
        rewrite Pos2Z.inj_mul in Dhi at 1. nia.
    - assert (52 < Zpos (digits2_pos (mx * my)))%Z; [| lia].
      apply pow2_lt_mono_inv; [lia |].
      pose proof (digits2_pos_bounds (mx * my)) as [_ Dhi].
      rewrite Pos2Z.inj_mul in Dhi at 1. nia. }
  destruct (binary_round_aux_value (xorb sx sy) (mx * my) (ex + ey) HE)
    as (m1 & e1 & Hr & Hm1 & He1 & Hmin & Hsub & Herr & Hex).
  rewrite Hr.
  apply (roundedTo_compat (scaled (xorb sx sy) (Zpos (mx * my)) (ex + ey))).
  - rewrite !valueOf_finite. unfold scaled.
    rewrite Pos2Z.inj_mul.
    destruct sx, sy; cbn [xorb]; rewrite inject_Z_mult, pow2_add; ring.
  - apply encode_roundedTo; try assumption.
    intros [H | H]; apply Hex; [| exact H].
    fold E in H |- *. assert (HEq : E = (ex + ey)%Z) by lia.
    rewrite HEq, Z.sub_diag. apply Z.mod_1_r.
Qed.

(** ** Addition and subtraction *)

Lemma binary_normalize_roundedTo (M ez : Z) :
  roundedTo (inject_Z M * 2 ^ ez) (binary_normalize Js.prec Js.emax M ez false).
Proof.
  destruct M as [| p | p]; cbn [binary_normalize].
  - apply roundedTo_zero. ring.
  - destruct (binary_round_value false p ez)
      as (m1 & e1 & Hr & Hm1 & He1 & Hmin & Hsub & Herr & Hex).
    rewrite Hr.
    apply (roundedTo_compat (scaled false (Zpos p) ez)); [reflexivity |].
    apply encode_roundedTo; assumption.
  - destruct (binary_round_value true p ez)
      as (m1 & e1 & Hr & Hm1 & He1 & Hmin & Hsub & Herr & Hex).
    rewrite Hr.
    apply (roundedTo_compat (scaled true (Zpos p) ez)).
    + unfold scaled. change (Zneg p) with (- Zpos p)%Z.
      rewrite inject_Z_opp. ring.
    + apply encode_roundedTo; assumption.
Qed.

Lemma aligned_value (s : bool) (m : positive) (e ez : Z) :
  (ez <= e)%Z ->
  inject_Z (cond_Zopp s (Zpos (fst (shl_align m e ez)))) * 2 ^ ez
  == scaled s (Zpos m) e.
Proof.
  intro H. destruct (shl_align_spec m e ez) as (_ & Hv & _).
  destruct (shl_align_spec m e ez) as (Hs & _ & _).
  rewrite Hs in Hv. replace (Z.min e ez) with ez in Hv by lia.
  rewrite Hv. unfold scaled, cond_Zopp.
  destruct s; rewrite ?inject_Z_opp, inject_Z_mult, pow2_inject by lia.
  - setoid_replace (- (inject_Z (Zpos m) * 2 ^ (e - ez)) * 2 ^ ez)
      with (- (inject_Z (Zpos m) * (2 ^ (e - ez) * 2 ^ ez))) by ring.
    rewrite <- pow2_add. replace (e - ez + ez)%Z with e by lia. reflexivity.
  - rewrite <- Qmult_assoc, <- pow2_add.
    replace (e - ez + ez)%Z with e by lia. reflexivity.
Qed.

Theorem add_roundedTo (x y : spec_float) :
  wellFormed x -> wellFormed y -> finite x -> finite y ->
  roundedTo (valueOf x + valueOf y) (SFadd Js.prec Js.emax x y).
Proof.
  intros Hx Hy Fx Fy.
  destruct x as [sx | sx | | sx mx ex], y as [sy | sy | | sy my ey];
    try contradiction.
  - destruct sx, sy; apply roundedTo_zero; simpl; ring.
  - cbn [SFadd].
    apply (roundedTo_compat (valueOf (S754_finite sy my ey)));
      [simpl; ring | apply roundedTo_self; assumption].
  - cbn [SFadd].
    apply (roundedTo_compat (valueOf (S754_finite sx mx ex)));
      [simpl; ring | apply roundedTo_self; assumption].
  - cbn [SFadd].
    eapply roundedTo_compat; [| apply binary_normalize_roundedTo].
    rewrite inject_Z_plus, Qmult_plus_distr_l.
    rewrite !aligned_value by lia. reflexivity.
Qed.

Theorem sub_roundedTo (x y : spec_float) :
  wellFormed x -> wellFormed y -> finite x -> finite y ->
  roundedTo (valueOf x - valueOf y) (SFsub Js.prec Js.emax x y).
Proof.
  intros Hx Hy Fx Fy.
  destruct x as [sx | sx | | sx mx ex], y as [sy | sy | | sy my ey];
    try contradiction.
  - destruct sx, sy; apply roundedTo_zero; simpl; ring.
  - cbn [SFsub].
    apply (roundedTo_compat (valueOf (S754_finite (negb sy) my ey))).
    + rewrite !valueOf_finite. unfold scaled. destruct sy; simpl; ring.
    + apply roundedTo_self; [exact Hy | exact I].
  - cbn [SFsub].
    apply (roundedTo_compat (valueOf (S754_finite sx mx ex)));
      [simpl; ring | apply roundedTo_self; assumption].
  - cbn [SFsub].
    eapply roundedTo_compat; [| apply binary_normalize_roundedTo].
    rewrite inject_Z_sub. unfold Qminus.
    rewrite Qmult_plus_distr_l.
    setoid_replace
      (- inject_Z (cond_Zopp sy
                     (Zpos (fst (shl_align my ey (Z.min ex ey)))))
       * 2 ^ Z.min ex ey)
      with (- (inject_Z (cond_Zopp sy
                          (Zpos (fst (shl_align my ey (Z.min ex ey)))))
               * 2 ^ Z.min ex ey)) by ring.
    rewrite !aligned_value by lia. reflexivity.
Qed.

End Binary64Values.

Section Binary64Operations.

Local Open Scope Q_scope.

(** The operations of the engine on finite numbers. *)
Theorem js_add_roundedTo (x y : Js.number) :
  wellFormed x -> wellFormed y -> finite x -> finite y ->
  roundedTo (valueOf x + valueOf y) (Js.add x y).
Proof. apply add_roundedTo. Qed.

Theorem js_sub_roundedTo (x y : Js.number) :
  wellFormed x -> wellFormed y -> finite x -> finite y ->
  roundedTo (valueOf x - valueOf y) (Js.sub x y).
Proof. apply sub_roundedTo. Qed.

Theorem js_mul_roundedTo (x y : Js.number) :
  wellFormed x -> wellFormed y -> finite x -> finite y ->
  roundedTo (valueOf x * valueOf y) (Js.mul x y).
Proof. apply mul_roundedTo. Qed.

Lemma ofZ_roundedTo (z : Z) : roundedTo (inject_Z z) (Js.ofZ z).
Proof.
  apply (roundedTo_compat (inject_Z z * 2 ^ 0)); [simpl; ring |].
  apply binary_normalize_roundedTo.
Qed.

(** The results of the operations are numbers of the format, whatever
    the operands. *)
Lemma wellFormed_ofZ (z : Z) : wellFormed (Js.ofZ z).
Proof. apply ofZ_roundedTo. Qed.

Lemma wellFormed_add (x y : Js.number) :
  wellFormed x -> wellFormed y -> wellFormed (Js.add x y).
Proof.
  intros Hx Hy.
  destruct x as [sx | sx | | sx mx ex] eqn:Ex,
           y as [sy | sy | | sy my ey] eqn:Ey;
    try (apply js_add_roundedTo; (assumption || exact I));
    try reflexivity; try assumption;
    try (destruct sx, sy; reflexivity).
Qed.

Lemma wellFormed_sub (x y : Js.number) :
  wellFormed x -> wellFormed y -> wellFormed (Js.sub x y).
Proof.
  intros Hx Hy.
  destruct x as [sx | sx | | sx mx ex] eqn:Ex,
           y as [sy | sy | | sy my ey] eqn:Ey;
    try (apply js_sub_roundedTo; (assumption || exact I));
    try reflexivity; try assumption;
    try (destruct sx, sy; reflexivity).
Qed.

Lemma wellFormed_mul (x y : Js.number) :
  wellFormed x -> wellFormed y -> wellFormed (Js.mul x y).
Proof.
  intros Hx Hy.
  destruct x as [sx | sx | | sx mx ex] eqn:Ex,
           y as [sy | sy | | sy my ey] eqn:Ey;
    try (apply js_mul_roundedTo; (assumption || exact I));
    try reflexivity; try assumption;
    try (destruct sx, sy; reflexivity).
Qed.

(** Multiplying by one changes nothing. *)
Lemma js_mul_one (x : Js.number) :
  wellFormed x -> Js.mul x (Js.ofZ 1) = x.
Proof.
  intro Hx. destruct x as [[|] | [|] | | s m e] eqn:Ex; try reflexivity.
  rewrite <- Ex in *.
  assert (Hf : finite x) by (rewrite Ex; exact I).
  destruct (js_mul_roundedTo x (Js.ofZ 1) Hx (wellFormed_ofZ 1) Hf I)
    as (_ & _ & _ & _ & Hexact).
  apply Hexact; try assumption.
  - change (valueOf (Js.ofZ 1)) with (inject_Z 4503599627370496 * 2 ^ (-52)).
    setoid_replace (inject_Z 4503599627370496 * 2 ^ (-52)) with 1
      by reflexivity.
    ring.
  - change (valueOf (Js.ofZ 1)) with (inject_Z 4503599627370496 * 2 ^ (-52)).
    setoid_replace (inject_Z 4503599627370496 * 2 ^ (-52)) with 1
      by reflexivity.
    rewrite Qmult_1_r, Ex. rewrite valueOf_finite.
    pose proof (scaled_pos m e) as Hp. unfold scaled.
    destruct s; intro H; lra.
Qed.

End Binary64Operations.

(* ------------------------------------------------------------------ *)
(** ** Running sums against exact sums                                   *)
(* ------------------------------------------------------------------ *)

Section RunningSums.

Local Open Scope Q_scope.

(** An integer below 2^53 in absolute value is a number of the format. *)
Lemma ofZ_exact (z : Z) :
  (Z.abs z < 2 ^ 53)%Z ->
  finite (Js.ofZ z) /\ valueOf (Js.ofZ z) == inject_Z z.
Proof.
  intro Hz. unfold Js.ofZ.
  destruct z as [| p | p]; cbn [binary_normalize].
  - split; [exact I | reflexivity].
  - destruct (binary_round_value false p 0)
      as (m1 & e1 & Hr & Hm1 & He1 & Hmin & Hsub & Herr & Hex).
    pose proof (digits2_pos_bounds p) as [Dlo _].
    assert (Hd : (Zpos (digits2_pos p) <= 53)%Z).
    { destruct (Z.le_gt_cases (Zpos (digits2_pos p)) 53) as [H | H];
        [exact H |].
      exfalso.
      assert (2 ^ 53 <= 2 ^ (Zpos (digits2_pos p) - 1))%Z
        by (apply Z.pow_le_mono_r; lia).
      simpl in Hz. lia. }
    assert (HE : (fexp Js.prec Js.emax (Zpos (digits2_pos p) + 0) <= 0)%Z).
    { unfold fexp, SpecFloat.emin, Js.prec, Js.emax. lia. }
    rewrite Hr.
    assert (Hf : finite (encode false m1 e1)).
    { unfold encode. destruct m1 as [| q | q]; [exact I | | lia].
      assert (H : (e1 <=? Js.emax - Js.prec)%Z = true)
        by (apply Z.leb_le; unfold Js.emax, Js.prec; lia).
      rewrite H. exact I. }
    split; [exact Hf |].
    rewrite valueOf_encode by (lia || exact Hf).
    unfold scaled. rewrite (Hex (or_introl HE)).
    change (2 ^ 0) with 1. ring.
  - destruct (binary_round_value true p 0)
      as (m1 & e1 & Hr & Hm1 & He1 & Hmin & Hsub & Herr & Hex).
    pose proof (digits2_pos_bounds p) as [Dlo _].
    assert (Hd : (Zpos (digits2_pos p) <= 53)%Z).
    { destruct (Z.le_gt_cases (Zpos (digits2_pos p)) 53) as [H | H];
        [exact H |].
      exfalso.
      assert (2 ^ 53 <= 2 ^ (Zpos (digits2_pos p) - 1))%Z
        by (apply Z.pow_le_mono_r; lia).
      simpl in Hz. lia. }
    assert (HE : (fexp Js.prec Js.emax (Zpos (digits2_pos p) + 0) <= 0)%Z).
    { unfold fexp, SpecFloat.emin, Js.prec, Js.emax. lia. }
    rewrite Hr.
    assert (Hf : finite (encode true m1 e1)).
    { unfold encode. destruct m1 as [| q | q]; [exact I | | lia].
      assert (H : (e1 <=? Js.emax - Js.prec)%Z = true)
        by (apply Z.leb_le; unfold Js.emax, Js.prec; lia).
      rewrite H. exact I. }
    split; [exact Hf |].
    rewrite valueOf_encode by (lia || exact Hf).
    unfold scaled. rewrite (Hex (or_introl HE)).
    change (Zneg p) with (- Zpos p)%Z. rewrite inject_Z_opp.
    change (2 ^ 0) with 1. ring.
Qed.

Lemma Qabs_bounds (x : Q) : - Qabs x <= x /\ x <= Qabs x.
Proof. apply Qabs_Qle_condition. apply Qle_refl. Qed.

Lemma Qsum_abs_nonneg (l : list Js.number) :
  0 <= Qsum (map (fun x => Qabs (valueOf x)) l).
Proof.
  induction l as [| x r IH]; simpl; [apply Qle_refl |].
  pose proof (Qabs_nonneg (valueOf x)). lra.
Qed.

(** The error of one rounding below [2^k]. *)
Lemma halfUlp (k : Z) :
  (-1021 <= k)%Z -> 2 ^ (Z.max (k - 53) emin - 1) == 2 ^ (k - 54).
Proof.
  intro Hk. unfold emin.
  replace (Z.max (k - 53) (-1074) - 1)%Z with (k - 54)%Z by lia.
  reflexivity.
Qed.

(** A running sum against the exact sum of its terms: while the absolute
    values involved stay below [2^k], every addition is off by at most
    [2^(k-54)], and the errors add up. *)
Lemma sumFrom_accuracy (k : Z) (l : list Js.number) (a : Js.number) :
  (-1021 <= k <= 1023)%Z ->
  wellFormed a -> finite a -> Forall wellFormed l -> Forall finite l ->
  Qabs (valueOf a) + Qsum (map (fun x => Qabs (valueOf x)) l)
    + inject_Z (Z.of_nat (List.length l)) * 2 ^ (k - 54) < 2 ^ k ->
  wellFormed (sumFrom a l) /\ finite (sumFrom a l)
  /\ Qabs (valueOf (sumFrom a l) - (valueOf a + Qsum (map valueOf l)))
     <= inject_Z (Z.of_nat (List.length l)) * 2 ^ (k - 54).
Proof.
  intros Hk Hwa Hfa Hwl. revert a Hwa Hfa.
  induction Hwl as [| x r Hwx Hwr IH]; intros a Hwa Hfa Hfl Hb.
  - cbn [sumFrom map Qsum List.length].
    split; [exact Hwa |]. split; [exact Hfa |].
    setoid_replace (valueOf a - (valueOf a + 0)) with 0 by ring.
    change (inject_Z (Z.of_nat 0)) with 0. rewrite Qmult_0_l.
    apply Qle_refl.
  - inversion Hfl as [| ? ? Hfx Hfr]; subst.
    cbn [sumFrom map Qsum List.length] in *.
    rewrite Nat2Z.inj_succ in *. unfold Z.succ in *.
    rewrite inject_Z_plus in *. change (inject_Z 1) with 1 in *.
    pose proof (pow2_pos (k - 54)) as Heps.
    set (eps := 2 ^ (k - 54)) in *.
    set (n := inject_Z (Z.of_nat (List.length r))) in *.
    assert (Hn : 0 <= n).
    { unfold n. change 0 with (inject_Z 0). rewrite <- Zle_Qle. lia. }
    pose proof (Qsum_abs_nonneg r) as Hr0.
    set (R := Qsum (map (fun x => Qabs (valueOf x)) r)) in *.
    pose proof (Qabs_bounds (valueOf a)) as [Ha1 Ha2].
    pose proof (Qabs_bounds (valueOf x)) as [Hx1 Hx2].
    set (A := Qabs (valueOf a)) in *. set (X := Qabs (valueOf x)) in *.
    assert (Hne : 0 <= n * eps) by (apply Qmult_le_0_compat; lra).
    assert (Hexp : (n + 1) * eps == n * eps + eps) by ring.
    rewrite Hexp in Hb |- *.
    destruct (js_add_roundedTo a x Hwa Hwx Hfa Hfx)
      as (Hw' & _ & _ & Hk' & _).
    destruct (Hk' k) as [Hf' He']; [| lia |].
    { apply Qle_lt_trans with (A + X); [| lra].
      apply Qabs_Qle_condition. split; lra. }
    rewrite halfUlp in He' by lia. fold eps in He'.
    apply Qabs_Qle_condition in He'. destruct He' as [He1 He2].
    set (a' := Js.add a x) in *.
    pose proof (Qabs_bounds (valueOf a')) as [Hb1 Hb2].
    assert (HA' : Qabs (valueOf a') <= A + X + eps).
    { apply Qabs_Qle_condition. split; lra. }
    destruct (IH a' Hw' Hf' Hfr) as (Hws & Hfs & Hes).
    { fold R n. lra. }
    split; [exact Hws |]. split; [exact Hfs |].
    fold n in Hes. apply Qabs_Qle_condition in Hes.
    destruct Hes as [Hs1 Hs2].
    apply Qabs_Qle_condition. split; lra.
Qed.

End RunningSums.

(* ------------------------------------------------------------------ *)
(** ** Order detail page: balance, confirm gate, action gating           *)
(* ------------------------------------------------------------------ *)

Section OrderDetail.

Import OrderDetailPage.

(** [totalPaid] is the running sum of the amounts of the ENCAISSE
    payments, in list order. *)
Lemma totalPaid_sum (ps : list Payment.t) :
  totalPaid ps = runningSum (amountsWithStatus ENCAISSE ps).
Proof.
  unfold totalPaid, runningSum, amountsWithStatus. apply fold_left_sumFrom.
Qed.

Lemma amountsWithStatus_app (s : PaymentStatus) (l1 l2 : list Payment.t) :
  amountsWithStatus s (l1 ++ l2)
  = amountsWithStatus s l1 ++ amountsWithStatus s l2.
Proof. unfold amountsWithStatus. rewrite filter_app, map_app. reflexivity. Qed.

Lemma amountsWithStatus_cons (s : PaymentStatus) (p : Payment.t)
    (l : list Payment.t) :
  amountsWithStatus s (p :: l)
  = (if PaymentStatus_eqb (Payment.paymentStatus p) s
     then [Payment.amount p] else []) ++ amountsWithStatus s l.
Proof.
  unfold amountsWithStatus. simpl.
  destruct (PaymentStatus_eqb (Payment.paymentStatus p) s); reflexivity.
Qed.


Lemma OrderStatus_eqb_eq (a b : OrderStatus) :
  OrderStatus_eqb a b = true <-> a = b.
Proof. destruct a, b; simpl; split; congruence. Qed.

Lemma PaymentStatus_eqb_eq (a b : PaymentStatus) :
  PaymentStatus_eqb a b = true <-> a = b.
Proof. destruct a, b; simpl; split; congruence. Qed.

Lemma Action_eqb_eq (a b : Action) : Action_eqb a b = true <-> a = b.
Proof.
  destruct a, b; simpl; split; try congruence;
    try (intro H; apply Z.eqb_eq in H; congruence);
    intro H; injection H as ->; apply Z.eqb_refl.
Qed.

(** The page's role test holds exactly for a user whose role is ADMIN. *)
Lemma isAdmin_iff (u : option User.t) : isAdmin u = true <-> adminUser u.
Proof.
  unfold isAdmin, adminUser. destruct u as [usr |].
  - destruct (User.role usr) eqn:E; simpl; split.
    + intros _. exists usr. auto.
    + reflexivity.
    + discriminate.
    + intros (u' & Hu & Hr). injection Hu as <-. congruence.
  - split; [discriminate | intros (u' & Hu & _); discriminate].
Qed.

Lemma isAdmin_false_iff (u : option User.t) :
  isAdmin u = false <-> ~ adminUser u.
Proof.
  rewrite <- isAdmin_iff. destruct (isAdmin u); split; congruence.
Qed.

Lemma canConfirm_iff (u : option User.t) (o : Order.t)
    (ps : list Payment.t) :
  canConfirm u o ps = true
  <-> Order.status o = PENDING /\ adminUser u
      /\ Js.le (remainingAmount (Some o) ps) (Js.num 0) = true.
Proof.
  unfold canConfirm.
  rewrite !andb_true_iff, OrderStatus_eqb_eq, isAdmin_iff. tauto.
Qed.

Lemma canCancel_iff (u : option User.t) (o : Order.t) :
  canCancel u o = true <-> Order.status o = PENDING /\ adminUser u.
Proof.
  unfold canCancel. rewrite andb_true_iff, OrderStatus_eqb_eq, isAdmin_iff.
  tauto.
Qed.

(** An offered action comes from an enabled button of the page. *)
Lemma offered_iff (st : State) (a : Action) :
  offered st a = true
  <-> exists b, In b (render st) /\ onClick b = a /\ disabled b = false.
Proof.
  unfold offered. rewrite existsb_exists. split.
  - intros (b & Hin & H). apply andb_true_iff in H. destruct H as [H1 H2].
    apply Action_eqb_eq in H1. apply negb_true_iff in H2. eauto.
  - intros (b & Hin & H1 & H2). exists b. split; [exact Hin |].
    apply andb_true_iff. split.
    + apply Action_eqb_eq, H1.
    + rewrite H2. reflexivity.
Qed.

(** Where the buttons of the rendered page come from. *)
Lemma render_In (st : State) (b : Button) :
  In b (render st)
  <-> loading st = false /\ Js.falsy_opt (error st) = true
      /\ exists o, order st = Some o
           /\ (In b (headerButtons st o) \/ In b (paymentsCardButtons st o)
               \/ In b (summaryButtons st o) \/ In b (adminButtons st o)).
Proof.
  unfold render. destruct (loading st).
  { simpl. split; [tauto | intros [H _]; discriminate]. }
  destruct (order st) as [o |].
  2:{ simpl. split; [tauto | intros (_ & _ & o & H & _); discriminate]. }
  destruct (Js.falsy_opt (error st)); simpl.
  - rewrite !in_app_iff. split.
    + intro H. repeat split. exists o. tauto.
    + intros (_ & _ & o' & Ho & H). injection Ho as <-. tauto.
  - split; [tauto | intros (_ & H & _); discriminate].
Qed.

Lemma headerButtons_In (st : State) (o : Order.t) (b : Button) :
  In b (headerButtons st o)
  <-> (canConfirm (user st) o (payments st) = true
       /\ b = mkButton Confirm (actionLoading st))
      \/ (canCancel (user st) o = true
          /\ b = mkButton Cancel (actionLoading st)).
Proof.
  unfold headerButtons. rewrite in_app_iff.
  destruct (canConfirm (user st) o (payments st)), (canCancel (user st) o);
    simpl; split; intro H; intuition (try discriminate; auto).
Qed.

Lemma paymentRowButtons_In (st : State) (p : Payment.t) (b : Button) :
  In b (paymentRowButtons st p)
  <-> adminUser (user st) /\ Payment.paymentStatus p = EN_ATTENTE
      /\ (b = mkButton (Encash (Payment.id p)) (actionLoading st)
          \/ b = mkButton (Reject (Payment.id p)) (actionLoading st)).
Proof.
  rewrite <- isAdmin_iff. unfold paymentRowButtons.
  destruct (isAdmin (user st)); simpl.
  - destruct (PaymentStatus_eqb (Payment.paymentStatus p) EN_ATTENTE) eqn:E;
      simpl.
    + apply PaymentStatus_eqb_eq in E.
      split; intro H; intuition (try discriminate; auto).
    + split; [tauto |]. intros (_ & H & _).
      apply PaymentStatus_eqb_eq in H. congruence.
  - split; [tauto | intros [H _]; discriminate].
Qed.

Lemma paymentsCardButtons_In (st : State) (o : Order.t) (b : Button) :
  In b (paymentsCardButtons st o)
  <-> (notClosed o = true /\ b = mkButton AddPayment false)
      \/ exists p, In p (payments st) /\ In b (paymentRowButtons st p).
Proof.
  unfold paymentsCardButtons. rewrite in_app_iff, in_flat_map.
  destruct (notClosed o); simpl; split; intro H;
    intuition (try discriminate; auto).
Qed.

Lemma summaryButtons_In (st : State) (o : Order.t) (b : Button) :
  In b (summaryButtons st o) -> b = mkButton AddPayment false.
Proof.
  unfold summaryButtons.
  destruct (Js.gt _ (Js.num 0) && notClosed o); simpl; intuition.
Qed.

Lemma adminButtons_In (st : State) (o : Order.t) (b : Button) :
  In b (adminButtons st o)
  <-> adminUser (user st) /\ Order.status o = PENDING
      /\ (b = mkButton Confirm
                (actionLoading st
                 || Js.gt (remainingAmount (Some o) (payments st))
                          (Js.num 0))
          \/ b = mkButton Cancel (actionLoading st)).
Proof.
  rewrite <- isAdmin_iff. unfold adminButtons.
  destruct (isAdmin (user st)); simpl.
  - destruct (OrderStatus_eqb (Order.status o) PENDING) eqn:E; simpl.
    + apply OrderStatus_eqb_eq in E.
      split; intro H; intuition (try discriminate; auto).
    + split; [tauto |]. intros (_ & H & _).
      apply OrderStatus_eqb_eq in H. congruence.
  - split; [tauto | intros [H _]; discriminate].
Qed.

End OrderDetail.

Section OrderDetailClaims.

Import OrderDetailPage.












Lemma offered_gate (st : State) (a : Action) :
  mutating a = true -> offered st a = true ->
  adminUser (user st) /\ gate st a.
Proof.
  intros Hm H. apply offered_iff in H. destruct H as (b & Hin & Hact & _).
  apply render_In in Hin. destruct Hin as (_ & _ & o & Ho & H).
  destruct H as [H | [H | [H | H]]].
  - apply headerButtons_In in H.
    destruct H as [[Hc ->] | [Hc ->]]; simpl in Hact; subst a; simpl.
    + apply canConfirm_iff in Hc. split; [tauto |]. exists o. tauto.
    + apply canCancel_iff in Hc. split; [tauto |]. exists o. tauto.
  - apply paymentsCardButtons_In in H.
    destruct H as [[_ ->] | (p & Hp & H)]; simpl in Hact.
    + subst a. discriminate.
    + apply paymentRowButtons_In in H.
      destruct H as (Ha & Hs & [-> | ->]); simpl in Hact; subst a; simpl;
        (split; [exact Ha |]); exists p; auto.
  - apply summaryButtons_In in H. subst b. simpl in Hact. subst a.
    discriminate.
  - apply adminButtons_In in H.
    destruct H as (Ha & Hs & [-> | ->]); simpl in Hact; subst a; simpl;
      (split; [exact Ha |]); exists o; auto.
Qed.

(** The encash and reject buttons of a pending payment, on the page of an
    administrator that shows its cards and is idle. *)
Lemma offered_payment_actions (st : State) (o : Order.t) (p : Payment.t) :
  order st = Some o -> loading st = false ->
  Js.falsy_opt (error st) = true -> actionLoading st = false ->
  adminUser (user st) -> In p (payments st) ->
  Payment.paymentStatus p = EN_ATTENTE ->
  offered st (Encash (Payment.id p)) = true
  /\ offered st (Reject (Payment.id p)) = true.
Proof.
  intros Ho Hl He Hal Ha Hin Hs.
  split; apply offered_iff;
    [exists (mkButton (Encash (Payment.id p)) (actionLoading st))
    | exists (mkButton (Reject (Payment.id p)) (actionLoading st))];
    (split; [| split; [reflexivity | exact Hal]]);
    apply render_In; (split; [exact Hl |]); (split; [exact He |]);
    exists o; (split; [exact Ho |]); right; left;
    apply paymentsCardButtons_In; right; exists p; (split; [exact Hin |]);
    apply paymentRowButtons_In; tauto.
Qed.

(** C9, as stated, fails on its last clause: on an order that is CANCELED
    (or CONFIRMED), an administrator is still offered encash and reject
    for a payment that is EN_ATTENTE. *)
Lemma canceled_order_offers_encash_and_reject :
  let canceled := Sample.pageOf (Sample.orderOf 120 CANCELED)
                    [Sample.payment 1 70 EN_ATTENTE] in
  let confirmed := Sample.pageOf (Sample.orderOf 120 CONFIRMED)
                     [Sample.payment 1 70 EN_ATTENTE] in
  offered canceled (Encash 1) = true /\ offered canceled (Reject 1) = true
  /\ offered confirmed (Encash 1) = true
  /\ offered confirmed (Reject 1) = true.
Proof. repeat split. Qed.

(** C9, amended.  Confirm, cancel, encash and reject are offered only to a
    user whose role is ADMIN; confirm and cancel only while the order is
    PENDING, encash and reject of a payment only while that payment is
    EN_ATTENTE.  Hence a user who is not an administrator is offered none
    of the four, an order in CONFIRMED, CANCELED or REJECTED status offers
    neither confirm nor cancel, and a payment that is ENCAISSE or REJETE
    offers neither encash nor reject.  Encash and reject do not look at
    the status of the order: on the idle page of an administrator every
    EN_ATTENTE payment offers both, whatever the status of the order.  The
    first revision of the page gates confirm and cancel on role and
    PENDING status as well. *)
Theorem status_actions_admin_and_pending_only (st : State) :
  (forall a, mutating a = true -> offered st a = true ->
             adminUser (user st) /\ gate st a)
  /\ (~ adminUser (user st) ->
      forall a, mutating a = true -> offered st a = false)
  /\ (forall o, order st = Some o -> Order.status o <> PENDING ->
                offered st Confirm = false /\ offered st Cancel = false)
  /\ (forall paymentId,
        (forall p, In p (payments st) -> Payment.id p = paymentId ->
                   Payment.paymentStatus p <> EN_ATTENTE) ->
        offered st (Encash paymentId) = false
        /\ offered st (Reject paymentId) = false)
  /\ (forall o p,
        order st = Some o -> loading st = false ->
        Js.falsy_opt (error st) = true -> actionLoading st = false ->
        adminUser (user st) -> In p (payments st) ->
        Payment.paymentStatus p = EN_ATTENTE ->
        offered st (Encash (Payment.id p)) = true
        /\ offered st (Reject (Payment.id p)) = true)
  /\ (forall o, OrderDetailPageV1.canConfirm (user st) o = true
                \/ OrderDetailPageV1.canCancel (user st) o = true ->
                adminUser (user st) /\ Order.status o = PENDING).
Proof.
  split; [intros a; apply offered_gate |].
  split.
  { intros Hna a Hm. apply not_true_is_false. intro E.
    destruct (offered_gate st a Hm E) as [Ha _]. contradiction. }
  split.
  { intros o Ho Hs.
    split;
      match goal with
      | |- offered st ?a = false =>
          apply not_true_is_false; intro E;
          destruct (offered_gate st a eq_refl E) as [_ (o' & Ho' & Hp)];
          rewrite Ho in Ho'; injection Ho' as <-; contradiction
      end. }
  split.
  { intros paymentId Hall.
    split;
      match goal with
      | |- offered st ?a = false =>
          apply not_true_is_false; intro E;
          destruct (offered_gate st a eq_refl E)
            as [_ (p & Hin & Hid & Hs)];
          exact (Hall p Hin Hid Hs)
      end. }
  split; [intros o p; apply offered_payment_actions |].
  intros o [H | H];
    unfold OrderDetailPageV1.canConfirm, OrderDetailPageV1.canCancel,
           OrderDetailPageV1.isAdmin in H;
    apply andb_true_iff in H; destruct H as [H1 H2];
    apply OrderStatus_eqb_eq in H1; apply isAdmin_iff in H2; auto.
Qed.

End OrderDetailClaims.

(* ------------------------------------------------------------------ *)
(** ** Create-order page: the totals preview                            *)
(* ------------------------------------------------------------------ *)

Section Pricing.

Import CreateOrderPage.

Variables (selectedClient : option Client.t)
          (orderItems : list OrderItem.t)
          (promoCode : Js.str).

Let totals := calculateTotals selectedClient orderItems promoCode.

Lemma subTotal_sum : subTotal totals = runningSum (map lineTotal orderItems).
Proof.
  unfold totals, calculateTotals, runningSum. cbn [subTotal].
  apply (fold_left_sumFrom lineTotal).
Qed.

Lemma tierDiscount_rate :
  tierDiscount totals
  = discountAt (subTotal totals)
      match selectedClient with
      | Some c => tierRate (Client.tier c) (subTotal totals)
      | None => None
      end.
Proof.
  unfold totals, calculateTotals. cbn [subTotal tierDiscount].
  destruct selectedClient as [c |]; [| reflexivity].
  unfold tierRate, discountAt.
  destruct (Client.tier c); cbn [Tier_eqb andb];
    match goal with
    | |- context [Js.ge ?s ?k] => destruct (Js.ge s k)
    | _ => idtac
    end; reflexivity.
Qed.

Lemma promoDiscount_rate :
  promoDiscount totals = discountAt (subTotal totals) (promoRate promoCode).
Proof.
  unfold totals, calculateTotals, promoRate, discountAt.
  cbn [subTotal promoDiscount].
  destruct promoCode as [| c r]; [reflexivity |].
  cbn [Js.falsy_str negb andb].
  destruct (promoRegex (c :: r)); reflexivity.
Qed.

End Pricing.

Section PricingClaims.

Import CreateOrderPage.

Lemma js_lt_not_ge (x y : Js.number) :
  Js.lt x y = true -> Js.ge x y = false.
Proof. apply (js_gt_not_le y x). Qed.

(** C3.  The tier discount is a threshold-gated percentage of the
    subtotal the function has computed: with a SILVER client it is the
    product of the subtotal by 0.05 when the subtotal is at least 500 and
    zero otherwise; with GOLD the product by 0.10 from 800; with PLATINUM
    the product by 0.15 from 1200; with BASIC (or no client) zero.  The
    thresholds are exact: a SILVER subtotal of 499.99 gets no discount, one
    of 500.00 gets 25.00, and a draft whose lines compute to
    499.99999999999994 gets none.  Only the rate of the client's own tier
    is applied. *)
Theorem tier_discount_thresholds (orderItems : list OrderItem.t)
    (promoCode : Js.str) :
  (forall c,
     let t := calculateTotals (Some c) orderItems promoCode in
     tierDiscount t
       = discountAt (subTotal t) (tierRate (Client.tier c) (subTotal t))
     /\ match Client.tier c with
        | BASIC => tierDiscount t = Js.num 0
        | SILVER =>
            (Js.ge (subTotal t) (Js.num 500) = true ->
             tierDiscount t = Js.mul (subTotal t) (Js.num 0.05))
            /\ (Js.ge (subTotal t) (Js.num 500) = false ->
                tierDiscount t = Js.num 0)
            /\ (Js.lt (subTotal t) (Js.num 500) = true ->
                tierDiscount t = Js.num 0)
        | GOLD =>
            (Js.ge (subTotal t) (Js.num 800) = true ->
             tierDiscount t = Js.mul (subTotal t) (Js.num 0.10))
            /\ (Js.ge (subTotal t) (Js.num 800) = false ->
                tierDiscount t = Js.num 0)
            /\ (Js.lt (subTotal t) (Js.num 800) = true ->
                tierDiscount t = Js.num 0)
        | PLATINUM =>
            (Js.ge (subTotal t) (Js.num 1200) = true ->
             tierDiscount t = Js.mul (subTotal t) (Js.num 0.15))
            /\ (Js.ge (subTotal t) (Js.num 1200) = false ->
                tierDiscount t = Js.num 0)
            /\ (Js.lt (subTotal t) (Js.num 1200) = true ->
                tierDiscount t = Js.num 0)
        end)
  /\ tierDiscount (calculateTotals None orderItems promoCode) = Js.num 0
  /\ tierDiscount (calculateTotals (Some Sample.silverClient)
                     [Sample.line 1 499.99 1 5] promoCode) = Js.num 0
  /\ tierDiscount (calculateTotals (Some Sample.silverClient)
                     [Sample.line 1 500.00 1 5] promoCode) = Js.num 25
  /\ (let t := calculateTotals (Some Sample.silverClient)
                 [Sample.line 1 1.70 1 5; Sample.line 2 166.10 3 5]
                 promoCode in
      subTotal t = Js.num 499.99999999999994 /\ tierDiscount t = Js.num 0)
  /\ (let t := calculateTotals (Some Sample.silverClient)
                 [Sample.line 1 264.63 1 5; Sample.line 2 40.08 1 5;
                  Sample.line 3 195.29 1 5] promoCode in
      subTotal t = Js.num 500 /\ tierDiscount t = Js.num 25).
Proof.
  split.
  { intros c t.
    pose proof (tierDiscount_rate (Some c) orderItems promoCode) as H.
    cbv beta iota zeta in H. fold t in H. split; [exact H |].
    unfold tierRate in H.
    destruct (Client.tier c).
    - exact H.
    - split; [| split]; intro E; try apply js_lt_not_ge in E;
        rewrite E in H; exact H.
    - split; [| split]; intro E; try apply js_lt_not_ge in E;
        rewrite E in H; exact H.
    - split; [| split]; intro E; try apply js_lt_not_ge in E;
        rewrite E in H; exact H. }
  split; [reflexivity |].
  repeat split; vm_compute; reflexivity.
Qed.

(** The two regular-expression pieces consume exactly what they say. *)
Lemma literal_Some (lit s rest : Js.str) :
  Js.literal lit s = Some rest <-> s = lit ++ rest.
Proof.
  revert s. induction lit as [| a lit IH]; intro s; simpl.
  - split; congruence.
  - destruct s as [| c s'].
    + split; discriminate.
    + destruct (N.eqb_spec a c) as [-> | Hne].
      * rewrite IH. split; congruence.
      * split; [discriminate | congruence].
Qed.

Lemma classN_Some (cls : N -> bool) (n : nat) (s rest : Js.str) :
  Js.classN cls n s = Some rest
  <-> exists pre, s = pre ++ rest /\ List.length pre = n
                  /\ Forall (fun c => cls c = true) pre.
Proof.
  revert s. induction n as [| n IH]; intro s; simpl.
  - split.
    + intro H. exists []. simpl. split; [congruence | auto].
    + intros (pre & -> & Hl & _). destruct pre; [reflexivity | discriminate].
  - destruct s as [| c s'].
    + split; [discriminate |].
      intros (pre & H & Hl & _). destruct pre; discriminate.
    + destruct (cls c) eqn:E.
      * rewrite IH. split.
        -- intros (pre & -> & Hl & Hf). exists (c :: pre). simpl.
           repeat split; auto.
        -- intros (pre & H & Hl & Hf). destruct pre as [| c' pre];
             [discriminate |].
           simpl in H, Hl. injection H as <- ->. injection Hl as Hl.
           inversion Hf; subst. exists pre. auto.
      * split; [discriminate |].
        intros (pre & H & Hl & Hf). destruct pre as [| c' pre];
          [discriminate |].
        simpl in H. injection H as <- ->. inversion Hf; subst. congruence.
Qed.

Lemma upperOrDigit_iff (c : N) : Js.upperOrDigit c = true <-> upperAlnum c.
Proof.
  unfold Js.upperOrDigit, upperAlnum.
  rewrite orb_true_iff, !andb_true_iff, !N.leb_le. tauto.
Qed.

Lemma Forall_upperOrDigit (l : list N) :
  Forall (fun c => Js.upperOrDigit c = true) l <-> Forall upperAlnum l.
Proof.
  rewrite !Forall_forall. split; intros H c Hc; apply upperOrDigit_iff; auto.
Qed.

(** The regular expression accepts exactly the strings of the shape
    [PROMO-] plus four upper-case letters or digits. *)
Lemma promoRegex_iff (promoCode : Js.str) :
  promoRegex promoCode = true <-> promoShaped promoCode.
Proof.
  unfold promoRegex, promoShaped. split.
  - destruct (Js.literal (Js.of_ascii "PROMO-") promoCode) as [rest |] eqn:E;
      [| discriminate].
    apply literal_Some in E.
    destruct (Js.classN Js.upperOrDigit 4 rest) as [[| ? ?] |] eqn:F;
      try discriminate.
    intros _. apply classN_Some in F. destruct F as (pre & -> & Hl & Hf).
    destruct pre as [| c1 [| c2 [| c3 [| c4 [| ? ?]]]]]; try discriminate.
    exists c1, c2, c3, c4. rewrite app_nil_r in E.
    split; [exact E | apply Forall_upperOrDigit, Hf].
  - intros (c1 & c2 & c3 & c4 & -> & Hf).
    assert (E : Js.literal (Js.of_ascii "PROMO-")
                  (Js.of_ascii "PROMO-" ++ [c1; c2; c3; c4])
                = Some [c1; c2; c3; c4])
      by (apply literal_Some; reflexivity).
    rewrite E.
    assert (F : Js.classN Js.upperOrDigit 4 [c1; c2; c3; c4] = Some []).
    { apply classN_Some. exists [c1; c2; c3; c4].
      split; [reflexivity |]. split; [reflexivity |].
      apply Forall_upperOrDigit, Hf. }
    rewrite F. reflexivity.
Qed.

(** C4, as stated, at its own example: a PLATINUM client with a subtotal
    of 1000 and a valid promo code gets a total discount of 50, not 200,
    because 1000 is below the PLATINUM threshold. *)
Lemma platinum_1000_promo_discount_is_50 :
  let t := calculateTotals (Some Sample.platinumClient)
             [Sample.line 1 1000 1 5] Sample.promo in
  subTotal t = Js.num 1000 /\ promoRegex Sample.promo = true
  /\ totalDiscount t = Js.num 50 /\ totalDiscount t <> Js.num 200.
Proof.
  repeat split; try (vm_compute; reflexivity).
  intro H. vm_compute in H. discriminate.
Qed.

(** C4, amended.  The total discount is the sum of the tier discount and
    the promo discount, each of them a product of the same subtotal by its
    rate (or zero): the promo rate is never applied to what the tier
    discount leaves, so the discounts are not compounded.  A PLATINUM
    client with a subtotal of 1000 and a valid promo code gets 50.00 (the
    PLATINUM threshold of 1200 is not reached, only the promo 5% applies);
    with a subtotal of 1200 the same client gets 180 + 60 = 240.00, not
    1200 x (1 - 0.85 x 0.95) = 231.00. *)
Theorem discounts_are_additive (selectedClient : option Client.t)
    (orderItems : list OrderItem.t) (promoCode : Js.str) :
  let t := calculateTotals selectedClient orderItems promoCode in
  totalDiscount t = Js.add (tierDiscount t) (promoDiscount t)
  /\ tierDiscount t
     = discountAt (subTotal t)
         match selectedClient with
         | Some c => tierRate (Client.tier c) (subTotal t)
         | None => None
         end
  /\ promoDiscount t = discountAt (subTotal t) (promoRate promoCode)
  /\ totalDiscount (calculateTotals (Some Sample.platinumClient)
                      [Sample.line 1 1000 1 5] Sample.promo) = Js.num 50
  /\ (let t' := calculateTotals (Some Sample.platinumClient)
                  [Sample.line 1 1200 1 5] Sample.promo in
      tierDiscount t' = Js.num 180 /\ promoDiscount t' = Js.num 60
      /\ totalDiscount t' = Js.num 240
      /\ Js.mul (Js.num 1200)
                (Js.sub (Js.num 1) (Js.mul (Js.num 0.85) (Js.num 0.95)))
         = Js.num 231
      /\ totalDiscount t' <> Js.num 231).
Proof.
  intro t. split; [reflexivity |].
  split; [apply tierDiscount_rate |].
  split; [apply promoDiscount_rate |].
  repeat split; try (vm_compute; reflexivity).
  intro H. vm_compute in H. discriminate.
Qed.

(** C5.  A promo code of the shape [PROMO-] plus exactly four upper-case
    letters or digits (exactly the strings the regular expression
    accepts) yields a promo discount of 5% of the subtotal.  Any other
    string, the empty (absent) code included, yields a promo discount of
    zero and the very totals computed without a promo code: the
    computation is a total function and a malformed code is ignored. *)
Theorem promo_code_soft_fail (selectedClient : option Client.t)
    (orderItems : list OrderItem.t) (promoCode : Js.str) :
  let t := calculateTotals selectedClient orderItems promoCode in
  (promoRegex promoCode = true <-> promoShaped promoCode)
  /\ (promoShaped promoCode ->
      promoDiscount t = Js.mul (subTotal t) (Js.num 0.05))
  /\ (~ promoShaped promoCode ->
      promoDiscount t = Js.num 0
      /\ t = calculateTotals selectedClient orderItems [])
  /\ promoDiscount (calculateTotals selectedClient orderItems []) = Js.num 0.
Proof.
  intro t. split; [apply promoRegex_iff |].
  pose proof (promoDiscount_rate selectedClient orderItems promoCode) as H.
  cbv beta iota zeta in H. fold t in H. unfold promoRate in H.
  split; [| split].
  - intro Hs. apply promoRegex_iff in Hs. rewrite Hs in H. exact H.
  - intro Hs.
    assert (E : promoRegex promoCode = false).
    { destruct (promoRegex promoCode) eqn:E; [| reflexivity].
      apply promoRegex_iff in E. contradiction. }
    split; [rewrite E in H; exact H |].
    unfold t, calculateTotals. rewrite E, andb_false_r. reflexivity.
  - reflexivity.
Qed.

Lemma promo_code_soft_fail_witness :
  promoShaped Sample.promo
  /\ promoDiscount (calculateTotals (Some Sample.silverClient)
                      [Sample.line 1 100 3 5] Sample.promo) = Js.num 15
  /\ ~ promoShaped (Js.of_ascii "promo-ab12")
  /\ calculateTotals (Some Sample.silverClient) [Sample.line 1 100 3 5]
       (Js.of_ascii "promo-ab12")
     = calculateTotals (Some Sample.silverClient) [Sample.line 1 100 3 5] [].
Proof.
  assert (Hgood : promoShaped Sample.promo).
  { destruct (promo_code_soft_fail None [] Sample.promo) as ([Hi _] & _).
    apply Hi. reflexivity. }
  assert (Hbad : ~ promoShaped (Js.of_ascii "promo-ab12")).
  { intro H.
    destruct (promo_code_soft_fail None [] (Js.of_ascii "promo-ab12"))
      as ([_ Hi] & _).
    apply Hi in H. vm_compute in H. discriminate. }
  split; [exact Hgood |]. split.
  - destruct (promo_code_soft_fail (Some Sample.silverClient)
                [Sample.line 1 100 3 5] Sample.promo) as (_ & H & _).
    rewrite (H Hgood). vm_compute. reflexivity.
  - split; [exact Hbad |].
    destruct (promo_code_soft_fail (Some Sample.silverClient)
                [Sample.line 1 100 3 5] (Js.of_ascii "promo-ab12"))
      as (_ & _ & H & _).
    apply H. exact Hbad.
Defined.

(** C7, as stated, fails: with one line of 0.01 and no discount the tax
    returned is 0.002, which is not a whole number of minor units, so the
    tax field has not been rounded, and neither has the total, 0.012.
    For a large amount the total is not within one minor unit of the
    rounded product either: with one line of 1000000000000001 the total
    returned is 1200000000000001.25, five minor units above 1.2 times the
    subtotal, which is 1200000000000001.20. *)
Lemma tax_field_not_rounded :
  (let t := calculateTotals None [Sample.line 1 0.01 1 5] [] in
   tax t = Js.num 0.002 /\ ~ wholeMinorUnits (valueOf (tax t))
   /\ totalAmount t = Js.num 0.012
   /\ ~ wholeMinorUnits (valueOf (totalAmount t)))
  /\ (let t := calculateTotals None [Sample.line 1 1000000000000001 1 5] []
      in
      let base := Js.sub (subTotal t) (totalDiscount t) in
      (valueOf base == 1000000000000001)%Q
      /\ (roundMinor (valueOf base * (1 + 0.20)) == 1200000000000001.20)%Q
      /\ (valueOf (totalAmount t) == 1200000000000001.25)%Q).
Proof.
  split.
  - split; [vm_compute; reflexivity |]. split; [| split].
    + intros [z Hz]. unfold Qeq in Hz.
      set (q := valueOf _) in Hz. vm_compute in q. subst q.
      cbn [Qnum Qden] in Hz. lia.
    + vm_compute. reflexivity.
    + intros [z Hz]. unfold Qeq in Hz.
      set (q := valueOf _) in Hz. vm_compute in q. subst q.
      cbn [Qnum Qden] in Hz. lia.
  - cbv zeta. repeat split; vm_compute; reflexivity.
Qed.

(** Rounding to the nearest minor unit moves an amount by at most half a
    minor unit. *)
Lemma roundMinor_close (x : Q) :
  (- (1 # 200) <= x - roundMinor x /\ x - roundMinor x <= 1 # 200)%Q.
Proof.
  unfold roundMinor.
  set (y := (x * 100 + (1 # 2))%Q).
  pose proof (Qfloor_le y) as Hlo.
  pose proof (Qlt_floor y) as Hhi.
  rewrite inject_Z_plus in Hhi.
  assert (E : (Qfloor y # 100 == inject_Z (Qfloor y) / 100)%Q).
  { rewrite <- (Qmake_Qdiv (Qfloor y) 100). reflexivity. }
  rewrite E. unfold y in *.
  set (f := inject_Z (Qfloor (x * 100 + (1 # 2)))) in *.
  assert (D : (f / 100 == f * (1 # 100))%Q) by (field).
  rewrite D. change (inject_Z 1) with 1%Q in Hhi. split; lra.
Qed.

(** The running sum of numbers of the format is a number of the format. *)
Lemma wellFormed_sumFrom (l : list Js.number) (a : Js.number) :
  wellFormed a -> Forall wellFormed l -> wellFormed (sumFrom a l).
Proof.
  intros Ha Hl. revert a Ha.
  induction Hl as [| x r Hx Hr IH]; intros a Ha; simpl; [exact Ha |].
  apply IH. apply wellFormed_add; assumption.
Qed.

Lemma wellFormed_discountAt (base : Js.number) (rate : option Js.number) :
  wellFormed base ->
  match rate with Some r => wellFormed r | None => True end ->
  wellFormed (discountAt base rate).
Proof.
  intros Hb Hr. destruct rate as [r |]; simpl; [| reflexivity].
  apply wellFormed_mul; assumption.
Qed.

Lemma wellFormed_tierRate (tier : Tier) (s : Js.number) :
  match tierRate tier s with Some r => wellFormed r | None => True end.
Proof.
  unfold tierRate. destruct tier; try exact I;
    match goal with
    | |- context [Js.ge ?a ?b] => destruct (Js.ge a b)
    end; try exact I; reflexivity.
Qed.

Lemma wellFormed_promoRate (promoCode : Js.str) :
  match promoRate promoCode with Some r => wellFormed r | None => True end.
Proof.
  unfold promoRate. destruct (promoRegex promoCode); [reflexivity | exact I].
Qed.

(** With prices of the format, every field of the totals is a number of
    the format. *)
Lemma wellFormed_totals (selectedClient : option Client.t)
    (orderItems : list OrderItem.t) (promoCode : Js.str) :
  Forall (fun item => wellFormed (OrderItem.price item)) orderItems ->
  let t := calculateTotals selectedClient orderItems promoCode in
  wellFormed (subTotal t) /\ wellFormed (totalDiscount t)
  /\ wellFormed (Js.sub (subTotal t) (totalDiscount t)).
Proof.
  intros Hp t.
  assert (Hs : wellFormed (subTotal t)).
  { unfold t. rewrite subTotal_sum. apply wellFormed_sumFrom; [reflexivity |].
    apply Forall_map. eapply Forall_impl; [| exact Hp].
    intros it Hit. apply wellFormed_mul; [exact Hit | apply wellFormed_ofZ]. }
  assert (Hd : wellFormed (totalDiscount t)).
  { change (totalDiscount t)
      with (Js.add (tierDiscount t) (promoDiscount t)).
    unfold t.
    rewrite tierDiscount_rate, promoDiscount_rate. fold t.
    apply wellFormed_add; apply wellFormed_discountAt; try exact Hs.
    - destruct selectedClient; [apply wellFormed_tierRate | exact I].
    - apply wellFormed_promoRate. }
  split; [exact Hs |]. split; [exact Hd |].
  apply wellFormed_sub; assumption.
Qed.

(** The tax and the total computed from a taxable base of at most 10^12
    in absolute value: both are finite, the tax is within 1/30000 of a
    fifth of the base, the total within 1/8192 of the exact sum of base
    and tax, and within 0.0002 of the base times 1.2. *)
Lemma tax_and_total_of_base (base : Js.number) :
  wellFormed base -> finite base ->
  (Qabs (valueOf base) <= 1000000000000)%Q ->
  let tax := Js.mul base (Js.num 0.20) in
  let total := Js.add base tax in
  finite tax /\ finite total
  /\ (Qabs (valueOf tax - valueOf base * 0.20) <= 1 # 30000)%Q
  /\ (Qabs (valueOf total - (valueOf base + valueOf tax)) <= 1 # 8192)%Q
  /\ (Qabs (valueOf total - valueOf base * (1 + 0.20)) <= 1 # 5000)%Q.
Proof.
  intros Hwf Hf Hb tax total.
  apply Qabs_Qle_condition in Hb.
  set (vb := valueOf base) in *.
  assert (Hrate : (valueOf (Js.num 0.20)
                   == 7205759403792794 # 36028797018963968)%Q)
    by reflexivity.
  destruct (js_mul_roundedTo base (Js.num 0.20) Hwf eq_refl Hf I)
    as (Hwt & _ & _ & Hkt & _).
  destruct (Hkt 38%Z) as [Hft Het]; [| lia |].
  { rewrite Hrate. fold vb. rewrite Qabs_Qmult.
    apply Qle_lt_trans with (1000000000000 * (1 # 4))%Q; [| reflexivity].
    rewrite (Qabs_pos (7205759403792794 # 36028797018963968))
      by discriminate.
    assert (Qabs vb <= 1000000000000)%Q
      by (apply Qabs_Qle_condition; exact Hb).
    pose proof (Qabs_nonneg vb). nra. }
  fold tax in Hwt, Hft, Het. fold vb in Het. rewrite Hrate in Het.
  change (2 ^ (Z.max (38 - 53) emin - 1))%Q with (1 # 65536)%Q in Het.
  apply Qabs_Qle_condition in Het.
  set (vt := valueOf tax) in *.
  destruct (js_add_roundedTo base tax Hwf Hwt Hf Hft)
    as (_ & _ & _ & Hk & _).
  destruct (Hk 41%Z) as [Hfs Hes]; [| lia |].
  { fold vb vt.
    apply Qle_lt_trans with 2000000000000%Q; [| reflexivity].
    apply Qabs_Qle_condition. split; lra. }
  fold total in Hfs, Hes. fold vb vt in Hes.
  change (2 ^ (Z.max (41 - 53) emin - 1))%Q with (1 # 8192)%Q in Hes.
  apply Qabs_Qle_condition in Hes.
  split; [exact Hft |]. split; [exact Hfs |].
  split; [apply Qabs_Qle_condition; split; lra |].
  split; [apply Qabs_Qle_condition; split; lra |].
  apply Qabs_Qle_condition. split; lra.
Qed.



(** C7, amended.  [calculateTotals] rounds none of its fields to minor
    units: the subtotal is the running sum of the line totals, the total
    discount the sum of the two discounts, the tax the product by 0.20 of
    the subtotal minus the total discount, and the total that base plus
    the tax, each operation giving the nearest binary64 number.  For
    prices of the format and a finite base of at most 10^12 in absolute
    value, the total is within 0.0002 of the base times 1.2, hence within
    one minor unit of that product rounded to the nearest minor unit. *)
Theorem totals_unrounded_and_near_rounded (selectedClient : option Client.t)
    (orderItems : list OrderItem.t) (promoCode : Js.str) :
  let t := calculateTotals selectedClient orderItems promoCode in
  let base := Js.sub (subTotal t) (totalDiscount t) in
  let exact := (valueOf base * (1 + 0.20))%Q in
  subTotal t = runningSum (map lineTotal orderItems)
  /\ totalDiscount t
     = Js.add (discountAt (subTotal t)
                 match selectedClient with
                 | Some c => tierRate (Client.tier c) (subTotal t)
                 | None => None
                 end)
              (discountAt (subTotal t) (promoRate promoCode))
  /\ tax t = Js.mul base (Js.num 0.20)
  /\ totalAmount t = Js.add base (tax t)
  /\ (Forall (fun item => wellFormed (OrderItem.price item)) orderItems ->
      finite base -> (Qabs (valueOf base) <= 1000000000000)%Q ->
      finite (tax t) /\ finite (totalAmount t)
      /\ (Qabs (valueOf (totalAmount t) - exact) <= 1 # 5000)%Q
      /\ (Qabs (valueOf (totalAmount t) - roundMinor exact) <= 1 # 100)%Q).
Proof.
  intros t base exact.
  split; [apply subTotal_sum |].
  split.
  { change (totalDiscount t)
      with (Js.add (tierDiscount t) (promoDiscount t)).
    unfold t. rewrite tierDiscount_rate, promoDiscount_rate. reflexivity. }
  split; [reflexivity |]. split; [reflexivity |].
  intros Hp Hf Hb.
  destruct (wellFormed_totals selectedClient orderItems promoCode Hp)
    as (_ & _ & Hwf).
  destruct (tax_and_total_of_base base Hwf Hf Hb)
    as (Hft & Hfs & _ & _ & He).
  split; [exact Hft |]. split; [exact Hfs |]. split; [exact He |].
  change (Js.add base (Js.mul base (Js.num 0.20))) with (totalAmount t) in He.
  fold exact in He.
  destruct (roundMinor_close exact) as [H1 H2].
  apply Qabs_Qle_condition in He. apply Qabs_Qle_condition. split; lra.
Qed.

Lemma totals_unrounded_and_near_rounded_witness :
  let t := calculateTotals None [Sample.line 1 799.99 1 5] [] in
  let base := Js.sub (subTotal t) (totalDiscount t) in
  totalAmount t = Js.num 959.988
  /\ (Qabs (valueOf (totalAmount t) - valueOf base * (1 + 0.20))
      <= 1 # 5000)%Q
  /\ (Qabs (valueOf (totalAmount t)
            - roundMinor (valueOf base * (1 + 0.20))) <= 1 # 100)%Q.
Proof.
  cbv zeta. split; [vm_compute; reflexivity |].
  destruct (totals_unrounded_and_near_rounded None
              [Sample.line 1 799.99 1 5] []) as (_ & _ & _ & _ & H).
  destruct H as (_ & _ & H1 & H2).
  - repeat constructor.
  - exact I.
  - vm_compute. discriminate.
  - split; [exact H1 | exact H2].
Defined.

End PricingClaims.

(* ------------------------------------------------------------------ *)
(** ** Create-order page: the draft and its invariant                   *)
(* ------------------------------------------------------------------ *)

Section Draft.

Import CreateOrderPage.

Lemma sameProduct_iff (productId : Z) (item : OrderItem.t) :
  sameProduct productId item = true <-> OrderItem.productId item = productId.
Proof. unfold sameProduct. apply Z.eqb_eq. Qed.

Lemma find_sameProduct_None (productId : Z) (items : list OrderItem.t) :
  find (sameProduct productId) items = None
  <-> ~ In productId (map OrderItem.productId items).
Proof.
  induction items as [| it r IH]; simpl.
  - tauto.
  - destruct (sameProduct productId it) eqn:E.
    + apply sameProduct_iff in E. split; [discriminate | intro H; tauto].
    + rewrite IH. split.
      * intros H [H1 | H1]; [| tauto].
        apply sameProduct_iff in H1. congruence.
      * tauto.
Qed.

(** Rewriting lines without touching their product identifier keeps the
    identifier list. *)
Lemma map_productId_preserved (f : OrderItem.t -> OrderItem.t)
    (items : list OrderItem.t) :
  (forall it, OrderItem.productId (f it) = OrderItem.productId it) ->
  map OrderItem.productId (map f items) = map OrderItem.productId items.
Proof.
  intro Hf. rewrite map_map. apply map_ext. exact Hf.
Qed.

Lemma updateQuantity_ids (items : list OrderItem.t) (productId delta : Z) :
  map OrderItem.productId (updateQuantity items productId delta)
  = map OrderItem.productId items.
Proof.
  apply map_productId_preserved. intro it.
  destruct (sameProduct productId it); reflexivity.
Qed.

Lemma addItem_ids (items : list OrderItem.t) (product : Product.t) :
  map OrderItem.productId (addItem items product)
  = if notInDraft items product
    then map OrderItem.productId items ++ [Product.id product]
    else map OrderItem.productId items.
Proof.
  unfold addItem, notInDraft.
  destruct (find (sameProduct (Product.id product)) items) as [ex |].
  - destruct (OrderItem.quantity ex <? Product.stock product)%Z;
      [| reflexivity].
    apply map_productId_preserved. intro it.
    destruct (sameProduct (Product.id product) it); reflexivity.
  - rewrite map_app. reflexivity.
Qed.

Lemma NoDup_snoc {A : Type} (l : list A) (a : A) :
  NoDup l -> ~ In a l -> NoDup (l ++ [a]).
Proof.
  intros Hl Ha. induction Hl as [| x r Hx Hr IH]; simpl.
  - constructor; [tauto | constructor].
  - constructor.
    + rewrite in_app_iff. simpl. intros [H | [H | []]]; [tauto |].
      subst. apply Ha. left. reflexivity.
    + apply IH. intro H. apply Ha. right. exact H.
Qed.

Lemma NoDup_map_filter {A B : Type} (g : A -> B) (f : A -> bool)
    (l : list A) :
  NoDup (map g l) -> NoDup (map g (filter f l)).
Proof.
  induction l as [| x r IH]; simpl; intro H; [constructor |].
  inversion H as [| ? ? Hx Hr]; subst.
  destruct (f x); simpl; [| auto].
  constructor; [| auto].
  intro Hin. apply Hx. apply in_map_iff in Hin.
  destruct Hin as (y & Hy & Hin). apply filter_In in Hin.
  apply in_map_iff. exists y. tauto.
Qed.

(** With distinct identifiers, the line found for a product is the only
    line of that product. *)
Lemma find_unique (items : list OrderItem.t) (productId : Z)
    (ex it : OrderItem.t) :
  NoDup (map OrderItem.productId items) ->
  find (sameProduct productId) items = Some ex ->
  In it items -> OrderItem.productId it = productId -> it = ex.
Proof.
  induction items as [| x r IH]; simpl; intros Hnd Hf Hin Hid; [tauto |].
  inversion Hnd as [| ? ? Hx Hr]; subst.
  destruct (sameProduct (OrderItem.productId it) x) eqn:E.
  - injection Hf as <-. apply sameProduct_iff in E.
    destruct Hin as [-> | Hin]; [reflexivity |].
    exfalso. apply Hx. rewrite E. apply in_map. exact Hin.
  - destruct Hin as [-> | Hin].
    + unfold sameProduct in E. rewrite Z.eqb_refl in E. discriminate.
    + apply IH; auto.
Qed.

Lemma addItem_ok (items : list OrderItem.t) (product : Product.t) :
  draftOk items -> listed items product -> draftOk (addItem items product).
Proof.
  intros [Hnd Hall] [Hstock Hrec]. split.
  - rewrite addItem_ids. unfold notInDraft.
    destruct (find (sameProduct (Product.id product)) items) eqn:E;
      [exact Hnd |].
    apply NoDup_snoc; [exact Hnd |].
    apply find_sameProduct_None. exact E.
  - unfold addItem.
    destruct (find (sameProduct (Product.id product)) items) as [ex |] eqn:E.
    + destruct (Z.ltb_spec (OrderItem.quantity ex) (Product.stock product))
        as [Hlt | Hge]; [| exact Hall].
      rewrite Forall_forall in *. intros it' Hin'.
      apply in_map_iff in Hin'. destruct Hin' as (it & <- & Hin).
      destruct (sameProduct (Product.id product) it) eqn:S; [| auto].
      apply sameProduct_iff in S.
      assert (it = ex) by (eapply find_unique; eauto). subst it.
      pose proof (Hall ex Hin) as Hq. pose proof (Hrec ex Hin S) as Hs.
      unfold lineOk in *. simpl. lia.
    + apply Forall_app. split; [exact Hall |].
      constructor; [| constructor]. unfold lineOk. simpl. lia.
Qed.

Lemma updateQuantity_ok (items : list OrderItem.t) (productId delta : Z) :
  draftOk items -> draftOk (updateQuantity items productId delta).
Proof.
  intros [Hnd Hall]. split.
  - rewrite updateQuantity_ids. exact Hnd.
  - unfold updateQuantity. rewrite Forall_forall in *.
    intros it' Hin'. apply in_map_iff in Hin'.
    destruct Hin' as (it & <- & Hin). pose proof (Hall it Hin) as Hq.
    destruct (sameProduct productId it); [| exact Hq].
    unfold lineOk in *. simpl. lia.
Qed.

Lemma removeItem_ok (items : list OrderItem.t) (productId : Z) :
  draftOk items -> draftOk (removeItem items productId).
Proof.
  intros [Hnd Hall]. split.
  - apply NoDup_map_filter. exact Hnd.
  - unfold removeItem. rewrite Forall_forall in *.
    intros it Hin. apply filter_In in Hin. apply Hall. tauto.
Qed.

(** What the page guarantees when the "add" button of a product is
    clicked. *)
Lemma clickable_listed (productsData : list Product.t)
    (items : list OrderItem.t) (product : Product.t) :
  clickable (loadData productsData) items (AddItem product) ->
  listed items product.
Proof.
  intros [Hin Hnot]. unfold loadData in Hin. apply filter_In in Hin.
  destruct Hin as [_ Hst]. apply Z.ltb_lt in Hst. split; [lia |].
  intros it Hit Hid. exfalso.
  unfold notInDraft in Hnot.
  destruct (find (sameProduct (Product.id product)) items) eqn:E;
    [discriminate |].
  apply find_sameProduct_None in E. apply E.
  rewrite <- Hid. apply in_map. exact Hit.
Qed.

Lemma reachable_ok (productsData : list Product.t)
    (items : list OrderItem.t) :
  reachable (loadData productsData) items -> draftOk items.
Proof.
  induction 1 as [| items e Hr IH Hc].
  - split; constructor.
  - destruct e as [product | productId delta | productId]; simpl.
    + apply addItem_ok; [exact IH |].
      eapply clickable_listed. exact Hc.
    + apply updateQuantity_ok. exact IH.
    + apply removeItem_ok. exact IH.
Qed.

End Draft.

Section DraftClaims.

Import CreateOrderPage.

Lemma lineIdentity_withQuantity (it : OrderItem.t) (q : Z) :
  lineIdentity (withQuantity it q) = lineIdentity it.
Proof. reflexivity. Qed.

(** [addItem] for a product that already has a line. *)
Lemma addItem_existing (items : list OrderItem.t) (product : Product.t)
    (it : OrderItem.t) :
  NoDup (map OrderItem.productId items) ->
  In it items -> OrderItem.productId it = Product.id product ->
  map lineIdentity (addItem items product) = map lineIdentity items
  /\ ((OrderItem.quantity it < Product.stock product)%Z ->
      exists it',
        In it' (addItem items product)
        /\ lineIdentity it' = lineIdentity it
        /\ OrderItem.quantity it' = (OrderItem.quantity it + 1)%Z)
  /\ ((Product.stock product <= OrderItem.quantity it)%Z ->
      addItem items product = items)
  /\ (forall other,
        In other items ->
        OrderItem.productId other <> Product.id product ->
        In other (addItem items product)).
Proof.
  intros Hnd Hin Hid.
  assert (Hfind : find (sameProduct (Product.id product)) items = Some it).
  { destruct (find (sameProduct (Product.id product)) items) as [ex |] eqn:E.
    - f_equal. symmetry. eapply find_unique; eauto.
    - apply find_sameProduct_None in E. exfalso. apply E.
      rewrite <- Hid. apply in_map. exact Hin. }
  unfold addItem. rewrite Hfind.
  destruct (Z.ltb_spec (OrderItem.quantity it) (Product.stock product))
    as [Hlt | Hge].
  - split; [| split; [| split]].
    + rewrite map_map. apply map_ext. intro a.
      destruct (sameProduct (Product.id product) a); reflexivity.
    + intros _. exists (withQuantity it (OrderItem.quantity it + 1)).
      split; [| split; reflexivity].
      apply in_map_iff. exists it. split; [| exact Hin].
      apply sameProduct_iff in Hid. rewrite Hid. reflexivity.
    + intro H. lia.
    + intros other Ho Hne. apply in_map_iff. exists other.
      split; [| exact Ho].
      destruct (sameProduct (Product.id product) other) eqn:E;
        [| reflexivity].
      apply sameProduct_iff in E. contradiction.
  - split; [reflexivity |]. split; [intro H; lia |].
    split; [reflexivity | auto].
Qed.

(** [updateQuantity] on the line of a product. *)
Lemma updateQuantity_clamps (items : list OrderItem.t)
    (productId delta : Z) (it : OrderItem.t) :
  In it items -> OrderItem.productId it = productId ->
  exists it',
    In it' (updateQuantity items productId delta)
    /\ lineIdentity it' = lineIdentity it
    /\ OrderItem.quantity it'
       = Z.max 1 (Z.min (OrderItem.stock it) (OrderItem.quantity it + delta)).
Proof.
  intros Hin Hid.
  exists (withQuantity it
            (Z.max 1 (Z.min (OrderItem.stock it)
                            (OrderItem.quantity it + delta)))).
  split; [| split; reflexivity].
  unfold updateQuantity. apply in_map_iff. exists it.
  split; [| exact Hin].
  apply sameProduct_iff in Hid. rewrite Hid. reflexivity.
Qed.

Lemma updateQuantity_identities (items : list OrderItem.t)
    (productId delta : Z) :
  map lineIdentity (updateQuantity items productId delta)
  = map lineIdentity items.
Proof.
  unfold updateQuantity. rewrite map_map. apply map_ext. intro a.
  destruct (sameProduct productId a); reflexivity.
Qed.

Lemma updateQuantity_others (items : list OrderItem.t)
    (productId delta : Z) (other : OrderItem.t) :
  In other items -> OrderItem.productId other <> productId ->
  In other (updateQuantity items productId delta).
Proof.
  intros Ho Hne. unfold updateQuantity. apply in_map_iff. exists other.
  split; [| exact Ho].
  destruct (sameProduct productId other) eqn:E; [| reflexivity].
  apply sameProduct_iff in E. contradiction.
Qed.

(** C10.  Every draft the create-order page can reach from the empty
    draft by add, plus/minus and remove clicks has each product on at most
    one line and every quantity between 1 and the stock recorded on the
    line; and from such a draft each of the three handlers leads to such a
    draft again ([addItem] for a product as the page lists it).  [addItem]
    on a product already in the draft appends nothing and changes no line
    but that of the product, whose quantity it raises by exactly one while
    it is below the stock of the product; once the stock is reached it
    leaves the draft unchanged.  [updateQuantity] changes no line but that
    of the product, whose quantity becomes the requested one when that
    lies between 1 and the recorded stock, 1 when it is smaller and the
    recorded stock when it is larger. *)
Theorem draft_lines_unique_and_within_stock (productsData : list Product.t)
    (orderItems : list OrderItem.t)
    (Hreach : reachable (loadData productsData) orderItems) :
  draftOk orderItems
  /\ (forall product, listed orderItems product ->
                      draftOk (addItem orderItems product))
  /\ (forall productId delta,
        draftOk (updateQuantity orderItems productId delta))
  /\ (forall productId, draftOk (removeItem orderItems productId))
  /\ (forall product item,
        In item orderItems ->
        OrderItem.productId item = Product.id product ->
        map lineIdentity (addItem orderItems product)
          = map lineIdentity orderItems
        /\ ((OrderItem.quantity item < Product.stock product)%Z ->
            exists item',
              In item' (addItem orderItems product)
              /\ lineIdentity item' = lineIdentity item
              /\ OrderItem.quantity item'
                 = (OrderItem.quantity item + 1)%Z)
        /\ ((Product.stock product <= OrderItem.quantity item)%Z ->
            addItem orderItems product = orderItems)
        /\ (forall other,
              In other orderItems ->
              OrderItem.productId other <> Product.id product ->
              In other (addItem orderItems product)))
  /\ (forall productId delta item,
        In item orderItems -> OrderItem.productId item = productId ->
        let requested := (OrderItem.quantity item + delta)%Z in
        map lineIdentity (updateQuantity orderItems productId delta)
          = map lineIdentity orderItems
        /\ (exists item',
              In item' (updateQuantity orderItems productId delta)
              /\ lineIdentity item' = lineIdentity item
              /\ (1 <= OrderItem.quantity item' <= OrderItem.stock item)%Z
              /\ ((1 <= requested <= OrderItem.stock item)%Z ->
                  OrderItem.quantity item' = requested)
              /\ ((requested < 1)%Z -> OrderItem.quantity item' = 1%Z)
              /\ ((OrderItem.stock item < requested)%Z ->
                  OrderItem.quantity item' = OrderItem.stock item))
        /\ (forall other,
              In other orderItems ->
              OrderItem.productId other <> productId ->
              In other (updateQuantity orderItems productId delta))).
Proof.
  pose proof (reachable_ok productsData orderItems Hreach) as Hok.
  split; [exact Hok |].
  split; [intros product Hl; apply addItem_ok; assumption |].
  split; [intros productId delta; apply updateQuantity_ok; exact Hok |].
  split; [intros productId; apply removeItem_ok; exact Hok |].
  split.
  - intros product item Hin Hid.
    apply addItem_existing; [apply Hok | exact Hin | exact Hid].
  - intros productId delta item Hin Hid requested.
    split; [apply updateQuantity_identities |].
    split; [| intros other; apply updateQuantity_others].
    destruct (updateQuantity_clamps orderItems productId delta item Hin Hid)
      as (item' & Hin' & Hident & Hq).
    exists item'. split; [exact Hin' |]. split; [exact Hident |].
    destruct Hok as [_ Hall]. rewrite Forall_forall in Hall.
    pose proof (Hall item Hin) as Hline. unfold lineOk in Hline.
    fold requested in Hq. rewrite Hq.
    repeat split; intros; lia.
Qed.

Lemma draft_lines_unique_and_within_stock_witness :
  let draft := handle [] (AddItem Sample.keyboard) in
  reachable (loadData [Sample.keyboard]) draft
  /\ draft = [OrderItem.mk 11 (Js.of_ascii "keyboard") 1 (Js.num 250) 3]
  /\ draftOk draft
  /\ (exists item',
        In item' (addItem draft Sample.keyboard)
        /\ OrderItem.quantity item' = 2%Z)
  /\ (exists item',
        In item' (updateQuantity draft 11 5)
        /\ OrderItem.quantity item' = 3%Z).
Proof.
  intro draft.
  assert (Hr : reachable (loadData [Sample.keyboard]) draft).
  { apply reach_click; [apply reach_empty |].
    split; [left; reflexivity | reflexivity]. }
  split; [exact Hr |]. split; [reflexivity |].
  destruct (draft_lines_unique_and_within_stock [Sample.keyboard] _ Hr)
    as (Hok & _ & _ & _ & Hadd & Hupd).
  split; [exact Hok |]. split.
  - destruct (Hadd Sample.keyboard
                (OrderItem.mk 11 (Js.of_ascii "keyboard") 1 (Js.num 250) 3))
      as (_ & H & _); [left; reflexivity | reflexivity |].
    destruct H as (item' & Hin & _ & Hq); [simpl; lia |].
    exists item'. split; [exact Hin | exact Hq].
  - destruct (Hupd 11%Z 5%Z
                (OrderItem.mk 11 (Js.of_ascii "keyboard") 1 (Js.num 250) 3))
      as (_ & H & _); [left; reflexivity | reflexivity |].
    destruct H as (item' & Hin & _ & _ & _ & _ & Hq).
    exists item'. split; [exact Hin |]. apply Hq. simpl. lia.
Defined.

End DraftClaims.

(* ------------------------------------------------------------------ *)
(** ** Add-payment page: form validation                                *)
(* ------------------------------------------------------------------ *)

Section PaymentForm.

Import AddPaymentPage.

Lemma PaymentMethod_eqb_eq (a b : PaymentMethod) :
  PaymentMethod_eqb a b = true <-> a = b.
Proof. destruct a, b; simpl; split; congruence. Qed.

Lemma whiteSpaceOnly_iff (s : Js.str) :
  forallb Js.isWhiteSpace s = true <-> whiteSpaceOnly s.
Proof. unfold whiteSpaceOnly. rewrite forallb_forall, Forall_forall. tauto. Qed.

Lemma blank_opt_iff (s : option Js.str) :
  Js.blank_opt s = true <-> missing s.
Proof.
  destruct s as [s' |]; simpl; [| tauto].
  rewrite falsy_str_iff, trim_nil_iff. apply whiteSpaceOnly_iff.
Qed.

Lemma falsy_opt_iff (s : option Js.str) :
  Js.falsy_opt s = true <-> absent s.
Proof.
  unfold absent. destruct s as [[| c r] |]; simpl;
    split; intro H; auto; try discriminate;
    destruct H; discriminate.
Qed.

(** The boolean returned by [validate], as one expression over the tests
    the function performs. *)
Lemma validate_result (order : option Order.t)
    (formData : CreatePaymentRequest.t) :
  snd (validate order formData)
  = negb
      ((Js.falsy_number (CreatePaymentRequest.amount formData)
        || Js.le (CreatePaymentRequest.amount formData) (Js.num 0)
        || match order with
           | Some o => Js.gt (CreatePaymentRequest.amount formData)
                             (Order.totalAmount o)
           | None => false
           end)
       || Js.falsy_str (Js.trim (CreatePaymentRequest.reference formData))
       || (PaymentMethod_eqb (CreatePaymentRequest.paymentMethod formData)
                             CHEQUE
           && (Js.blank_opt (CreatePaymentRequest.bank formData)
               || Js.blank_opt (CreatePaymentRequest.chequeNumber formData)
               || Js.falsy_opt (CreatePaymentRequest.dueDate formData)))
       || (PaymentMethod_eqb (CreatePaymentRequest.paymentMethod formData)
                             VIREMENT
           && Js.blank_opt (CreatePaymentRequest.bank formData))).
Proof.
  unfold validate.
  destruct (Js.falsy_number (CreatePaymentRequest.amount formData)
            || Js.le (CreatePaymentRequest.amount formData) (Js.num 0));
    [| destruct order as [o |];
       [destruct (Js.gt (CreatePaymentRequest.amount formData)
                        (Order.totalAmount o)) |]];
    destruct (Js.falsy_str
                (Js.trim (CreatePaymentRequest.reference formData)));
    destruct (CreatePaymentRequest.paymentMethod formData);
    destruct (Js.blank_opt (CreatePaymentRequest.bank formData));
    destruct (Js.blank_opt (CreatePaymentRequest.chequeNumber formData));
    destruct (Js.falsy_opt (CreatePaymentRequest.dueDate formData));
    reflexivity.
Qed.

(** C6, as stated, fails in both directions.  For an order of 120 with a
    pending payment of 70 already recorded, a cash payment of 80 with a
    reference passes [validate] although it exceeds what is left to pay;
    and a cash payment of 50 with an empty reference is refused although
    none of the stated conditions holds. *)
Lemma validate_checks_total_and_reference :
  (snd (validate (Some Sample.order120) (Sample.cash 80 "R-1")) = true
   /\ statedInvalid Sample.order120 [Sample.payment 1 70 EN_ATTENTE]
                    (Sample.cash 80 "R-1"))
  /\ (snd (validate (Some Sample.order120) (Sample.cash 50 "")) = false
      /\ ~ statedInvalid Sample.order120 [Sample.payment 1 70 EN_ATTENTE]
                         (Sample.cash 50 "")).
Proof.
  split; split; try reflexivity.
  - right. left. vm_compute. reflexivity.
  - intros [H | [H | [[H _] | [H _]]]];
      try discriminate; vm_compute in H; congruence.
Qed.

(** [!x || x <= 0] holds for NaN and for the numbers that are at most
    zero. *)
Lemma falsy_or_le_zero_iff (x : Js.number) :
  Js.falsy_number x || Js.le x (Js.num 0) = true
  <-> Js.isNaN x = true \/ Js.le x (Js.num 0) = true.
Proof.
  destruct x as [[|] | [|] | | [|] m e]; simpl; split; intro H;
    try (destruct H; discriminate); try discriminate; auto.
Qed.

(** C6, amended.  [validate] fails exactly when the amount is NaN or at
    most zero, or the order is loaded and the amount exceeds the order
    total (payments already recorded are not taken into account), or the
    reference is empty or white space only, or a method-specific field is
    missing: bank, cheque number or due date for a CHEQUE, bank for a
    VIREMENT.  In every other case it succeeds. *)
Theorem validate_fails_exactly_when (order : option Order.t)
    (formData : CreatePaymentRequest.t) :
  let amount := CreatePaymentRequest.amount formData in
  (snd (validate order formData) = false
   <-> (Js.isNaN amount = true \/ Js.le amount (Js.num 0) = true)
       \/ (exists o, order = Some o
                     /\ Js.lt (Order.totalAmount o) amount = true)
       \/ whiteSpaceOnly (CreatePaymentRequest.reference formData)
       \/ methodFieldMissing formData)
  /\ (snd (validate order formData) = true
      <-> Js.lt (Js.num 0) amount = true
          /\ (forall o, order = Some o ->
                        Js.lt (Order.totalAmount o) amount = false)
          /\ ~ whiteSpaceOnly (CreatePaymentRequest.reference formData)
          /\ ~ methodFieldMissing formData).
Proof.
  intro amount.
  assert (Hfalse :
    snd (validate order formData) = false
    <-> (Js.isNaN amount = true \/ Js.le amount (Js.num 0) = true)
        \/ (exists o, order = Some o
                      /\ Js.lt (Order.totalAmount o) amount = true)
        \/ whiteSpaceOnly (CreatePaymentRequest.reference formData)
        \/ methodFieldMissing formData).
  { rewrite validate_result, negb_false_iff. unfold methodFieldMissing.
    fold amount.
    rewrite !orb_true_iff, !andb_true_iff, !orb_true_iff.
    rewrite <- orb_true_iff, falsy_or_le_zero_iff.
    rewrite falsy_str_iff, trim_nil_iff,
            whiteSpaceOnly_iff, !PaymentMethod_eqb_eq, !blank_opt_iff,
            falsy_opt_iff.
    destruct order as [o |].
    - change (Js.gt amount (Order.totalAmount o))
        with (Js.lt (Order.totalAmount o) amount).
      split.
      + intros [[[[H | H] | H] | H] | H].
        * left. exact H.
        * right. left. exists o. split; [reflexivity | exact H].
        * right. right. left. exact H.
        * right. right. right. left. tauto.
        * right. right. right. right. exact H.
      + intros [H | [(o' & Ho & H) | [H | [H | H]]]].
        * left. left. left. left. exact H.
        * injection Ho as <-. left. left. left. right. exact H.
        * left. left. right. exact H.
        * left. right. tauto.
        * right. exact H.
    - split.
      + intros [[[[H | H] | H] | H] | H].
        * left. exact H.
        * discriminate.
        * right. right. left. exact H.
        * right. right. right. left. tauto.
        * right. right. right. right. exact H.
      + intros [H | [(o' & Ho & H) | [H | [H | H]]]].
        * left. left. left. left. exact H.
        * discriminate.
        * left. left. right. exact H.
        * left. right. tauto.
        * right. exact H. }
  split; [exact Hfalse |].
  assert (Hpos : Js.lt (Js.num 0) amount = true
                 <-> ~ (Js.isNaN amount = true
                        \/ Js.le amount (Js.num 0) = true)).
  { rewrite <- falsy_or_le_zero_iff, falsy_or_le_zero.
    change (Js.gt amount (Js.num 0)) with (Js.lt (Js.num 0) amount).
    destruct (Js.lt (Js.num 0) amount); simpl; split; intro H;
      try reflexivity; try discriminate; try (intro; discriminate).
    exfalso. apply H. reflexivity. }
  destruct (snd (validate order formData)).
  - split; [intros _ | reflexivity].
    assert (Hn : ~ ((Js.isNaN amount = true
                     \/ Js.le amount (Js.num 0) = true)
        \/ (exists o, order = Some o
                      /\ Js.lt (Order.totalAmount o) amount = true)
        \/ whiteSpaceOnly (CreatePaymentRequest.reference formData)
        \/ methodFieldMissing formData)).
    { intro H. apply Hfalse in H. discriminate. }
    split; [apply Hpos; tauto |].
    split; [| tauto].
    intros o Ho. apply not_true_is_false. intro H. apply Hn. eauto.
  - split; [discriminate |].
    intros (Ha & Ht & Hr & Hm).
    destruct (proj1 Hfalse eq_refl) as [H | [(o & Ho & H) | [H | H]]];
      try contradiction.
    + exfalso. apply Hpos in Ha. contradiction.
    + exfalso. rewrite (Ht o Ho) in H. discriminate.
Qed.

End PaymentForm.

(* ------------------------------------------------------------------ *)
(** ** Evaluation checks                                                *)
(* ------------------------------------------------------------------ *)

Section Checks.

Import CreateOrderPage.

(** The literals of the source as binary64 numbers, and the sum every
    engine prints as 0.30000000000000004. *)
Example number_literals :
  Js.num 0.05 = S754_finite false 7205759403792794 (-57)
  /\ Js.num 0.10 = S754_finite false 7205759403792794 (-56)
  /\ Js.num 0.15 = S754_finite false 5404319552844595 (-55)
  /\ Js.num 0.20 = S754_finite false 7205759403792794 (-55)
  /\ Js.num 500 = S754_finite false 8796093022208000 (-44)
  /\ Js.num 500 = Js.ofZ 500
  /\ Js.add (Js.num 0.1) (Js.num 0.2) = Js.num 0.30000000000000004
  /\ Js.add (Js.num 0.1) (Js.num 0.2) <> Js.num 0.3
  /\ Js.num 1e999 = S754_infinity false
  /\ Js.sub (Js.num 1e999) (Js.num 1e999) = S754_nan.
Proof.
  repeat split; try (vm_compute; reflexivity).
  intro H. vm_compute in H. discriminate.
Qed.

Example trim_strips_both_ends :
  Js.trim (Js.of_ascii "  R-1 ") = Js.of_ascii "R-1"
  /\ Js.trim (Js.of_ascii "a b") = Js.of_ascii "a b"
  /\ Js.trim [160; 9; 8232; 32]%N = [].
Proof. repeat split. Qed.

Example promoRegex_samples :
  promoRegex (Js.of_ascii "PROMO-AB12") = true
  /\ promoRegex (Js.of_ascii "PROMO-0000") = true
  /\ promoRegex (Js.of_ascii "PROMO-ab12") = false
  /\ promoRegex (Js.of_ascii "PROMO-AB1") = false
  /\ promoRegex (Js.of_ascii "PROMO-AB123") = false
  /\ promoRegex (Js.of_ascii "XPROMO-AB12") = false
  /\ promoRegex (Js.of_ascii "PROMO_AB12") = false
  /\ promoRegex [] = false.
Proof. repeat split. Qed.

Example totals_platinum_with_promo :
  let t := calculateTotals (Some Sample.platinumClient)
             [Sample.line 1 100 3 5; Sample.line 2 250 4 9] Sample.promo in
  subTotal t = Js.num 1300 /\ tierDiscount t = Js.num 195
  /\ promoDiscount t = Js.num 65 /\ totalDiscount t = Js.num 260
  /\ tax t = Js.num 208 /\ totalAmount t = Js.num 1248.
Proof. repeat split; vm_compute; reflexivity. Qed.

Example totals_empty_draft :
  let t := calculateTotals None [] [] in
  subTotal t = Js.num 0 /\ totalDiscount t = Js.num 0 /\ tax t = Js.num 0
  /\ totalAmount t = Js.num 0.
Proof. repeat split; vm_compute; reflexivity. Qed.

(** Amounts on which the binary64 results show: a subtotal that misses
    500 by one unit in the last place, a tax and a total at 799.99, and a
    total discount that is not the subtotal times the sum of the rates. *)
Example totals_in_binary64 :
  (let t := calculateTotals (Some Sample.silverClient)
              [Sample.line 1 1.70 1 5; Sample.line 2 166.10 3 5] [] in
   subTotal t = Js.num 499.99999999999994 /\ tierDiscount t = Js.num 0
   /\ totalAmount t = Js.num 600)
  /\ (let t := calculateTotals None [Sample.line 1 799.99 1 5] [] in
      tax t = Js.num 159.99800000000002
      /\ totalAmount t = Js.num 959.988
      /\ Js.mul (Js.num 799.99) (Js.num 1.2) = Js.num 959.9879999999999)
  /\ (let t := calculateTotals (Some Sample.platinumClient)
                 [Sample.line 1 2169.26 1 5] Sample.promo in
      tierDiscount t = Js.num 325.389
      /\ promoDiscount t = Js.num 108.46300000000002
      /\ totalDiscount t = Js.num 433.85200000000003
      /\ Js.mul (Js.num 2169.26) (Js.num 0.2) = Js.num 433.8520000000001)
  /\ (let t := calculateTotals (Some Sample.silverClient)
                 [Sample.line 1 264.63 1 5; Sample.line 2 195.29 1 5;
                  Sample.line 3 40.08 1 5] [] in
      subTotal t = Js.num 499.99999999999994
      /\ tierDiscount t = Js.num 0 /\ totalAmount t = Js.num 600)
  /\ (let t := calculateTotals (Some Sample.silverClient)
                 [Sample.line 1 264.63 1 5; Sample.line 2 40.08 1 5;
                  Sample.line 3 195.29 1 5] [] in
      subTotal t = Js.num 500 /\ tierDiscount t = Js.num 25
      /\ totalAmount t = Js.num 570).
Proof. repeat split; vm_compute; reflexivity. Qed.

(** Cleared payments whose amounts add up to the order total: the
    computed remaining amount depends on their order. *)
Example remaining_amount_in_binary64 :
  let o := Sample.orderOf 401 PENDING in
  let a := Sample.payment 1 198.84 ENCAISSE in
  let b := Sample.payment 2 11.71 ENCAISSE in
  let c := Sample.payment 3 190.45 ENCAISSE in
  OrderDetailPage.remainingAmount (Some o) [a; b; c] = Js.num 0
  /\ OrderDetailPage.offered (Sample.pageOf o [a; b; c])
       OrderDetailPage.Confirm = true
  /\ OrderDetailPage.remainingAmount (Some o) [a; c; b]
     = Js.num 5.684341886080802e-14
  /\ OrderDetailPage.offered (Sample.pageOf o [a; c; b])
       OrderDetailPage.Confirm = false
  /\ OrderDetailPage.totalPaid
       [Sample.payment 1 0.1 ENCAISSE; Sample.payment 2 0.2 ENCAISSE;
        Sample.payment 3 0.3 ENCAISSE]
     = Js.num 0.6000000000000001
  /\ OrderDetailPage.totalPaid
       [Sample.payment 3 0.3 ENCAISSE; Sample.payment 2 0.2 ENCAISSE;
        Sample.payment 1 0.1 ENCAISSE]
     = Js.num 0.6.
Proof. repeat split; vm_compute; reflexivity. Qed.

Example addItem_then_plus_minus :
  updateQuantity (addItem [] Sample.keyboard) 11 5
    = [OrderItem.mk 11 (Js.of_ascii "keyboard") 3 (Js.num 250) 3]
  /\ updateQuantity (addItem [] Sample.keyboard) 11 (-1)
     = [OrderItem.mk 11 (Js.of_ascii "keyboard") 1 (Js.num 250) 3]
  /\ addItem (addItem [] Sample.keyboard) Sample.keyboard
     = [OrderItem.mk 11 (Js.of_ascii "keyboard") 2 (Js.num 250) 3]
  /\ removeItem (addItem [] Sample.keyboard) 11 = [].
Proof. repeat split. Qed.

Example cheque_without_number_is_refused :
  AddPaymentPage.validate (Some Sample.order120)
    (CreatePaymentRequest.mk 7 (Js.num 50) CHEQUE (Js.of_ascii "R-2")
       (Some (Js.of_ascii "BMCE")) (Some []) (Some (Js.of_ascii "2026-01-31")))
  = (AddPaymentPage.mkErrors None None None
       (Some "Cheque number is required"%string) None,
     false).
Proof. vm_compute. reflexivity. Qed.

Example amount_above_total_is_refused :
  AddPaymentPage.validate (Some Sample.order120) (Sample.cash 121 "R-3")
  = (AddPaymentPage.mkErrors
       (Some "Amount cannot exceed order total"%string) None None None None,
     false).
Proof. vm_compute. reflexivity. Qed.

(** An amount that is not a number is refused like a zero amount. *)
Example amount_NaN_is_refused :
  AddPaymentPage.validate (Some Sample.order120)
    (CreatePaymentRequest.mk 7 S754_nan ESPECES (Js.of_ascii "R-4")
       None None None)
  = (AddPaymentPage.mkErrors
       (Some "Amount must be greater than 0"%string) None None None None,
     false).
Proof. vm_compute. reflexivity. Qed.

Example client_user_sees_no_status_action :
  OrderDetailPage.render
    (OrderDetailPage.mkState
       (Some (User.mk 2 (Js.of_ascii "amal") CLIENT))
       (Some Sample.order120)
       [Sample.payment 1 70 EN_ATTENTE] false None false)
  = [OrderDetailPage.mkButton OrderDetailPage.AddPayment false;
     OrderDetailPage.mkButton OrderDetailPage.AddPayment false].
Proof. vm_compute. reflexivity. Qed.

Example admin_with_open_balance :
  OrderDetailPage.render (Sample.page [Sample.payment 1 70 EN_ATTENTE])
  = [OrderDetailPage.mkButton OrderDetailPage.Cancel false;
     OrderDetailPage.mkButton OrderDetailPage.AddPayment false;
     OrderDetailPage.mkButton (OrderDetailPage.Encash 1) false;
     OrderDetailPage.mkButton (OrderDetailPage.Reject 1) false;
     OrderDetailPage.mkButton OrderDetailPage.AddPayment false;
     OrderDetailPage.mkButton OrderDetailPage.Confirm true;
     OrderDetailPage.mkButton OrderDetailPage.Cancel false].
Proof. vm_compute. reflexivity. Qed.

End Checks.

(* ------------------------------------------------------------------ *)
(** ** Create-order page: handlers, product list and totals together     *)
(* ------------------------------------------------------------------ *)

Section DraftAlgebra.

Import CreateOrderPage.

Lemma filter_none {A : Type} (f : A -> bool) (l : list A) :
  (forall x, In x l -> f x = true) -> filter f l = l.
Proof.
  induction l as [| x r IH]; simpl; intro H; [reflexivity |].
  rewrite (H x (or_introl eq_refl)). f_equal. apply IH.
  intros y Hy. apply H. right. exact Hy.
Qed.

Lemma notInDraft_iff (items : list OrderItem.t) (product : Product.t) :
  notInDraft items product = true
  <-> ~ In (Product.id product) (map OrderItem.productId items).
Proof.
  unfold notInDraft. rewrite <- find_sameProduct_None.
  destruct (find (sameProduct (Product.id product)) items);
    split; congruence.
Qed.

Lemma addItem_new (items : list OrderItem.t) (product : Product.t) :
  notInDraft items product = true ->
  addItem items product = items ++ [newLine product].
Proof.
  unfold notInDraft, addItem.
  destruct (find (sameProduct (Product.id product)) items);
    [discriminate | reflexivity].
Qed.

Lemma removeItem_absent (items : list OrderItem.t) (productId : Z) :
  ~ In productId (map OrderItem.productId items) ->
  removeItem items productId = items.
Proof.
  intro H. unfold removeItem. apply filter_none. intros it Hit.
  apply negb_true_iff. destruct (sameProduct productId it) eqn:E;
    [| reflexivity].
  apply sameProduct_iff in E. exfalso. apply H. rewrite <- E.
  apply in_map. exact Hit.
Qed.

(** X1.  A product taken from the list the page shows ([filteredProducts],
    whatever the search text and the case folding) is a loaded product
    that is not in the draft, so clicking its add button always appends a
    fresh line of quantity one at the end of the draft: from the page,
    [addItem] never takes its increment branch. *)
Theorem listed_product_is_appended (toLowerCase : Js.str -> Js.str)
    (products : list Product.t) (orderItems : list OrderItem.t)
    (productSearch : Js.str) (product : Product.t)
    (Hin : In product
              (filteredProducts toLowerCase products orderItems
                                productSearch)) :
  In product products
  /\ ~ In (Product.id product) (map OrderItem.productId orderItems)
  /\ addItem orderItems product = orderItems ++ [newLine product]
  /\ ~ In product
         (filteredProducts toLowerCase products
            (addItem orderItems product) productSearch).
Proof.
  unfold filteredProducts in Hin. apply filter_In in Hin.
  destruct Hin as [Hp Hf]. apply andb_true_iff in Hf.
  destruct Hf as [_ Hn].
  split; [exact Hp |]. split; [apply notInDraft_iff, Hn |].
  split; [apply addItem_new, Hn |].
  intro H. unfold filteredProducts in H. apply filter_In in H.
  destruct H as [_ H]. apply andb_true_iff in H. destruct H as [_ H].
  apply notInDraft_iff in H. apply H.
  rewrite (addItem_new _ _ Hn), map_app, in_app_iff. right. left.
  reflexivity.
Qed.

Lemma listed_product_is_appended_witness :
  In Sample.keyboard
     (filteredProducts (fun s => s) [Sample.keyboard] []
                       (Js.of_ascii "key"))
  /\ addItem [] Sample.keyboard = [newLine Sample.keyboard].
Proof.
  assert (H : In Sample.keyboard
                 (filteredProducts (fun s => s) [Sample.keyboard] []
                                   (Js.of_ascii "key")))
    by (left; reflexivity).
  split; [exact H |].
  destruct (listed_product_is_appended (fun s => s) [Sample.keyboard] []
              (Js.of_ascii "key") Sample.keyboard H) as (_ & _ & E & _).
  exact E.
Defined.

(** X2.  Adding a product that is not in the draft and removing it again
    gives back the draft; removing a product leaves no line for it, makes
    it addable again, and is the identity when the product is not in the
    draft (so removing twice is removing once). *)
Theorem add_then_remove_restores_draft (orderItems : list OrderItem.t) :
  (forall product,
     notInDraft orderItems product = true ->
     removeItem (addItem orderItems product) (Product.id product)
     = orderItems)
  /\ (forall productId,
        ~ In productId
             (map OrderItem.productId (removeItem orderItems productId)))
  /\ (forall product,
        notInDraft (removeItem orderItems (Product.id product)) product
        = true)
  /\ (forall productId,
        ~ In productId (map OrderItem.productId orderItems) ->
        removeItem orderItems productId = orderItems)
  /\ (forall productId,
        removeItem (removeItem orderItems productId) productId
        = removeItem orderItems productId).
Proof.
  assert (Hgone : forall productId,
            ~ In productId
                 (map OrderItem.productId (removeItem orderItems productId))).
  { intros productId H. apply in_map_iff in H.
    destruct H as (it & Hid & Hin). unfold removeItem in Hin.
    apply filter_In in Hin. destruct Hin as [_ Hin].
    apply negb_true_iff in Hin. apply sameProduct_iff in Hid. congruence. }
  split.
  { intros product Hn. rewrite (addItem_new _ _ Hn).
    unfold removeItem. rewrite filter_app. simpl.
    unfold sameProduct at 2. simpl. rewrite Z.eqb_refl. simpl.
    rewrite app_nil_r. apply removeItem_absent.
    apply notInDraft_iff, Hn. }
  split; [exact Hgone |].
  split; [intro product; apply notInDraft_iff, Hgone |].
  split; [intros productId; apply removeItem_absent |].
  intro productId. apply removeItem_absent, Hgone.
Qed.

Lemma withQuantity_same (it : OrderItem.t) :
  withQuantity it (OrderItem.quantity it) = it.
Proof. destruct it. reflexivity. Qed.

Lemma updateQuantity_twice (items : list OrderItem.t)
    (productId d1 d2 : Z) :
  (forall it, In it items -> OrderItem.productId it = productId ->
     Z.max 1 (Z.min (OrderItem.stock it)
                (Z.max 1 (Z.min (OrderItem.stock it)
                                (OrderItem.quantity it + d1)) + d2))
     = OrderItem.quantity it) ->
  updateQuantity (updateQuantity items productId d1) productId d2 = items.
Proof.
  intro H. unfold updateQuantity. rewrite map_map.
  rewrite <- (map_id items) at 2. apply map_ext_in. intros it Hit.
  destruct (sameProduct productId it) eqn:E; [| rewrite E; reflexivity].
  unfold sameProduct in E |- *. simpl. rewrite E. unfold withQuantity.
  simpl. apply Z.eqb_eq in E. rewrite (H it Hit E).
  destruct it. reflexivity.
Qed.

(** X3.  On a draft whose quantities lie within stock, plus followed by
    minus gives back the draft when the product's quantity was below its
    stock, and minus followed by plus when it was above one; at the stock
    the plus button changes nothing, at quantity one the minus button
    changes nothing. *)
Theorem plus_minus_cancel (orderItems : list OrderItem.t) (productId : Z)
    (Hok : Forall lineOk orderItems) :
  ((forall it, In it orderItems -> OrderItem.productId it = productId ->
               (OrderItem.quantity it < OrderItem.stock it)%Z) ->
   updateQuantity (updateQuantity orderItems productId 1) productId (-1)
   = orderItems)
  /\ ((forall it, In it orderItems -> OrderItem.productId it = productId ->
                  (1 < OrderItem.quantity it)%Z) ->
      updateQuantity (updateQuantity orderItems productId (-1)) productId 1
      = orderItems)
  /\ ((forall it, In it orderItems -> OrderItem.productId it = productId ->
                  OrderItem.quantity it = OrderItem.stock it) ->
      updateQuantity orderItems productId 1 = orderItems)
  /\ ((forall it, In it orderItems -> OrderItem.productId it = productId ->
                  OrderItem.quantity it = 1%Z) ->
      updateQuantity orderItems productId (-1) = orderItems).
Proof.
  rewrite Forall_forall in Hok. unfold lineOk in Hok.
  assert (Hone : forall d,
            (forall it, In it orderItems ->
               OrderItem.productId it = productId ->
               Z.max 1 (Z.min (OrderItem.stock it)
                              (OrderItem.quantity it + d))
               = OrderItem.quantity it) ->
            updateQuantity orderItems productId d = orderItems).
  { intros d H. unfold updateQuantity.
    rewrite <- (map_id orderItems) at 2. apply map_ext_in. intros it Hit.
    destruct (sameProduct productId it) eqn:E; [| reflexivity].
    apply sameProduct_iff in E. rewrite (H it Hit E).
    apply withQuantity_same. }
  split; [| split; [| split]].
  - intro H. apply updateQuantity_twice. intros it Hit Hid.
    pose proof (Hok it Hit). pose proof (H it Hit Hid). lia.
  - intro H. apply updateQuantity_twice. intros it Hit Hid.
    pose proof (Hok it Hit). pose proof (H it Hit Hid). lia.
  - intro H. apply Hone. intros it Hit Hid.
    pose proof (Hok it Hit). pose proof (H it Hit Hid). lia.
  - intro H. apply Hone. intros it Hit Hid.
    pose proof (Hok it Hit). pose proof (H it Hit Hid). lia.
Qed.

Lemma plus_minus_cancel_witness :
  Forall lineOk [Sample.line 11 250 2 3]
  /\ updateQuantity (updateQuantity [Sample.line 11 250 2 3] 11 1) 11 (-1)
     = [Sample.line 11 250 2 3].
Proof.
  assert (Hok : Forall lineOk [Sample.line 11 250 2 3]).
  { constructor; [| constructor]. unfold lineOk. simpl. lia. }
  split; [exact Hok |].
  destruct (plus_minus_cancel [Sample.line 11 250 2 3] 11 Hok) as [H _].
  apply H. intros it [<- | []] _. simpl. lia.
Defined.

(** X4.  The three handlers never touch the product, name, price or
    recorded stock of a line and never reorder the draft: plus and minus
    keep every line's identity in place and leave the lines of other
    products as they are, a plus or minus for a product that is not in
    the draft changes nothing, removal keeps exactly the lines of the
    other products, and adding keeps the identities of the existing
    lines in place, at most appending one. *)
Theorem handlers_change_quantities_only (orderItems : list OrderItem.t)
    (productId delta : Z) :
  map lineIdentity (updateQuantity orderItems productId delta)
  = map lineIdentity orderItems
  /\ (forall it, In it orderItems -> OrderItem.productId it <> productId ->
                 In it (updateQuantity orderItems productId delta))
  /\ (~ In productId (map OrderItem.productId orderItems) ->
      updateQuantity orderItems productId delta = orderItems)
  /\ (forall it, In it (removeItem orderItems productId)
                 <-> In it orderItems /\ OrderItem.productId it <> productId)
  /\ (forall product,
        exists added,
          (List.length added <= 1)%nat
          /\ map lineIdentity (addItem orderItems product)
             = map lineIdentity orderItems ++ added).
Proof.
  split; [| split; [| split; [| split]]].
  - unfold updateQuantity. rewrite map_map. apply map_ext. intro it.
    destruct (sameProduct productId it); reflexivity.
  - intros it Hit Hne. unfold updateQuantity. apply in_map_iff.
    exists it. split; [| exact Hit].
    destruct (sameProduct productId it) eqn:E; [| reflexivity].
    apply sameProduct_iff in E. contradiction.
  - intro H. unfold updateQuantity.
    rewrite <- (map_id orderItems) at 2. apply map_ext_in. intros it Hit.
    destruct (sameProduct productId it) eqn:E; [| reflexivity].
    apply sameProduct_iff in E. exfalso. apply H. rewrite <- E.
    apply in_map. exact Hit.
  - intro it. unfold removeItem. rewrite filter_In, negb_true_iff.
    destruct (sameProduct productId it) eqn:E.
    + apply sameProduct_iff in E. split; [intros [_ H]; discriminate |].
      intros [_ H]. contradiction.
    + split; [| tauto]. intros [H _]. split; [exact H |].
      intro Hid. apply sameProduct_iff in Hid. congruence.
  - intro product. unfold addItem.
    destruct (find (sameProduct (Product.id product)) orderItems)
      as [ex |].
    + exists []. split; [simpl; lia |]. rewrite app_nil_r.
      destruct (OrderItem.quantity ex <? Product.stock product)%Z;
        [| reflexivity].
      rewrite map_map. apply map_ext. intro it.
      destruct (sameProduct (Product.id product) it); reflexivity.
    + exists [lineIdentity (newLine product)].
      split; [simpl; lia |]. rewrite map_app. reflexivity.
Qed.

Lemma js_add_comm (x y : Js.number) : Js.add x y = Js.add y x.
Proof.
  destruct x as [[|] | [|] | | sx mx ex], y as [[|] | [|] | | sy my ey];
    try reflexivity.
  unfold Js.add, SFadd. rewrite (Z.min_comm ey ex). f_equal.
  apply Z.add_comm.
Qed.

Lemma js_add_zero_swap (x y : Js.number) :
  Js.add (Js.add (Js.num 0) x) y = Js.add (Js.add (Js.num 0) y) x.
Proof.
  destruct x as [[|] | [|] | | sx mx ex], y as [[|] | [|] | | sy my ey];
    try reflexivity.
  change (Js.add (Js.num 0) (S754_finite sx mx ex))
    with (S754_finite sx mx ex).
  change (Js.add (Js.num 0) (S754_finite sy my ey))
    with (S754_finite sy my ey).
  apply js_add_comm.
Qed.

Lemma subTotal_after_update (items : list OrderItem.t) (productId delta : Z) :
  map lineTotal (updateQuantity items productId delta)
  = map (fun it =>
           if (OrderItem.productId it =? productId)%Z
           then Js.mul (OrderItem.price it)
                  (Js.ofZ (Z.max 1 (Z.min (OrderItem.stock it)
                                          (OrderItem.quantity it + delta))))
           else lineTotal it) items.
Proof.
  unfold updateQuantity. rewrite map_map. apply map_ext. intro it.
  unfold sameProduct. destruct (OrderItem.productId it =? productId)%Z;
    reflexivity.
Qed.

(** X5.  How the subtotal of the preview follows the draft.  Adding a
    product that is not in the draft changes the subtotal to the binary64
    sum of the old subtotal and the product's price times one, which for
    a price of the format is the sum of the old subtotal and the price;
    removing that product again gives back the old subtotal.  After plus
    or minus the subtotal is the running sum, in draft order, of the line
    totals with the clamped quantity in the lines of that product; after
    a removal it is the running sum of the remaining line totals.  These
    running sums are binary64 sums and are recomputed from the start: on
    the draft of one line at 0.1 and one at 0.2 the subtotal is
    0.30000000000000004, and removing the first line gives 0.2, not the
    old subtotal minus the removed line's total. *)
Theorem subtotal_follows_draft (selectedClient : option Client.t)
    (orderItems : list OrderItem.t) (promoCode : Js.str) :
  let sub items := subTotal (calculateTotals selectedClient items promoCode) in
  (forall product,
     notInDraft orderItems product = true ->
     sub (addItem orderItems product)
     = Js.add (sub orderItems)
              (Js.mul (Product.price product) (Js.ofZ 1))
     /\ (wellFormed (Product.price product) ->
         sub (addItem orderItems product)
         = Js.add (sub orderItems) (Product.price product))
     /\ sub (removeItem (addItem orderItems product) (Product.id product))
        = sub orderItems)
  /\ (forall productId delta,
        sub (updateQuantity orderItems productId delta)
        = runningSum
            (map (fun it =>
                    if (OrderItem.productId it =? productId)%Z
                    then Js.mul (OrderItem.price it)
                           (Js.ofZ (Z.max 1
                                      (Z.min (OrderItem.stock it)
                                             (OrderItem.quantity it + delta))))
                    else lineTotal it) orderItems))
  /\ (forall productId,
        sub (removeItem orderItems productId)
        = runningSum
            (map lineTotal
               (filter (fun it =>
                          negb (OrderItem.productId it =? productId)%Z)
                       orderItems)))
  /\ (let items := [Sample.line 1 0.1 1 5; Sample.line 2 0.2 1 5] in
      sub items = Js.num 0.30000000000000004
      /\ sub (removeItem items 1) = Js.num 0.2
      /\ Js.sub (sub items) (lineTotal (Sample.line 1 0.1 1 5))
         = Js.num 0.20000000000000004).
Proof.
  intro sub. unfold sub.
  split; [| split; [| split]].
  - intros product Hn.
    assert (E : subTotal (calculateTotals selectedClient
                            (addItem orderItems product) promoCode)
                = Js.add (subTotal (calculateTotals selectedClient orderItems
                                      promoCode))
                         (Js.mul (Product.price product) (Js.ofZ 1))).
    { rewrite !subTotal_sum, (addItem_new _ _ Hn), map_app.
      unfold runningSum. rewrite sumFrom_app. reflexivity. }
    split; [exact E |]. split.
    + intro Hw. rewrite E, (js_mul_one _ Hw). reflexivity.
    + rewrite (addItem_new _ _ Hn). unfold removeItem.
      rewrite filter_app. simpl. unfold sameProduct at 2. simpl.
      rewrite Z.eqb_refl. simpl. rewrite app_nil_r.
      fold (removeItem orderItems (Product.id product)).
      rewrite removeItem_absent by (apply notInDraft_iff, Hn).
      reflexivity.
  - intros productId delta. rewrite subTotal_sum, subTotal_after_update.
    reflexivity.
  - intro productId. rewrite subTotal_sum. reflexivity.
  - rewrite !subTotal_sum. repeat split; vm_compute; reflexivity.
Qed.

Lemma calculateTotals_of_subTotal (selectedClient : option Client.t)
    (items items' : list OrderItem.t) (promoCode : Js.str) :
  runningSum (map lineTotal items) = runningSum (map lineTotal items') ->
  calculateTotals selectedClient items promoCode
  = calculateTotals selectedClient items' promoCode.
Proof.
  intro E. unfold calculateTotals.
  rewrite !(fold_left_sumFrom lineTotal).
  fold (runningSum (map lineTotal items)).
  fold (runningSum (map lineTotal items')).
  rewrite E. reflexivity.
Qed.

(** X7.  The preview and the order of the draft lines.  Exchanging the
    first two lines of a draft never changes any field of the preview,
    and neither does reordering a draft of at most two lines.  Beyond
    that the order can matter, the sums being binary64 sums: for a
    SILVER client the lines 264.63, 195.29 and 40.08 give the subtotal
    499.99999999999994 and no discount, the same lines in the order
    264.63, 40.08, 195.29 give the subtotal 500 and a discount of 25. *)
Theorem totals_and_line_order (selectedClient : option Client.t)
    (promoCode : Js.str) :
  (forall a b rest,
     calculateTotals selectedClient (a :: b :: rest) promoCode
     = calculateTotals selectedClient (b :: a :: rest) promoCode)
  /\ (forall items items',
        Permutation items items' -> (List.length items <= 2)%nat ->
        calculateTotals selectedClient items promoCode
        = calculateTotals selectedClient items' promoCode)
  /\ (let x := Sample.line 1 264.63 1 5 in
      let y := Sample.line 2 195.29 1 5 in
      let z := Sample.line 3 40.08 1 5 in
      Permutation [x; y; z] [x; z; y]
      /\ calculateTotals (Some Sample.silverClient) [x; y; z] []
         = {| subTotal := Js.num 499.99999999999994;
              totalDiscount := Js.num 0; tax := Js.num 100;
              totalAmount := Js.num 600; tierDiscount := Js.num 0;
              promoDiscount := Js.num 0 |}
      /\ calculateTotals (Some Sample.silverClient) [x; z; y] []
         = {| subTotal := Js.num 500; totalDiscount := Js.num 25;
              tax := Js.num 95; totalAmount := Js.num 570;
              tierDiscount := Js.num 25; promoDiscount := Js.num 0 |}).
Proof.
  assert (Hswap : forall a b rest,
            calculateTotals selectedClient (a :: b :: rest) promoCode
            = calculateTotals selectedClient (b :: a :: rest) promoCode).
  { intros a b rest. apply calculateTotals_of_subTotal.
    unfold runningSum. cbn [map sumFrom].
    rewrite (js_add_zero_swap (lineTotal a) (lineTotal b)). reflexivity. }
  split; [exact Hswap |]. split.
  - intros items items' Hp Hlen.
    destruct items as [| a [| b [| c r]]]; simpl in Hlen; try lia.
    + apply Permutation_nil in Hp. subst. reflexivity.
    + apply Permutation_length_1_inv in Hp. subst. reflexivity.
    + apply Permutation_length_2_inv in Hp. destruct Hp as [-> | ->];
        [reflexivity | apply Hswap].
  - cbv zeta. split; [apply perm_skip, perm_swap |].
    split; vm_compute; reflexivity.
Qed.

End DraftAlgebra.

Section DraftAccuracy.

Import CreateOrderPage.

Local Open Scope Q_scope.

Lemma exactLineAbs_spec (item : OrderItem.t) :
  Qabs (exactLine item) == exactLineAbs item.
Proof.
  unfold exactLine, exactLineAbs. rewrite Qabs_Qmult, Qabs_inject_Z.
  reflexivity.
Qed.

Lemma Qsum_exactLineAbs_nonneg (items : list OrderItem.t) :
  0 <= Qsum (map exactLineAbs items).
Proof.
  induction items as [| it r IH]; simpl; [apply Qle_refl |].
  pose proof (Qabs_nonneg (exactLine it)) as H.
  rewrite exactLineAbs_spec in H. lra.
Qed.

(** The line totals of plain lines below [2^k]: each is off by at most
    [2^(k-54)] from its exact value. *)
Lemma lineTotals_accuracy (k : Z) (items : list OrderItem.t) :
  (-1021 <= k <= 1023)%Z ->
  Forall plainLine items ->
  Qsum (map exactLineAbs items) < 2 ^ k ->
  Forall wellFormed (map lineTotal items)
  /\ Forall finite (map lineTotal items)
  /\ Qsum (map (fun x => Qabs (valueOf x)) (map lineTotal items))
     <= Qsum (map exactLineAbs items)
        + inject_Z (Z.of_nat (List.length items)) * 2 ^ (k - 54)
  /\ Qabs (Qsum (map valueOf (map lineTotal items))
           - Qsum (map exactLine items))
     <= inject_Z (Z.of_nat (List.length items)) * 2 ^ (k - 54).
Proof.
  intros Hk Hp. induction Hp as [| it r Hit Hr IH]; intro Hb.
  - cbn [map Qsum List.length]. split; [constructor |].
    split; [constructor |].
    change (inject_Z (Z.of_nat 0)) with 0. rewrite Qmult_0_l.
    split; [apply Qle_refl |].
    setoid_replace (0 - 0) with 0 by ring. apply Qle_refl.
  - cbn [map Qsum List.length] in *.
    rewrite Nat2Z.inj_succ. unfold Z.succ.
    rewrite inject_Z_plus. change (inject_Z 1) with 1.
    pose proof (pow2_pos (k - 54)) as Heps.
    set (eps := 2 ^ (k - 54)) in *.
    set (n := inject_Z (Z.of_nat (List.length r))) in *.
    pose proof (Qsum_exactLineAbs_nonneg r) as Hr0.
    pose proof (Qabs_nonneg (exactLine it)) as Hi0.
    pose proof (exactLineAbs_spec it) as Habs.
    destruct Hit as (Hw & Hf & Hq).
    destruct (ofZ_exact _ Hq) as [Hfq Hvq].
    pose proof (wellFormed_ofZ (OrderItem.quantity it)) as Hwq.
    destruct (js_mul_roundedTo _ _ Hw Hwq Hf Hfq)
      as (Hwx & _ & _ & Hk' & _).
    fold (lineTotal it) in Hwx, Hk'.
    assert (Hv : valueOf (OrderItem.price it)
                 * valueOf (Js.ofZ (OrderItem.quantity it))
                 == exactLine it).
    { unfold exactLine. rewrite Hvq. reflexivity. }
    destruct (Hk' k) as [Hfx Hex]; [| lia |].
    { rewrite Hv, Habs. lra. }
    rewrite halfUlp in Hex by lia. fold eps in Hex. rewrite Hv in Hex.
    apply Qabs_Qle_condition in Hex. destruct Hex as [He1 He2].
    destruct IH as (IH1 & IH2 & IH3 & IH4); [lra |].
    fold n in IH3, IH4.
    apply Qabs_Qle_condition in IH4. destruct IH4 as [I1 I2].
    pose proof (Qabs_bounds (exactLine it)) as [Hb1 Hb2].
    rewrite Habs in Hb1, Hb2.
    split; [constructor; assumption |].
    split; [constructor; assumption |].
    split.
    + assert (Hx : Qabs (valueOf (lineTotal it)) <= exactLineAbs it + eps).
      { apply Qabs_Qle_condition. split; lra. }
      lra.
    + apply Qabs_Qle_condition. split; lra.
Qed.

(** X6.  How far the subtotal of the preview is from the exact sum.  For
    a draft of [n] lines whose prices are finite numbers of the format
    and whose quantities are below 2^53, if the sum of the absolute
    values of price times quantity, plus [2n] times [2^(k-54)], is below
    [2^k], then the subtotal is finite and differs from the exact sum of
    price times quantity by at most [2n] times [2^(k-54)]: one rounding
    for each product and one for each addition.  For amounts up to two
    thousand million ([k = 31]) that is [n] times [2^-22], less than a
    quarter of a millionth per line. *)
Theorem subtotal_accuracy (selectedClient : option Client.t)
    (orderItems : list OrderItem.t) (promoCode : Js.str) (k : Z)
    (Hk : (-1021 <= k <= 1023)%Z)
    (Hlines : Forall plainLine orderItems)
    (Hbound : Qsum (map exactLineAbs orderItems)
              + inject_Z (2 * Z.of_nat (List.length orderItems))
                * 2 ^ (k - 54)
              < 2 ^ k) :
  let t := calculateTotals selectedClient orderItems promoCode in
  wellFormed (subTotal t) /\ finite (subTotal t)
  /\ Qabs (valueOf (subTotal t) - Qsum (map exactLine orderItems))
     <= inject_Z (2 * Z.of_nat (List.length orderItems)) * 2 ^ (k - 54).
Proof.
  intro t. unfold t. rewrite subTotal_sum. unfold runningSum.
  rewrite inject_Z_mult in *. change (inject_Z 2) with 2 in *.
  pose proof (pow2_pos (k - 54)) as Heps.
  set (eps := 2 ^ (k - 54)) in *.
  set (n := inject_Z (Z.of_nat (List.length orderItems))) in *.
  assert (Hn : 0 <= n).
  { unfold n. change 0 with (inject_Z 0). rewrite <- Zle_Qle. lia. }
  assert (Hne : 0 <= n * eps) by (apply Qmult_le_0_compat; lra).
  destruct (lineTotals_accuracy k orderItems Hk Hlines)
    as (Hw & Hf & Habs & Herr); [lra |].
  fold eps n in Habs, Herr.
  destruct (sumFrom_accuracy k (map lineTotal orderItems) (Js.num 0) Hk
              eq_refl I Hw Hf) as (Hws & Hfs & Hes).
  { rewrite length_map. fold eps n.
    change (Qabs (valueOf (Js.num 0))) with 0. lra. }
  rewrite length_map in Hes. fold eps n in Hes.
  change (valueOf (Js.num 0)) with 0 in Hes.
  split; [exact Hws |]. split; [exact Hfs |].
  apply Qabs_Qle_condition in Hes. destruct Hes as [H1 H2].
  apply Qabs_Qle_condition in Herr. destruct Herr as [H3 H4].
  apply Qabs_Qle_condition. split; lra.
Qed.

Lemma subtotal_accuracy_witness :
  let items := [Sample.line 1 1.70 1 5; Sample.line 2 166.10 3 5] in
  let t := calculateTotals (Some Sample.silverClient) items [] in
  Forall plainLine items
  /\ subTotal t = Js.num 499.99999999999994
  /\ Qabs (valueOf (subTotal t) - Qsum (map exactLine items)) <= 1 # 2 ^ 42.
Proof.
  cbv zeta.
  assert (Hl : Forall plainLine
                 [Sample.line 1 1.70 1 5; Sample.line 2 166.10 3 5]).
  { repeat constructor; try exact I; simpl; lia. }
  split; [exact Hl |]. split; [vm_compute; reflexivity |].
  refine (Qle_trans _ _ _
            (proj2 (proj2 (subtotal_accuracy (Some Sample.silverClient) _ []
                             10 _ Hl _))) _).
  - lia.
  - vm_compute. reflexivity.
  - vm_compute. discriminate.
Defined.

End DraftAccuracy.

(* ------------------------------------------------------------------ *)
(** ** Create-order page: the three steps and the request                *)
(* ------------------------------------------------------------------ *)

Section OrderWizard.

Import CreateOrderPage.

Variable toUpperCase : Js.str -> Js.str.
Variable productsData : list Product.t.
Variable clients : list Client.t.

Lemma noItems_iff (st : State.t) :
  noItems st = true <-> State.orderItems st = [].
Proof.
  unfold noItems. destruct (State.orderItems st); simpl;
    split; congruence.
Qed.

Lemma hasClient_iff (st : State.t) :
  hasClient st = true <-> exists c, State.selectedClient st = Some c.
Proof.
  unfold hasClient. destruct (State.selectedClient st) as [c |].
  - split; eauto.
  - split; [discriminate | intros [c H]; discriminate].
Qed.

Lemma pageReachable_invariant (st : State.t) :
  pageReachable toUpperCase (loadData productsData) clients st ->
  pageInvariant clients st.
Proof.
  induction 1 as [| st c Hr IH Hoff].
  - unfold pageInvariant, initialState. simpl.
    split; [lia |]. split; [intro; lia |]. split; [discriminate |].
    split; [split; constructor | discriminate].
  - destruct IH as (Hstep & Hcl & Hit & Hok & Hin).
    destruct c as [client | | | | e | value |]; simpl in Hoff;
      unfold pageInvariant; simpl.
    + destruct Hoff as [Hs Hc].
      split; [lia |]. split; [reflexivity |]. split; [intro; lia |].
      split; [exact Hok |].
      intros c' E. injection E as <-. exact Hc.
    + unfold previousDisabled in Hoff. apply Z.eqb_neq in Hoff.
      split; [lia |]. split; [intro; apply Hcl; lia |].
      split; [intro; lia |]. split; [exact Hok | exact Hin].
    + destruct Hoff as [Hlt Hnd]. unfold nextDisabled in Hnd.
      apply orb_false_iff in Hnd. destruct Hnd as [H1 H2].
      split; [lia |]. split; [| split; [| split; [exact Hok | exact Hin]]].
      * intros _. destruct (Z.eq_dec (State.step st) 1) as [E | E].
        -- rewrite E in H1. simpl in H1. apply negb_false_iff in H1.
           exact H1.
        -- apply Hcl. lia.
      * intro H. assert (E : State.step st = 2%Z) by lia.
        rewrite E in H2. simpl in H2. intro Hnil.
        apply noItems_iff in Hnil. congruence.
    + destruct (handleSubmit (State.selectedClient st)
                  (State.orderItems st) (State.promoCode st));
        simpl; (split; [lia |]); (split; [exact Hcl |]);
        (split; [exact Hit |]); (split; [exact Hok | exact Hin]).
    + destruct Hoff as (Hs & Hc & Hclick).
      split; [lia |]. split; [intros _; exact Hc |].
      split; [intro; lia |]. split; [| exact Hin].
      destruct e as [product | pid d | pid]; simpl.
      * apply (addItem_ok _ _ Hok
                 (clickable_listed productsData _ _ Hclick)).
      * apply (updateQuantity_ok _ _ _ Hok).
      * apply (removeItem_ok _ _ Hok).
    + split; [lia |]. split; [exact Hcl |]. split; [exact Hit |].
      split; [exact Hok | exact Hin].
    + split; [lia |]. split; [exact Hcl |]. split; [exact Hit |].
      split; [exact Hok | exact Hin].
Qed.

Lemma handleSubmit_Some (selectedClient : option Client.t)
    (orderItems : list OrderItem.t) (promoCode : Js.str)
    (request : CreateOrderRequest.t) :
  handleSubmit selectedClient orderItems promoCode = Some request
  <-> exists client,
        selectedClient = Some client /\ orderItems <> []
        /\ request
           = CreateOrderRequest.mk (Client.id client)
               (map (fun item =>
                       OrderItemRequest.mk (OrderItem.productId item)
                                           (OrderItem.quantity item))
                    orderItems)
               (if Js.falsy_str promoCode then None else Some promoCode).
Proof.
  unfold handleSubmit. destruct selectedClient as [client |].
  - destruct orderItems as [| it r]; simpl.
    + split; [discriminate | intros (c & _ & H & _); congruence].
    + split.
      * intro H. injection H as <-. exists client.
        split; [reflexivity |]. split; [discriminate | reflexivity].
      * intros (c & Hc & _ & ->). injection Hc as <-. reflexivity.
  - split; [discriminate | intros (c & H & _); discriminate].
Qed.

(** X8.  In every state the create-order page can reach, the step is 1, 2
    or 3, a customer (one of the loaded ones) is selected from step 2 on,
    the draft is not empty at step 3 and satisfies the draft invariant.
    Hence whenever the "Create Order" button is enabled, [handleSubmit]
    does not return early: it sends a request for the selected customer
    whose items are the draft lines in order, with pairwise distinct
    products and quantities of at least one, and sets [submitting]. *)
Theorem create_order_request_is_well_formed (st : State.t)
    (Hreach : pageReachable toUpperCase (loadData productsData) clients
                            st) :
  pageInvariant clients st
  /\ (pageOffers (loadData productsData) clients st Submit ->
      exists client request,
        State.selectedClient st = Some client /\ In client clients
        /\ handleSubmit (State.selectedClient st) (State.orderItems st)
                        (State.promoCode st) = Some request
        /\ CreateOrderRequest.clientId request = Client.id client
        /\ map OrderItemRequest.productId
               (CreateOrderRequest.items request)
           = map OrderItem.productId (State.orderItems st)
        /\ map OrderItemRequest.quantity
               (CreateOrderRequest.items request)
           = map OrderItem.quantity (State.orderItems st)
        /\ NoDup (map OrderItemRequest.productId
                      (CreateOrderRequest.items request))
        /\ Forall (fun r => (1 <= OrderItemRequest.quantity r)%Z)
                  (CreateOrderRequest.items request)
        /\ CreateOrderRequest.items request <> []
        /\ State.submitting (onClick toUpperCase st Submit) = true).
Proof.
  pose proof (pageReachable_invariant st Hreach) as Hinv.
  split; [exact Hinv |].
  destruct Hinv as (Hstep & Hcl & Hit & [Hnd Hall] & Hin).
  intros [Hge Hdis]. unfold submitDisabled in Hdis.
  apply orb_false_iff in Hdis. destruct Hdis as [_ Hne].
  assert (Hitems : State.orderItems st <> []).
  { intro E. apply noItems_iff in E. congruence. }
  assert (Hc : hasClient st = true) by (apply Hcl; lia).
  apply hasClient_iff in Hc. destruct Hc as [client Hc].
  set (request :=
         CreateOrderRequest.mk (Client.id client)
           (map (fun item =>
                   OrderItemRequest.mk (OrderItem.productId item)
                                       (OrderItem.quantity item))
                (State.orderItems st))
           (if Js.falsy_str (State.promoCode st) then None
            else Some (State.promoCode st))).
  assert (Hreq : handleSubmit (State.selectedClient st)
                   (State.orderItems st) (State.promoCode st)
                 = Some request).
  { apply handleSubmit_Some. exists client. auto. }
  assert (Hids : map OrderItemRequest.productId
                     (CreateOrderRequest.items request)
                 = map OrderItem.productId (State.orderItems st)).
  { unfold request. simpl. rewrite map_map. reflexivity. }
  exists client, request.
  split; [exact Hc |]. split; [apply Hin, Hc |]. split; [exact Hreq |].
  split; [reflexivity |]. split; [exact Hids |].
  split; [unfold request; simpl; rewrite map_map; reflexivity |].
  split; [rewrite Hids; exact Hnd |].
  split.
  { unfold request. simpl. rewrite Forall_forall in *.
    intros r Hr. apply in_map_iff in Hr. destruct Hr as (it & <- & Hi).
    simpl. apply (Hall it Hi). }
  split.
  { unfold request. simpl. intro E. apply map_eq_nil in E. contradiction. }
  simpl. rewrite Hreq. reflexivity.
Qed.

End OrderWizard.

Section OrderRequest.

Import CreateOrderPage.

Lemma create_order_request_is_well_formed_witness :
  pageReachable (fun s => s) (loadData [Sample.keyboard])
    [Sample.silverClient]
    (onClick (fun s => s)
       (onClick (fun s => s)
          (onClick (fun s => s)
             (onClick (fun s => s) initialState
                (SelectClient Sample.silverClient))
             (Item (AddItem Sample.keyboard)))
          Next)
       Submit)
  /\ State.step
       (onClick (fun s => s)
          (onClick (fun s => s)
             (onClick (fun s => s)
                (onClick (fun s => s) initialState
                   (SelectClient Sample.silverClient))
                (Item (AddItem Sample.keyboard)))
             Next)
          Submit) = 3%Z
  /\ State.orderItems
       (onClick (fun s => s)
          (onClick (fun s => s)
             (onClick (fun s => s)
                (onClick (fun s => s) initialState
                   (SelectClient Sample.silverClient))
                (Item (AddItem Sample.keyboard)))
             Next)
          Submit) <> [].
Proof.
  assert (Hr : pageReachable (fun s => s) (loadData [Sample.keyboard])
                 [Sample.silverClient]
                 (onClick (fun s => s)
                    (onClick (fun s => s)
                       (onClick (fun s => s)
                          (onClick (fun s => s) initialState
                             (SelectClient Sample.silverClient))
                          (Item (AddItem Sample.keyboard)))
                       Next)
                    Submit)).
  { apply page_click; [apply page_click; [apply page_click;
      [apply page_click; [apply page_initial |] |] |] |].
    - split; [reflexivity | left; reflexivity].
    - split; [reflexivity |]. split; [reflexivity |].
      split; [left; reflexivity | reflexivity].
    - split; [reflexivity | reflexivity].
    - split; [simpl; lia | reflexivity]. }
  split; [exact Hr |]. split; [reflexivity |].
  destruct (create_order_request_is_well_formed (fun s => s)
              [Sample.keyboard] [Sample.silverClient] _ Hr)
    as [(_ & _ & H & _) _].
  apply H. reflexivity.
Defined.

(** X9.  [handleSubmit] sends nothing exactly when no customer is
    selected or the draft is empty.  Otherwise the request names the
    selected customer, lists the product and quantity of every draft line
    in order, and carries the promo code exactly when the field is not
    empty, whatever its shape: a code for which the page shows its format
    warning earns no discount in the preview but is sent all the same. *)
Theorem order_request_mirrors_draft (selectedClient : option Client.t)
    (orderItems : list OrderItem.t) (promoCode : Js.str) :
  (handleSubmit selectedClient orderItems promoCode = None
   <-> selectedClient = None \/ orderItems = [])
  /\ (forall request,
        handleSubmit selectedClient orderItems promoCode = Some request ->
        (exists client, selectedClient = Some client
                        /\ CreateOrderRequest.clientId request
                           = Client.id client)
        /\ map OrderItemRequest.productId
               (CreateOrderRequest.items request)
           = map OrderItem.productId orderItems
        /\ map OrderItemRequest.quantity
               (CreateOrderRequest.items request)
           = map OrderItem.quantity orderItems
        /\ (CreateOrderRequest.promoCode request = None <-> promoCode = [])
        /\ (promoCode <> [] ->
            CreateOrderRequest.promoCode request = Some promoCode)
        /\ (promoWarning promoCode = true ->
            CreateOrderRequest.promoCode request = Some promoCode
            /\ promoDiscount
                 (calculateTotals selectedClient orderItems promoCode)
               = Js.num 0)).
Proof.
  split.
  - unfold handleSubmit. destruct selectedClient as [client |].
    + destruct orderItems as [| it r]; simpl.
      * split; auto.
      * split; [discriminate | intros [H | H]; discriminate].
    + split; auto.
  - intros request H. apply handleSubmit_Some in H.
    destruct H as (client & Hc & Hne & ->). simpl.
    split; [exists client; auto |].
    split; [rewrite map_map; reflexivity |].
    split; [rewrite map_map; reflexivity |].
    split; [| split].
    + destruct promoCode; simpl; split; congruence.
    + destruct promoCode; simpl; congruence.
    + unfold promoWarning. intro Hw. apply andb_true_iff in Hw.
      destruct Hw as [Hf Hr]. apply negb_true_iff in Hf, Hr.
      rewrite Hf. split; [reflexivity |].
      rewrite Hr. reflexivity.
Qed.

End OrderRequest.

(* ------------------------------------------------------------------ *)
(** ** Add-payment page: what is sent and what is reported               *)
(* ------------------------------------------------------------------ *)

Section PaymentRequest.

Import AddPaymentPage.

Lemma trimStart_head (s : Js.str) (c : N) (r : Js.str) :
  Js.trimStart s = c :: r -> Js.isWhiteSpace c = false.
Proof.
  induction s as [| a s' IH]; simpl; [discriminate |].
  destruct (Js.isWhiteSpace a) eqn:E; [exact IH |].
  intro H. injection H as <- _. exact E.
Qed.

Lemma trimStart_fixed (s : Js.str) :
  match s with
  | [] => True
  | c :: _ => Js.isWhiteSpace c = false
  end ->
  Js.trimStart s = s.
Proof.
  destruct s as [| c r]; simpl; [reflexivity |].
  intro H. rewrite H. reflexivity.
Qed.

Lemma trimStart_suffix (s : Js.str) :
  exists pre, s = pre ++ Js.trimStart s /\ whiteSpaceOnly pre.
Proof.
  induction s as [| c r (pre & E & Hpre)]; simpl.
  - exists []. split; [reflexivity | constructor].
  - destruct (Js.isWhiteSpace c) eqn:Hc.
    + exists (c :: pre). split; [simpl; congruence |].
      constructor; assumption.
    + exists []. split; [reflexivity | constructor].
Qed.

Lemma trimStart_idempotent (s : Js.str) :
  Js.trimStart (Js.trimStart s) = Js.trimStart s.
Proof.
  apply trimStart_fixed. destruct (Js.trimStart s) as [| c r] eqn:E;
    [exact I |].
  eapply trimStart_head. exact E.
Qed.

Lemma trimEnd_idempotent (s : Js.str) :
  Js.trimEnd (Js.trimEnd s) = Js.trimEnd s.
Proof.
  unfold Js.trimEnd. rewrite rev_involutive, trimStart_idempotent.
  reflexivity.
Qed.

(** Removing trailing white space keeps a first character that is not
    white space. *)
Lemma trimEnd_keeps_head (s : Js.str) :
  Js.trimStart s = s -> Js.trimStart (Js.trimEnd s) = Js.trimEnd s.
Proof.
  intro Hs. unfold Js.trimEnd.
  destruct (trimStart_suffix (rev s)) as (pre & E & Hpre).
  set (t := Js.trimStart (rev s)) in *.
  assert (Es : s = rev t ++ rev pre).
  { rewrite <- rev_app_distr, <- E, rev_involutive. reflexivity. }
  apply trimStart_fixed.
  destruct (rev t) as [| c r] eqn:Et; [exact I |].
  rewrite Es in Hs. simpl in Hs.
  destruct (Js.isWhiteSpace c) eqn:Hc; [| reflexivity].
  exfalso.
  assert (Hlen : List.length (Js.trimStart (r ++ rev pre))
                 = S (List.length (r ++ rev pre)))
    by (rewrite Hs; reflexivity).
  destruct (trimStart_suffix (r ++ rev pre)) as (p2 & E2 & _).
  rewrite E2 in Hlen at 2. rewrite length_app in Hlen. lia.
Qed.

Lemma trim_idempotent (s : Js.str) : Js.trim (Js.trim s) = Js.trim s.
Proof.
  unfold Js.trim.
  rewrite (trimEnd_keeps_head (Js.trimStart s) (trimStart_idempotent s)).
  apply trimEnd_idempotent.
Qed.

(** A trimmed string neither starts nor ends with white space. *)
Lemma trim_ends (s : Js.str) :
  (forall c r, Js.trim s = c :: r -> Js.isWhiteSpace c = false)
  /\ (forall r c, Js.trim s = r ++ [c] -> Js.isWhiteSpace c = false).
Proof.
  split.
  - intros c r E.
    assert (H : Js.trimStart (Js.trim s) = Js.trim s).
    { unfold Js.trim. apply trimEnd_keeps_head, trimStart_idempotent. }
    rewrite E in H. eapply trimStart_head. exact H.
  - intros r c E. unfold Js.trim, Js.trimEnd in E.
    apply (f_equal (@rev N)) in E.
    rewrite rev_involutive, rev_app_distr in E. simpl in E.
    eapply trimStart_head. exact E.
Qed.

Lemma spreadTrimmed_present (s : option Js.str) :
  Js.blank_opt s = false ->
  exists v, s = Some v /\ spreadTrimmed s = Some (Js.trim v)
            /\ Js.trim v <> [].
Proof.
  destruct s as [v |]; simpl; [| discriminate].
  intro H. exists v. split; [reflexivity |].
  assert (Ht : Js.trim v <> []).
  { intro E. rewrite E in H. discriminate. }
  split; [| exact Ht].
  destruct v; [exfalso; apply Ht; reflexivity | reflexivity].
Qed.

Lemma false_iff_not (b : bool) (P : Prop) :
  (b = true <-> P) -> (b = false <-> ~ P).
Proof.
  intro H. destruct b.
  - split; [discriminate |]. intro Hn. exfalso. apply Hn, H. reflexivity.
  - split; [| reflexivity]. intros _ HP. apply H in HP. discriminate.
Qed.

Lemma js_lt_zero_iff (x : Js.number) :
  Js.lt (Js.num 0) x = true
  <-> Js.falsy_number x || Js.le x (Js.num 0) = false.
Proof.
  rewrite falsy_or_le_zero.
  change (Js.gt x (Js.num 0)) with (Js.lt (Js.num 0) x).
  destruct (Js.lt (Js.num 0) x); simpl; split; congruence.
Qed.

Lemma validate_passes_iff (order : option Order.t)
    (formData : CreatePaymentRequest.t) :
  snd (validate order formData) = true
  <-> Js.lt (Js.num 0) (CreatePaymentRequest.amount formData) = true
      /\ (forall o, order = Some o ->
                    Js.lt (Order.totalAmount o)
                          (CreatePaymentRequest.amount formData) = false)
      /\ ~ whiteSpaceOnly (CreatePaymentRequest.reference formData)
      /\ ~ methodFieldMissing formData.
Proof.
  rewrite validate_result, negb_true_iff.
  rewrite js_lt_zero_iff.
  set (a0 := Js.falsy_number (CreatePaymentRequest.amount formData)
             || Js.le (CreatePaymentRequest.amount formData) (Js.num 0)).
  rewrite !orb_false_iff, !andb_false_iff, !orb_false_iff.
  rewrite (false_iff_not _ _ (falsy_str_iff _)), trim_nil_iff,
          whiteSpaceOnly_iff.
  rewrite !(false_iff_not _ _ (PaymentMethod_eqb_eq _ _)).
  rewrite !(false_iff_not _ _ (blank_opt_iff _)).
  rewrite (false_iff_not _ _ (falsy_opt_iff _)).
  unfold methodFieldMissing.
  assert (Hmax :
    match order with
    | Some o => Js.gt (CreatePaymentRequest.amount formData)
                      (Order.totalAmount o)
    | None => false
    end = false
    <-> (forall o, order = Some o ->
                   Js.lt (Order.totalAmount o)
                         (CreatePaymentRequest.amount formData) = false)).
  { destruct order as [o |].
    - split.
      + intros H o' E. injection E as <-. exact H.
      + intro H. apply H. reflexivity.
    - split; [intros _ o E; discriminate | reflexivity]. }
  rewrite Hmax. split.
  - intros ((((Hpos & Hm) & Hr) & Hc) & Hv). tauto.
  - intros (Hpos & Hm & Hr & Hmiss).
    split; [split; [split; [split |] |] |]; try tauto.
    + destruct (CreatePaymentRequest.paymentMethod formData) eqn:Em.
      * left. discriminate.
      * right. tauto.
      * left. discriminate.
    + destruct (CreatePaymentRequest.paymentMethod formData) eqn:Em.
      * left. discriminate.
      * left. discriminate.
      * right. tauto.
Qed.

(** X10.  [handleSubmit] sends a request exactly when [validate]
    succeeds.  The request then carries the order number of the route,
    the amount typed, which is greater than zero and not above the total
    of the loaded order (at most that total when the total is a number),
    the method, and the reference with its outer white space removed,
    which is not empty and neither starts nor ends with white space.  For
    a CHEQUE the request has a non-empty trimmed bank, a non-empty
    trimmed cheque number and a non-empty due date; for a VIREMENT a
    non-empty trimmed bank. *)
Theorem payment_request_is_clean (order : option Order.t) (orderId : Z)
    (formData : CreatePaymentRequest.t) :
  ((exists request, handleSubmit order orderId formData = Some request)
   <-> snd (validate order formData) = true)
  /\ (handleSubmit order orderId formData = None
      <-> snd (validate order formData) = false)
  /\ (forall request,
        handleSubmit order orderId formData = Some request ->
        CreatePaymentRequest.orderId request = orderId
        /\ CreatePaymentRequest.amount request
           = CreatePaymentRequest.amount formData
        /\ Js.lt (Js.num 0) (CreatePaymentRequest.amount request) = true
        /\ (forall o, order = Some o ->
              Js.lt (Order.totalAmount o)
                    (CreatePaymentRequest.amount request) = false
              /\ (Js.isNaN (Order.totalAmount o) = false ->
                  Js.le (CreatePaymentRequest.amount request)
                        (Order.totalAmount o) = true))
        /\ CreatePaymentRequest.paymentMethod request
           = CreatePaymentRequest.paymentMethod formData
        /\ CreatePaymentRequest.reference request
           = Js.trim (CreatePaymentRequest.reference formData)
        /\ CreatePaymentRequest.reference request <> []
        /\ Js.trim (CreatePaymentRequest.reference request)
           = CreatePaymentRequest.reference request
        /\ (CreatePaymentRequest.paymentMethod request = CHEQUE ->
            exists b n d,
              CreatePaymentRequest.bank request = Some b /\ b <> []
              /\ Js.trim b = b
              /\ CreatePaymentRequest.chequeNumber request = Some n
              /\ n <> [] /\ Js.trim n = n
              /\ CreatePaymentRequest.dueDate request = Some d /\ d <> [])
        /\ (CreatePaymentRequest.paymentMethod request = VIREMENT ->
            exists b,
              CreatePaymentRequest.bank request = Some b /\ b <> []
              /\ Js.trim b = b)).
Proof.
  split; [| split].
  { unfold handleSubmit. destruct (snd (validate order formData)); simpl.
    - split; [reflexivity | intros _; eauto].
    - split; [intros [r H]; discriminate | discriminate]. }
  { unfold handleSubmit. destruct (snd (validate order formData)); simpl;
      split; congruence. }
  intros request Hsent.
  unfold handleSubmit in Hsent.
  destruct (snd (validate order formData)) eqn:Hv; simpl in Hsent;
    [| discriminate].
  injection Hsent as <-. simpl.
  apply validate_passes_iff in Hv.
  destruct Hv as (Hpos & Hmax & Href & Hmeth).
  split; [reflexivity |]. split; [reflexivity |].
  split; [exact Hpos |].
  split.
  { intros o Ho. split; [exact (Hmax o Ho) |]. intro Hn.
    rewrite js_le_negb_gt.
    - unfold Js.gt. rewrite (Hmax o Ho). reflexivity.
    - apply (js_gt_not_NaN _ _ Hpos).
    - exact Hn. }
  split; [reflexivity |]. split; [reflexivity |].
  split.
  { intro E. apply Href. apply whiteSpaceOnly_iff, trim_nil_iff, E. }
  split; [apply trim_idempotent |].
  split.
  - intro Hm.
    assert (Hb : Js.blank_opt (CreatePaymentRequest.bank formData) = false).
    { destruct (Js.blank_opt (CreatePaymentRequest.bank formData)) eqn:E;
        [| reflexivity].
      exfalso. apply Hmeth. left. split; [exact Hm |]. left.
      apply blank_opt_iff, E. }
    assert (Hn : Js.blank_opt (CreatePaymentRequest.chequeNumber formData)
                 = false).
    { destruct (Js.blank_opt (CreatePaymentRequest.chequeNumber formData))
        eqn:E; [| reflexivity].
      exfalso. apply Hmeth. left. split; [exact Hm |]. right. left.
      apply blank_opt_iff, E. }
    assert (Hd : Js.falsy_opt (CreatePaymentRequest.dueDate formData)
                 = false).
    { destruct (Js.falsy_opt (CreatePaymentRequest.dueDate formData))
        eqn:E; [| reflexivity].
      exfalso. apply Hmeth. left. split; [exact Hm |]. right. right.
      apply falsy_opt_iff, E. }
    destruct (spreadTrimmed_present _ Hb) as (b & _ & Eb & Nb).
    destruct (spreadTrimmed_present _ Hn) as (n & _ & En & Nn).
    destruct (CreatePaymentRequest.dueDate formData) as [[| c d] |] eqn:Ed;
      try discriminate.
    exists (Js.trim b), (Js.trim n), (c :: d). simpl.
    split; [exact Eb |]. split; [exact Nb |].
    split; [apply trim_idempotent |].
    split; [exact En |]. split; [exact Nn |].
    split; [apply trim_idempotent |].
    split; [reflexivity | discriminate].
  - intro Hm.
    assert (Hb : Js.blank_opt (CreatePaymentRequest.bank formData) = false).
    { destruct (Js.blank_opt (CreatePaymentRequest.bank formData)) eqn:E;
        [| reflexivity].
      exfalso. apply Hmeth. right. split; [exact Hm |].
      apply blank_opt_iff, E. }
    destruct (spreadTrimmed_present _ Hb) as (b & _ & Eb & Nb).
    exists (Js.trim b).
    split; [exact Eb |]. split; [exact Nb | apply trim_idempotent].
Qed.

Lemma payment_request_is_clean_witness :
  handleSubmit (Some Sample.order120) 7 (Sample.cash 50 " R-7 ")
  = Some (CreatePaymentRequest.mk 7 (Js.num 50) ESPECES (Js.of_ascii "R-7")
            None None None)
  /\ Js.lt (Js.num 0) (Js.num 50) = true
  /\ Js.trim (Js.of_ascii "R-7") = Js.of_ascii "R-7"
  /\ handleSubmit (Some Sample.order120) 7 (Sample.cash 50 "  ") = None.
Proof.
  assert (H : handleSubmit (Some Sample.order120) 7
                (Sample.cash 50 " R-7 ")
              = Some (CreatePaymentRequest.mk 7 (Js.num 50) ESPECES
                        (Js.of_ascii "R-7") None None None))
    by (vm_compute; reflexivity).
  split; [exact H |].
  destruct (payment_request_is_clean (Some Sample.order120) 7
              (Sample.cash 50 " R-7 ")) as (_ & _ & Hreq).
  destruct (Hreq _ H) as (_ & _ & Hpos & _ & _ & _ & _ & Htrim & _).
  split; [exact Hpos |]. split; [exact Htrim |].
  apply (payment_request_is_clean (Some Sample.order120) 7
           (Sample.cash 50 "  ")).
  vm_compute. reflexivity.
Defined.

(** The error object of [validate], field by field. *)
Lemma validate_errors (order : option Order.t)
    (formData : CreatePaymentRequest.t) :
  fst (validate order formData)
  = mkErrors
      (if Js.falsy_number (CreatePaymentRequest.amount formData)
          || Js.le (CreatePaymentRequest.amount formData) (Js.num 0)
       then Some "Amount must be greater than 0"%string
       else
         match order with
         | Some o =>
             if Js.gt (CreatePaymentRequest.amount formData)
                      (Order.totalAmount o)
             then Some "Amount cannot exceed order total"%string
             else None
         | None => None
         end)
      (if Js.falsy_str (Js.trim (CreatePaymentRequest.reference formData))
       then Some "Reference is required"%string else None)
      (match CreatePaymentRequest.paymentMethod formData with
       | ESPECES => None
       | CHEQUE =>
           if Js.blank_opt (CreatePaymentRequest.bank formData)
           then Some "Bank is required for cheque payments"%string
           else None
       | VIREMENT =>
           if Js.blank_opt (CreatePaymentRequest.bank formData)
           then Some "Bank is required for bank transfers"%string
           else None
       end)
      (match CreatePaymentRequest.paymentMethod formData with
       | CHEQUE =>
           if Js.blank_opt (CreatePaymentRequest.chequeNumber formData)
           then Some "Cheque number is required"%string else None
       | _ => None
       end)
      (match CreatePaymentRequest.paymentMethod formData with
       | CHEQUE =>
           if Js.falsy_opt (CreatePaymentRequest.dueDate formData)
           then Some "Due date is required for cheque payments"%string
           else None
       | _ => None
       end).
Proof.
  unfold validate.
  destruct (Js.falsy_number (CreatePaymentRequest.amount formData)
            || Js.le (CreatePaymentRequest.amount formData) (Js.num 0));
    [| destruct order as [o |];
       [destruct (Js.gt (CreatePaymentRequest.amount formData)
                        (Order.totalAmount o)) |]];
    destruct (Js.falsy_str
                (Js.trim (CreatePaymentRequest.reference formData)));
    destruct (CreatePaymentRequest.paymentMethod formData);
    destruct (Js.blank_opt (CreatePaymentRequest.bank formData));
    destruct (Js.blank_opt (CreatePaymentRequest.chequeNumber formData));
    destruct (Js.falsy_opt (CreatePaymentRequest.dueDate formData));
    reflexivity.
Qed.

(** X11.  [validate] reports every failing field at once, each under its
    own key.  The amount error is "must be greater than 0" exactly for an
    amount that is NaN or at most zero, and "cannot exceed order total"
    exactly for an amount greater than zero and above the total of the
    loaded order; the reference error appears exactly for an empty or
    white-space reference; the bank error exactly for a CHEQUE or
    VIREMENT without bank, worded after the method; the cheque-number and
    due-date errors exactly for a CHEQUE without them.  The function
    returns true exactly when the error object is empty. *)
Theorem validate_reports_each_field (order : option Order.t)
    (formData : CreatePaymentRequest.t) :
  let e := fst (validate order formData) in
  (amount e = Some "Amount must be greater than 0"%string
   <-> Js.isNaN (CreatePaymentRequest.amount formData) = true
       \/ Js.le (CreatePaymentRequest.amount formData) (Js.num 0) = true)
  /\ (amount e = Some "Amount cannot exceed order total"%string
      <-> Js.lt (Js.num 0) (CreatePaymentRequest.amount formData) = true
          /\ exists o, order = Some o
                       /\ Js.lt (Order.totalAmount o)
                                (CreatePaymentRequest.amount formData)
                          = true)
  /\ (reference e = Some "Reference is required"%string
      <-> whiteSpaceOnly (CreatePaymentRequest.reference formData))
  /\ (bank e = Some "Bank is required for cheque payments"%string
      <-> CreatePaymentRequest.paymentMethod formData = CHEQUE
          /\ missing (CreatePaymentRequest.bank formData))
  /\ (bank e = Some "Bank is required for bank transfers"%string
      <-> CreatePaymentRequest.paymentMethod formData = VIREMENT
          /\ missing (CreatePaymentRequest.bank formData))
  /\ (chequeNumber e = Some "Cheque number is required"%string
      <-> CreatePaymentRequest.paymentMethod formData = CHEQUE
          /\ missing (CreatePaymentRequest.chequeNumber formData))
  /\ (dueDate e = Some "Due date is required for cheque payments"%string
      <-> CreatePaymentRequest.paymentMethod formData = CHEQUE
          /\ absent (CreatePaymentRequest.dueDate formData))
  /\ (snd (validate order formData) = true <-> e = noErrors)
  /\ (forall m, amount e = Some m ->
        m = "Amount must be greater than 0"%string
        \/ m = "Amount cannot exceed order total"%string).
Proof.
  intro e. unfold e. rewrite validate_errors.
  cbn [amount reference bank chequeNumber dueDate].
  split; [| split; [| split; [| split; [| split; [| split; [| split;
    [| split]]]]]]].
  - rewrite <- falsy_or_le_zero_iff.
    destruct (Js.falsy_number (CreatePaymentRequest.amount formData)
              || Js.le (CreatePaymentRequest.amount formData) (Js.num 0)).
    + split; reflexivity.
    + split; [| discriminate].
      destruct order as [o |]; [| discriminate].
      destruct (Js.gt _ _); discriminate.
  - rewrite js_lt_zero_iff.
    destruct (Js.falsy_number (CreatePaymentRequest.amount formData)
              || Js.le (CreatePaymentRequest.amount formData) (Js.num 0)).
    + split; [discriminate | intros [H _]; discriminate].
    + destruct order as [o |].
      * change (Js.gt (CreatePaymentRequest.amount formData)
                      (Order.totalAmount o))
          with (Js.lt (Order.totalAmount o)
                      (CreatePaymentRequest.amount formData)).
        destruct (Js.lt (Order.totalAmount o)
                        (CreatePaymentRequest.amount formData)) eqn:Eg.
        -- split; [intros _ | reflexivity].
           split; [reflexivity |]. exists o. auto.
        -- split; [discriminate |].
           intros (_ & o' & Ho & H). injection Ho as <-. congruence.
      * split; [discriminate |].
        intros (_ & o' & Ho & _). discriminate.
  - rewrite <- whiteSpaceOnly_iff, <- trim_nil_iff, <- falsy_str_iff.
    destruct (Js.falsy_str _); split; congruence.
  - rewrite <- blank_opt_iff.
    destruct (CreatePaymentRequest.paymentMethod formData);
      destruct (Js.blank_opt _); split;
      try congruence; try (intros [H1 H2]; congruence); auto.
  - rewrite <- blank_opt_iff.
    destruct (CreatePaymentRequest.paymentMethod formData);
      destruct (Js.blank_opt _); split;
      try congruence; try (intros [H1 H2]; congruence); auto.
  - rewrite <- blank_opt_iff.
    destruct (CreatePaymentRequest.paymentMethod formData);
      destruct (Js.blank_opt _); split;
      try congruence; try (intros [H1 H2]; congruence); auto.
  - rewrite <- falsy_opt_iff.
    destruct (CreatePaymentRequest.paymentMethod formData);
      destruct (Js.falsy_opt _); split;
      try congruence; try (intros [H1 H2]; congruence); auto.
  - rewrite validate_result. unfold noErrors.
    destruct (Js.falsy_number (CreatePaymentRequest.amount formData)
              || Js.le (CreatePaymentRequest.amount formData) (Js.num 0));
      [| destruct order as [o |];
         [destruct (Js.gt (CreatePaymentRequest.amount formData)
                          (Order.totalAmount o)) |]];
      destruct (Js.falsy_str
                  (Js.trim (CreatePaymentRequest.reference formData)));
      destruct (CreatePaymentRequest.paymentMethod formData);
      destruct (Js.blank_opt (CreatePaymentRequest.bank formData));
      destruct (Js.blank_opt (CreatePaymentRequest.chequeNumber formData));
      destruct (Js.falsy_opt (CreatePaymentRequest.dueDate formData));
      simpl; split; congruence.
  - intros m.
    destruct (Js.falsy_number _ || Js.le _ _);
      [intro H; injection H as <-; auto |].
    destruct order as [o |]; [| discriminate].
    destruct (Js.gt _ _); [| discriminate].
    intro H. injection H as <-. auto.
Qed.

(** X12.  Switching the form to cash changes the method only: bank,
    cheque number and due date typed before stay in the form, and the
    error messages shown stay as they were.  [validate] then looks at the
    amount and the reference alone, and a request that is sent still
    carries every non-empty bank, cheque number and due date (bank and
    cheque number trimmed). *)
Theorem switching_to_cash_keeps_bank_details (order : option Order.t)
    (orderId : Z) (formData : CreatePaymentRequest.t) (errors : Errors) :
  let fd := fst (handleChange formData errors
                              (ChangePaymentMethod ESPECES)) in
  snd (handleChange formData errors (ChangePaymentMethod ESPECES)) = errors
  /\ (snd (validate order fd) = true
      <-> Js.lt (Js.num 0) (CreatePaymentRequest.amount formData) = true
          /\ (forall o, order = Some o ->
                        Js.lt (Order.totalAmount o)
                              (CreatePaymentRequest.amount formData)
                        = false)
          /\ ~ whiteSpaceOnly (CreatePaymentRequest.reference formData))
  /\ (forall request,
        handleSubmit order orderId fd = Some request ->
        CreatePaymentRequest.paymentMethod request = ESPECES
        /\ CreatePaymentRequest.bank request
           = spreadTrimmed (CreatePaymentRequest.bank formData)
        /\ CreatePaymentRequest.chequeNumber request
           = spreadTrimmed (CreatePaymentRequest.chequeNumber formData)
        /\ CreatePaymentRequest.dueDate request
           = spreadPlain (CreatePaymentRequest.dueDate formData))
  /\ (forall request b,
        handleSubmit order orderId fd = Some request ->
        CreatePaymentRequest.bank formData = Some b -> b <> [] ->
        CreatePaymentRequest.bank request = Some (Js.trim b)).
Proof.
  intro fd. split; [reflexivity |].
  split.
  { rewrite validate_passes_iff. unfold fd, methodFieldMissing. simpl.
    split; [tauto |]. intros (H1 & H2 & H3).
    repeat split; auto. intros [[H _] | [H _]]; discriminate. }
  assert (Hreq : forall request,
            handleSubmit order orderId fd = Some request ->
            CreatePaymentRequest.paymentMethod request = ESPECES
            /\ CreatePaymentRequest.bank request
               = spreadTrimmed (CreatePaymentRequest.bank formData)
            /\ CreatePaymentRequest.chequeNumber request
               = spreadTrimmed (CreatePaymentRequest.chequeNumber formData)
            /\ CreatePaymentRequest.dueDate request
               = spreadPlain (CreatePaymentRequest.dueDate formData)).
  { intros request H. unfold handleSubmit in H.
    destruct (snd (validate order fd)); simpl in H; [| discriminate].
    injection H as <-. simpl. auto. }
  split; [exact Hreq |].
  intros request b H Hb Hne. destruct (Hreq request H) as (_ & E & _).
  rewrite E, Hb. simpl. destruct b; [contradiction | reflexivity].
Qed.

End PaymentRequest.

(* ------------------------------------------------------------------ *)
(** ** Order detail page: when each button is there                      *)
(* ------------------------------------------------------------------ *)

Section OrderDetailButtons.

Import OrderDetailPage.

Lemma notClosed_iff (o : Order.t) :
  notClosed o = true
  <-> Order.status o <> CANCELED /\ Order.status o <> REJECTED.
Proof.
  unfold notClosed. destruct (Order.status o); simpl;
    split; try discriminate; try (intros [H1 H2]; congruence);
    intros _; split; discriminate.
Qed.

(** X13.  On the order detail page, past the loading and error screens:
    cancel is offered exactly to an administrator on a PENDING order while
    no action is running, whatever has been paid; encash and reject of a
    payment are offered exactly to an administrator for a payment that is
    EN_ATTENTE while no action is running, whatever the status of the
    order; "Add Payment" is offered exactly when the order is neither
    CANCELED nor REJECTED, to every user and whatever the remaining
    amount. *)
Theorem actions_offered_exactly_when (st : State) :
  (offered st Cancel = true
   <-> shown st /\ actionLoading st = false /\ adminUser (user st)
       /\ exists o, order st = Some o /\ Order.status o = PENDING)
  /\ (forall paymentId,
        offered st (Encash paymentId) = true
        <-> shown st /\ actionLoading st = false
            /\ adminUser (user st)
            /\ (exists o, order st = Some o)
            /\ exists p, In p (payments st) /\ Payment.id p = paymentId
                         /\ Payment.paymentStatus p = EN_ATTENTE)
  /\ (forall paymentId,
        offered st (Reject paymentId) = true
        <-> offered st (Encash paymentId) = true)
  /\ (offered st AddPayment = true
      <-> shown st
          /\ exists o, order st = Some o /\ Order.status o <> CANCELED
                       /\ Order.status o <> REJECTED).
Proof.
  assert (Hpay : forall paymentId (mk : Z -> Action),
            (mk = Encash \/ mk = Reject) ->
            (offered st (mk paymentId) = true
             <-> shown st /\ actionLoading st = false
                 /\ adminUser (user st)
                 /\ (exists o, order st = Some o)
                 /\ exists p, In p (payments st)
                              /\ Payment.id p = paymentId
                              /\ Payment.paymentStatus p = EN_ATTENTE)).
  { intros paymentId mk Hmk. rewrite offered_iff. unfold shown. split.
    - intros (b & Hin & Hact & Hdis).
      apply render_In in Hin. destruct Hin as (Hl & He & o & Ho & H).
      destruct H as [H | [H | [H | H]]].
      + apply headerButtons_In in H.
        destruct H as [[_ ->] | [_ ->]]; simpl in Hact;
          destruct Hmk as [-> | ->]; discriminate.
      + apply paymentsCardButtons_In in H.
        destruct H as [[_ ->] | (p & Hp & H)]; simpl in Hact.
        * destruct Hmk as [-> | ->]; discriminate.
        * apply paymentRowButtons_In in H.
          destruct H as (Ha & Hs & [-> | ->]); simpl in Hact, Hdis;
            destruct Hmk as [-> | ->]; try discriminate;
            injection Hact as Hid;
            (split; [tauto |]); (split; [exact Hdis |]);
            (split; [exact Ha |]); (split; [eauto |]);
            exists p; auto.
      + apply summaryButtons_In in H. subst b. simpl in Hact.
        destruct Hmk as [-> | ->]; discriminate.
      + apply adminButtons_In in H.
        destruct H as (_ & _ & [-> | ->]); simpl in Hact;
          destruct Hmk as [-> | ->]; discriminate.
    - intros ([Hl He] & Hal & Ha & (o & Ho) & p & Hp & Hid & Hs).
      exists (mkButton (mk paymentId) (actionLoading st)). simpl.
      split; [| auto].
      apply render_In. split; [exact Hl |]. split; [exact He |].
      exists o. split; [exact Ho |]. right. left.
      apply paymentsCardButtons_In. right. exists p.
      split; [exact Hp |]. apply paymentRowButtons_In.
      split; [exact Ha |]. split; [exact Hs |].
      rewrite Hid. destruct Hmk as [-> | ->]; auto. }
  split.
  { rewrite offered_iff. unfold shown. split.
    - intros (b & Hin & Hact & Hdis).
      apply render_In in Hin. destruct Hin as (Hl & He & o & Ho & H).
      destruct H as [H | [H | [H | H]]].
      + apply headerButtons_In in H.
        destruct H as [[_ ->] | [Hc ->]]; simpl in Hact, Hdis;
          [discriminate |].
        apply canCancel_iff in Hc.
        split; [tauto |]. split; [exact Hdis |]. split; [tauto |].
        exists o. tauto.
      + apply paymentsCardButtons_In in H.
        destruct H as [[_ ->] | (p & _ & H)]; simpl in Hact;
          [discriminate |].
        apply paymentRowButtons_In in H.
        destruct H as (_ & _ & [-> | ->]); discriminate.
      + apply summaryButtons_In in H. subst b. discriminate.
      + apply adminButtons_In in H.
        destruct H as (Ha & Hp & [-> | ->]); simpl in Hact, Hdis;
          [discriminate |].
        split; [tauto |]. split; [exact Hdis |]. split; [exact Ha |].
        exists o. tauto.
    - intros ([Hl He] & Hal & Ha & o & Ho & Hp).
      exists (mkButton Cancel (actionLoading st)). simpl.
      split; [| auto].
      apply render_In. split; [exact Hl |]. split; [exact He |].
      exists o. split; [exact Ho |]. left.
      apply headerButtons_In. right. split; [| reflexivity].
      apply canCancel_iff. tauto. }
  split; [intro paymentId; apply (Hpay paymentId Encash); auto |].
  split.
  { intro paymentId.
    rewrite (Hpay paymentId Encash), (Hpay paymentId Reject) by auto.
    tauto. }
  rewrite offered_iff. unfold shown. split.
  - intros (b & Hin & Hact & Hdis).
    apply render_In in Hin. destruct Hin as (Hl & He & o & Ho & H).
    split; [tauto |]. exists o. split; [exact Ho |].
    apply notClosed_iff.
    destruct H as [H | [H | [H | H]]].
    + apply headerButtons_In in H.
      destruct H as [[_ ->] | [_ ->]]; discriminate.
    + apply paymentsCardButtons_In in H.
      destruct H as [[Hn _] | (p & _ & H)]; [exact Hn |].
      apply paymentRowButtons_In in H.
      destruct H as (_ & _ & [-> | ->]); discriminate.
    + unfold summaryButtons in H.
      destruct (notClosed o); [reflexivity |].
      rewrite andb_false_r in H. contradiction.
    + apply adminButtons_In in H.
      destruct H as (_ & _ & [-> | ->]); discriminate.
  - intros ([Hl He] & o & Ho & Hc & Hr).
    exists (mkButton AddPayment false). simpl. split; [| auto].
    apply render_In. split; [exact Hl |]. split; [exact He |].
    exists o. split; [exact Ho |]. right. left.
    apply paymentsCardButtons_In. left. split; [| reflexivity].
    apply notClosed_iff. tauto.
Qed.

(** X14.  The page shows two confirm buttons, one in the header (rendered
    only when [canConfirm] holds, that is when [remainingAmount <= 0]) and
    one in the actions card (rendered for an administrator on a PENDING
    order, disabled while [remainingAmount > 0]).  Whenever the header
    button is enabled, so is the one of the card; the converse holds
    whenever the remaining amount is a number.  When it is NaN the two
    tests differ: for an order whose total is read as Infinity with a
    cleared payment of the same amount, the header shows no confirm
    button while the one of the card is enabled. *)
Theorem confirm_buttons_agree (st : State) (o : Order.t) :
  (triggers (headerButtons st o) Confirm
   -> triggers (adminButtons st o) Confirm)
  /\ (Js.isNaN (remainingAmount (Some o) (payments st)) = false ->
      triggers (adminButtons st o) Confirm ->
      triggers (headerButtons st o) Confirm)
  /\ (Js.isNaN (remainingAmount (Some o) (payments st)) = true ->
      ~ triggers (headerButtons st o) Confirm
      /\ (triggers (adminButtons st o) Confirm
          <-> adminUser (user st) /\ Order.status o = PENDING
              /\ actionLoading st = false))
  /\ (let o' := Sample.orderOf 1e999 PENDING in
      let st' := Sample.pageOf o' [Sample.payment 1 1e999 ENCAISSE] in
      Order.totalAmount o' = S754_infinity false
      /\ remainingAmount (Some o') (payments st') = S754_nan
      /\ triggers (adminButtons st' o') Confirm
      /\ ~ triggers (headerButtons st' o') Confirm
      /\ offered st' Confirm = true).
Proof.
  assert (Hhead : triggers (headerButtons st o) Confirm
                  -> Order.status o = PENDING /\ adminUser (user st)
                     /\ Js.le (remainingAmount (Some o) (payments st))
                              (Js.num 0) = true
                     /\ actionLoading st = false).
  { intros (b & Hin & Hact & Hdis). apply headerButtons_In in Hin.
    destruct Hin as [[Hc ->] | [_ ->]]; simpl in *; [| discriminate].
    apply canConfirm_iff in Hc. tauto. }
  assert (Hcard : triggers (adminButtons st o) Confirm
                  <-> adminUser (user st) /\ Order.status o = PENDING
                      /\ actionLoading st = false
                      /\ Js.gt (remainingAmount (Some o) (payments st))
                               (Js.num 0) = false).
  { unfold triggers. split.
    - intros (b & Hin & Hact & Hdis). apply adminButtons_In in Hin.
      destruct Hin as (Ha & Hp & [-> | ->]); cbn [onClick disabled] in *;
        [| discriminate].
      apply orb_false_iff in Hdis. tauto.
    - intros (Ha & Hp & Hal & Hgt).
      exists (mkButton Confirm
                (actionLoading st
                 || Js.gt (remainingAmount (Some o) (payments st))
                          (Js.num 0))).
      split; [apply adminButtons_In; tauto |]. split; [reflexivity |].
      cbn [disabled]. rewrite Hal, Hgt. reflexivity. }
  split; [| split; [| split]].
  - intro H. apply Hhead in H. destruct H as (Hp & Ha & Hr & Hal).
    apply Hcard. split; [exact Ha |]. split; [exact Hp |].
    split; [exact Hal |]. apply js_le_not_gt, Hr.
  - intros Hn H. apply Hcard in H. destruct H as (Ha & Hp & Hal & Hgt).
    exists (mkButton Confirm (actionLoading st)).
    split; [| split; [reflexivity | exact Hal]].
    apply headerButtons_In. left. split; [| reflexivity].
    apply canConfirm_iff. split; [exact Hp |]. split; [exact Ha |].
    rewrite js_le_negb_gt by (exact Hn || reflexivity).
    rewrite Hgt. reflexivity.
  - intro Hn. split.
    + intro H. apply Hhead in H. destruct H as (_ & _ & Hr & _).
      apply js_le_not_NaN in Hr. destruct Hr as [Hr _]. congruence.
    + rewrite Hcard.
      destruct (remainingAmount (Some o) (payments st));
        try discriminate.
      change (Js.gt S754_nan (Js.num 0)) with false. tauto.
  - cbv zeta.
    split; [vm_compute; reflexivity |].
    split; [vm_compute; reflexivity |].
    split.
    { exists (mkButton Confirm false).
      split; [left; vm_compute; reflexivity |].
      split; reflexivity. }
    split; [| vm_compute; reflexivity].
    intros (b & Hin & Hact & _). vm_compute in Hin.
    destruct Hin as [<- | []]. discriminate.
Qed.

(** X15.  The payment summary.  The amount paid is the binary64 running
    sum, in list order, of the amounts of the ENCAISSE payments, and the
    remaining amount is the order total minus it.  A payment that is not
    ENCAISSE (one just created, in particular) does not move them,
    wherever it stands in the list, so creating a payment never changes
    whether the order can be confirmed; exchanging the first two payments
    of the list does not move them either.  Beyond that the order of the
    list can matter: for an order of 401 paid in three cleared payments
    of 198.84, 11.71 and 190.45 the remaining amount is zero and the
    order can be confirmed, with the last two exchanged it is about
    5.7e-14 and the order cannot. *)
Theorem payment_summary_accounting (u : option User.t) (o : Order.t)
    (ps : list Payment.t) :
  totalPaid ps = runningSum (amountsWithStatus ENCAISSE ps)
  /\ remainingAmount (Some o) ps = Js.sub (Order.totalAmount o) (totalPaid ps)
  /\ (forall before after p,
        ps = before ++ after ->
        Payment.paymentStatus p <> ENCAISSE ->
        totalPaid (before ++ p :: after) = totalPaid ps
        /\ remainingAmount (Some o) (before ++ p :: after)
           = remainingAmount (Some o) ps
        /\ canConfirm u o (before ++ p :: after) = canConfirm u o ps)
  /\ (forall p q rest,
        ps = p :: q :: rest ->
        totalPaid (q :: p :: rest) = totalPaid ps
        /\ remainingAmount (Some o) (q :: p :: rest)
           = remainingAmount (Some o) ps
        /\ canConfirm u o (q :: p :: rest) = canConfirm u o ps)
  /\ (let o' := Sample.orderOf 401 PENDING in
      let a := Sample.payment 1 198.84 ENCAISSE in
      let b := Sample.payment 2 11.71 ENCAISSE in
      let c := Sample.payment 3 190.45 ENCAISSE in
      Permutation [a; b; c] [a; c; b]
      /\ remainingAmount (Some o') [a; b; c] = Js.num 0
      /\ canConfirm (Some Sample.admin) o' [a; b; c] = true
      /\ remainingAmount (Some o') [a; c; b] = Js.num 5.684341886080802e-14
      /\ canConfirm (Some Sample.admin) o' [a; c; b] = false).
Proof.
  assert (Hcan : forall ps1 ps2,
            totalPaid ps1 = totalPaid ps2 ->
            totalPaid ps1 = totalPaid ps2
            /\ remainingAmount (Some o) ps1 = remainingAmount (Some o) ps2
            /\ canConfirm u o ps1 = canConfirm u o ps2).
  { intros ps1 ps2 E. split; [exact E |].
    unfold canConfirm, remainingAmount. rewrite E. split; reflexivity. }
  split; [apply totalPaid_sum |]. split; [reflexivity |].
  split; [| split].
  - intros before after p -> Hs. apply Hcan.
    rewrite !totalPaid_sum, !amountsWithStatus_app, amountsWithStatus_cons.
    destruct (PaymentStatus_eqb (Payment.paymentStatus p) ENCAISSE)
      eqn:F; [| reflexivity].
    apply PaymentStatus_eqb_eq in F. contradiction.
  - intros p q rest ->. apply Hcan.
    rewrite !totalPaid_sum, !amountsWithStatus_cons.
    unfold runningSum.
    destruct (PaymentStatus_eqb (Payment.paymentStatus p) ENCAISSE),
             (PaymentStatus_eqb (Payment.paymentStatus q) ENCAISSE);
      cbn [app sumFrom]; try reflexivity.
    rewrite (js_add_zero_swap (Payment.amount p) (Payment.amount q)).
    reflexivity.
  - cbv zeta. split; [apply perm_skip, perm_swap |].
    repeat split; vm_compute; reflexivity.
Qed.

End OrderDetailButtons.

Section PaymentAccuracy.

Import OrderDetailPage.

Local Open Scope Q_scope.

(** X16.  How far the payment summary is from the exact amounts.  For an
    order whose total is a finite number of the format and a payment list
    whose [n] cleared amounts are, if the absolute values of the total
    and of the cleared amounts, plus [n + 1] times [2^(k-54)], add up to
    less than [2^k], then the amount paid is finite and within [n] times
    [2^(k-54)] of the exact sum of the cleared amounts, and the remaining
    amount is finite and within [n + 1] times [2^(k-54)] of the total
    minus that exact sum.  So when the cleared amounts add up to exactly
    the total, the remaining amount, if not zero, is at most [n + 1]
    times [2^(k-54)] in absolute value. *)
Theorem remaining_amount_accuracy (o : Order.t) (ps : list Payment.t)
    (k : Z) :
  let cleared := amountsWithStatus ENCAISSE ps in
  let n := inject_Z (Z.of_nat (List.length cleared)) in
  let exactPaid := Qsum (map valueOf cleared) in
  (-1021 <= k <= 1023)%Z ->
  wellFormed (Order.totalAmount o) -> finite (Order.totalAmount o) ->
  Forall wellFormed cleared -> Forall finite cleared ->
  Qabs (valueOf (Order.totalAmount o))
  + Qsum (map (fun x => Qabs (valueOf x)) cleared)
  + (n + 1) * 2 ^ (k - 54) < 2 ^ k ->
  finite (totalPaid ps) /\ finite (remainingAmount (Some o) ps)
  /\ Qabs (valueOf (totalPaid ps) - exactPaid) <= n * 2 ^ (k - 54)
  /\ Qabs (valueOf (remainingAmount (Some o) ps)
           - (valueOf (Order.totalAmount o) - exactPaid))
     <= (n + 1) * 2 ^ (k - 54)
  /\ (exactPaid == valueOf (Order.totalAmount o) ->
      Qabs (valueOf (remainingAmount (Some o) ps))
      <= (n + 1) * 2 ^ (k - 54)).
Proof.
  intros cleared n exactPaid Hk Hwt Hft Hwc Hfc Hb.
  pose proof (pow2_pos (k - 54)) as Heps.
  set (eps := 2 ^ (k - 54)) in *.
  assert (Hn : 0 <= n).
  { unfold n. change 0 with (inject_Z 0). rewrite <- Zle_Qle. lia. }
  assert (Hne : 0 <= n * eps) by (apply Qmult_le_0_compat; lra).
  pose proof (Qsum_abs_nonneg cleared) as Hc0.
  pose proof (Qabs_nonneg (valueOf (Order.totalAmount o))) as Ht0.
  pose proof (Qabs_bounds (valueOf (Order.totalAmount o))) as [Ht1 Ht2].
  set (T := Qabs (valueOf (Order.totalAmount o))) in *.
  set (C := Qsum (map (fun x => Qabs (valueOf x)) cleared)) in *.
  assert (Hexp : (n + 1) * eps == n * eps + eps) by ring.
  rewrite Hexp in Hb |- *.
  destruct (sumFrom_accuracy k cleared (Js.num 0) Hk eq_refl I Hwc Hfc)
    as (Hwp & Hfp & Hep).
  { fold C n eps. change (Qabs (valueOf (Js.num 0))) with 0. lra. }
  fold n eps exactPaid in Hep. change (valueOf (Js.num 0)) with 0 in Hep.
  fold (runningSum cleared) in Hwp, Hfp, Hep.
  unfold cleared in Hwp, Hfp, Hep. rewrite <- totalPaid_sum in Hwp, Hfp, Hep.
  fold cleared in Hep.
  apply Qabs_Qle_condition in Hep. destruct Hep as [Hp1 Hp2].
  pose proof (Qabs_bounds exactPaid) as [Hx1 Hx2].
  assert (HX : Qabs exactPaid <= C).
  { unfold exactPaid, C. clear. induction cleared as [| x r IH]; simpl.
    - apply Qle_refl.
    - apply Qle_trans with (Qabs (valueOf x) + Qabs (Qsum (map valueOf r)));
        [apply Qabs_triangle | lra]. }
  destruct (js_sub_roundedTo (Order.totalAmount o) (totalPaid ps)
              Hwt Hwp Hft Hfp) as (_ & _ & _ & Hk' & _).
  destruct (Hk' k) as [Hfr Her]; [| lia |].
  { apply Qle_lt_trans with (T + C + n * eps); [| lra].
    apply Qabs_Qle_condition. split; lra. }
  rewrite halfUlp in Her by lia. fold eps in Her.
  change (Js.sub (Order.totalAmount o) (totalPaid ps))
    with (remainingAmount (Some o) ps) in Hfr, Her.
  apply Qabs_Qle_condition in Her. destruct Her as [Hr1 Hr2].
  split; [exact Hfp |]. split; [exact Hfr |].
  split; [apply Qabs_Qle_condition; split; lra |].
  split; [apply Qabs_Qle_condition; split; lra |].
  intro E. apply Qabs_Qle_condition. split; lra.
Qed.

Lemma remaining_amount_accuracy_witness :
  let o := Sample.orderOf 2.10 PENDING in
  let ps := [Sample.payment 1 0.70 ENCAISSE; Sample.payment 2 0.70 ENCAISSE;
             Sample.payment 3 0.70 ENCAISSE] in
  (valueOf (remainingAmount (Some o) ps) == 1 # 2 ^ 51)
  /\ Qabs (valueOf (remainingAmount (Some o) ps)
           - (valueOf (Order.totalAmount o)
              - Qsum (map valueOf (amountsWithStatus ENCAISSE ps))))
     <= 1 # 2 ^ 49.
Proof.
  cbv zeta. split; [vm_compute; reflexivity |].
  refine (Qle_trans _ _ _
            (proj1 (proj2 (proj2 (proj2
               (remaining_amount_accuracy (Sample.orderOf 2.10 PENDING) _ 3
                  _ _ _ _ _ _))))) _).
  - lia.
  - reflexivity.
  - exact I.
  - repeat constructor.
  - repeat constructor.
  - vm_compute. reflexivity.
  - vm_compute. discriminate.
Defined.

End PaymentAccuracy.

(* ------------------------------------------------------------------ *)
(** ** Authentication context and protected route                        *)
(* ------------------------------------------------------------------ *)

Section Auth.

Import AuthContext.

Lemma run_snoc (es : list Completed) (e : Completed) :
  run (es ++ [e]) = complete (run es) e.
Proof. unfold run. rewrite fold_left_app. reflexivity. Qed.

Lemma reported_snoc (u : User.t) (es : list Completed) (e : Completed) :
  reported u es -> reported u (es ++ [e]).
Proof.
  intros [H | [c H]]; [left | right; exists c];
    apply in_or_app; left; exact H.
Qed.

Lemma run_user_reported (es : list Completed) (u : User.t) :
  user (run es) = Some u -> reported u es.
Proof.
  induction es as [| e es IH] using rev_ind.
  - discriminate.
  - rewrite run_snoc.
    destruct e as [[v |] | [[] |] [v |] | c]; simpl;
      try discriminate;
      try (intro H; apply reported_snoc, IH, H).
    + intro H. injection H as <-. left. apply in_or_app. right.
      left. reflexivity.
    + intro H. injection H as <-. right. exists (Js.Resolved tt).
      apply in_or_app. right. left. reflexivity.
Qed.

Lemma run_loading (es : list Completed) :
  loading (run es) = false <-> exists r, In (CheckAuth r) es.
Proof.
  induction es as [| e es IH] using rev_ind.
  - simpl. split; [discriminate | intros [r []]].
  - rewrite run_snoc.
    assert (Hkeep : (exists r, In (CheckAuth r) (es ++ [e]))
                    <-> (exists r, In (CheckAuth r) es)
                        \/ exists r, e = CheckAuth r).
    { split.
      - intros [r H]. apply in_app_or in H.
        destruct H as [H | [H | []]]; eauto.
      - intros [[r H] | [r ->]]; exists r; apply in_or_app;
          [left; exact H | right; left; reflexivity]. }
    rewrite Hkeep.
    destruct e as [r | [[] |] [v |] | c]; simpl.
    + split; [intros _; right; eauto | reflexivity].
    + rewrite IH. split; [tauto | intros [H | [r H]]; [exact H |]].
      discriminate.
    + rewrite IH. split; [tauto | intros [H | [r H]]; [exact H |]].
      discriminate.
    + rewrite IH. split; [tauto | intros [H | [r H]]; [exact H |]].
      discriminate.
    + rewrite IH. split; [tauto | intros [H | [r H]]; [exact H |]].
      discriminate.
    + rewrite IH. split; [tauto | intros [H | [r H]]; [exact H |]].
      discriminate.
Qed.

(** X17.  Whatever calls have completed since the provider was mounted:
    the user held by the context is always one that [getCurrentUser]
    reported, so the administrator role tested by the pages is a reported
    one; [loading] is off exactly once the initial check has completed;
    the protected route renders its children only when that check has
    completed and a reported user is held; right after a logout it never
    renders them, even when the logout call failed; and a login whose
    first or second call is rejected leaves the context as it was and
    rejects. *)
Theorem protected_route_needs_reported_user (es : list Completed) :
  (forall u, user (run es) = Some u -> reported u es)
  /\ (OrderDetailPage.isAdmin (user (run es)) = true ->
      exists u, reported u es /\ User.role u = ADMIN)
  /\ (loading (run es) = false <-> exists r, In (CheckAuth r) es)
  /\ (App.ProtectedRoute (run es) = App.Children ->
      (exists r, In (CheckAuth r) es)
      /\ exists u, user (run es) = Some u /\ reported u es)
  /\ (forall logoutCall,
        user (run (es ++ [Logout logoutCall])) = None
        /\ App.ProtectedRoute (run (es ++ [Logout logoutCall]))
           <> App.Children)
  /\ (forall loginCall currentUser,
        snd (login (run es) loginCall currentUser) = true ->
        run (es ++ [Login loginCall currentUser]) = run es).
Proof.
  split; [intro u; apply run_user_reported |].
  split.
  { unfold OrderDetailPage.isAdmin.
    destruct (user (run es)) as [u |] eqn:E; [| discriminate].
    intro H. exists u. split; [apply run_user_reported, E |].
    destruct (User.role u); [reflexivity | discriminate]. }
  split; [apply run_loading |].
  split.
  { unfold App.ProtectedRoute, isAuthenticated.
    destruct (loading (run es)) eqn:L; [discriminate |].
    destruct (user (run es)) as [u |] eqn:E; simpl; [| discriminate].
    intros _. split; [apply run_loading, L |].
    exists u. split; [reflexivity | apply run_user_reported, E]. }
  split.
  { intro c. rewrite run_snoc. simpl. split; [reflexivity |].
    unfold App.ProtectedRoute, isAuthenticated. simpl.
    destruct (loading (run es)); discriminate. }
  intros c r. rewrite run_snoc. simpl.
  destruct c as [[] |], r as [v |]; simpl; try reflexivity.
  discriminate.
Qed.

End Auth.

(* ------------------------------------------------------------------ *)
(** ** Dashboard: figures and recent orders                              *)
(* ------------------------------------------------------------------ *)

Section Dashboard.

Import DashboardPage.

(** Newest first: a larger identifier comes before a smaller one. *)
Let newerFirst (a b : Order.t) : Prop := (Order.id b <= Order.id a)%Z.

Let byIdDesc (a b : Order.t) : Z := (Order.id b - Order.id a)%Z.

Lemma sortInsert_Permutation {A : Type} (compare : A -> A -> Z) (x : A)
    (l : list A) :
  Permutation (Js.sortInsert compare x l) (x :: l).
Proof.
  induction l as [| y r IH]; simpl; [apply Permutation_refl |].
  destruct (compare x y <=? 0)%Z; [apply Permutation_refl |].
  apply perm_trans with (y :: x :: r);
    [apply perm_skip, IH | apply perm_swap].
Qed.

Lemma sort_Permutation {A : Type} (compare : A -> A -> Z) (l : list A) :
  Permutation (Js.sort compare l) l.
Proof.
  induction l as [| x r IH]; simpl; [apply Permutation_refl |].
  apply perm_trans with (x :: Js.sort compare r);
    [apply sortInsert_Permutation | apply perm_skip, IH].
Qed.

Lemma sortInsert_sorted (x : Order.t) (l : list Order.t) :
  StronglySorted newerFirst l ->
  StronglySorted newerFirst (Js.sortInsert byIdDesc x l).
Proof.
  induction 1 as [| y r Hr IH Hy]; simpl.
  - constructor; constructor.
  - destruct (Z.leb_spec (byIdDesc x y) 0) as [Hle | Hgt].
    + constructor; [constructor; assumption |].
      constructor; [unfold newerFirst, byIdDesc in *; lia |].
      rewrite Forall_forall in *. intros z Hz.
      pose proof (Hy z Hz). unfold newerFirst, byIdDesc in *. lia.
    + constructor; [exact IH |].
      rewrite Forall_forall in *. intros z Hz.
      apply (Permutation_in _ (sortInsert_Permutation byIdDesc x r)) in Hz.
      destruct Hz as [<- | Hz]; [| apply Hy, Hz].
      unfold newerFirst, byIdDesc in *. lia.
Qed.

Lemma sort_sorted (l : list Order.t) :
  StronglySorted newerFirst (Js.sort byIdDesc l).
Proof.
  induction l as [| x r IH]; simpl; [constructor |].
  apply sortInsert_sorted, IH.
Qed.

Lemma firstn_sorted (n : nat) (l : list Order.t) :
  StronglySorted newerFirst l ->
  StronglySorted newerFirst (firstn n l)
  /\ forall a b, In a (firstn n l) -> In b (skipn n l) -> newerFirst a b.
Proof.
  intro H. revert n. induction H as [| y r Hr IH Hy]; intro n.
  - rewrite firstn_nil, skipn_nil. split; [constructor |].
    intros a b [].
  - destruct n as [| n]; simpl.
    + split; [constructor | intros a b []].
    + destruct (IH n) as [IH1 IH2]. split.
      * constructor; [exact IH1 |].
        rewrite Forall_forall in *. intros z Hz. apply Hy.
        rewrite <- (firstn_skipn n r). apply in_or_app. left. exact Hz.
      * intros a b [<- | Ha] Hb; [| apply IH2; assumption].
        rewrite Forall_forall in Hy. apply Hy.
        rewrite <- (firstn_skipn n r). apply in_or_app. right. exact Hb.
Qed.

(** X18.  The "recent orders" of the dashboard are the five orders with
    the largest identifiers, newest first: the list has five entries (all
    of them when there are fewer), is sorted by decreasing identifier,
    contains only loaded orders, and every loaded order left out has an
    identifier no larger than any order shown; with at most five orders
    it is a rearrangement of all of them. *)
Theorem recent_orders_are_the_newest (orders : list Order.t) :
  List.length (recentOrders orders) = Nat.min 5 (List.length orders)
  /\ StronglySorted (fun a b => (Order.id b <= Order.id a)%Z)
                    (recentOrders orders)
  /\ (forall o, In o (recentOrders orders) -> In o orders)
  /\ (forall o, In o orders ->
        In o (recentOrders orders)
        \/ forall r, In r (recentOrders orders) ->
                     (Order.id o <= Order.id r)%Z)
  /\ ((List.length orders <= 5)%nat ->
      Permutation (recentOrders orders) orders).
Proof.
  unfold recentOrders. fold byIdDesc.
  pose proof (sort_Permutation byIdDesc orders) as Hperm.
  pose proof (sort_sorted orders) as Hsorted.
  destruct (firstn_sorted 5 _ Hsorted) as [Hfirst Hrest].
  split.
  { rewrite length_firstn, (Permutation_length Hperm). reflexivity. }
  split; [exact Hfirst |].
  split.
  { intros o Ho. apply (Permutation_in _ Hperm).
    rewrite <- (firstn_skipn 5 (Js.sort byIdDesc orders)).
    apply in_or_app. left. exact Ho. }
  split.
  { intros o Ho. apply (Permutation_in _ (Permutation_sym Hperm)) in Ho.
    rewrite <- (firstn_skipn 5 (Js.sort byIdDesc orders)) in Ho.
    apply in_app_or in Ho. destruct Ho as [Ho | Ho]; [left; exact Ho |].
    right. intros r Hr. apply (Hrest r o Hr Ho). }
  intro Hlen. rewrite firstn_all2; [exact Hperm |].
  rewrite (Permutation_length Hperm). exact Hlen.
Qed.

Lemma filter_active_revenue (orders : list Order.t) :
  filter (fun o => negb (OrderStatus_eqb (Order.status o) CANCELED)
                   && negb (OrderStatus_eqb (Order.status o) REJECTED))
         orders
  = filter active orders.
Proof.
  apply filter_ext. intro o. unfold active.
  destruct (Order.status o); reflexivity.
Qed.

Lemma filter_active_count (orders : list Order.t) :
  filter (fun o => OrderStatus_eqb (Order.status o) PENDING
                   || OrderStatus_eqb (Order.status o) CONFIRMED)
         orders
  = filter active orders.
Proof.
  apply filter_ext. intro o. unfold active.
  destruct (Order.status o); reflexivity.
Qed.

Lemma filter_active_Permutation (l l' : list Order.t) :
  Permutation l l' -> Permutation (filter active l) (filter active l').
Proof.
  induction 1 as [| x l l' _ IH | x y l | l l' l'' _ IH1 _ IH2]; simpl.
  - constructor.
  - destruct (active x); [apply perm_skip |]; exact IH.
  - destruct (active x), (active y); try apply Permutation_refl.
    apply perm_swap.
  - apply perm_trans with (filter active l'); assumption.
Qed.

(** X19.  The two order figures of the dashboard are taken over the same
    orders, those that are PENDING or CONFIRMED: the revenue is the
    binary64 running sum of their totals in list order (orders still
    PENDING included, CANCELED and REJECTED ones left out) and the active
    count is their number.  An order that is CANCELED or REJECTED changes
    neither figure, wherever it stands in the list; a PENDING or
    CONFIRMED order at the end of the list adds its total to the revenue
    and one to the count.  The count does not depend on the order of the
    list; the revenue can: the totals 0.1, 0.2, 0.3 give
    0.6000000000000001 and the totals 0.3, 0.2, 0.1 give 0.6.  The
    low-stock figure is zero exactly when every product has a stock of at
    least ten. *)
Theorem dashboard_figures (orders : list Order.t)
    (products : list Product.t) :
  totalRevenue orders
  = runningSum (map Order.totalAmount (filter active orders))
  /\ activeOrdersCount orders = List.length (filter active orders)
  /\ (forall orders', Permutation orders orders' ->
        activeOrdersCount orders' = activeOrdersCount orders)
  /\ (forall before after o,
        orders = before ++ after -> active o = false ->
        totalRevenue (before ++ o :: after) = totalRevenue orders
        /\ activeOrdersCount (before ++ o :: after)
           = activeOrdersCount orders)
  /\ (forall o, active o = true ->
        totalRevenue (orders ++ [o])
        = Js.add (totalRevenue orders) (Order.totalAmount o)
        /\ activeOrdersCount (orders ++ [o]) = S (activeOrdersCount orders))
  /\ (let a := Sample.orderOf 0.1 PENDING in
      let b := Sample.orderOf 0.2 CONFIRMED in
      let c := Sample.orderOf 0.3 PENDING in
      totalRevenue [a; b; c] = Js.num 0.6000000000000001
      /\ totalRevenue [c; b; a] = Js.num 0.6
      /\ Permutation [a; b; c] [c; b; a])
  /\ (lowStockCount products = 0%nat
      <-> Forall (fun p => (10 <= Product.stock p)%Z) products).
Proof.
  assert (Hrev : forall l,
            totalRevenue l
            = runningSum (map Order.totalAmount (filter active l))).
  { intro l. unfold totalRevenue, runningSum.
    rewrite filter_active_revenue. apply fold_left_sumFrom. }
  assert (Hcnt : forall l,
            activeOrdersCount l = List.length (filter active l)).
  { intro l. unfold activeOrdersCount. rewrite filter_active_count.
    reflexivity. }
  split; [apply Hrev |]. split; [apply Hcnt |].
  split.
  { intros orders' Hp. rewrite !Hcnt.
    apply Permutation_length, Permutation_sym, filter_active_Permutation.
    exact Hp. }
  split.
  { intros before after o -> Ho. rewrite !Hrev, !Hcnt, !filter_app.
    simpl. rewrite Ho. split; reflexivity. }
  split.
  { intros o Ho. rewrite !Hrev, !Hcnt, filter_app. simpl. rewrite Ho.
    rewrite map_app, length_app. unfold runningSum.
    rewrite sumFrom_app. simpl. split; [reflexivity | lia]. }
  split.
  { cbv zeta. split; [vm_compute; reflexivity |].
    split; [vm_compute; reflexivity |].
    apply perm_trans with [Sample.orderOf 0.2 CONFIRMED;
                           Sample.orderOf 0.1 PENDING;
                           Sample.orderOf 0.3 PENDING];
      [apply perm_swap |].
    apply perm_trans with [Sample.orderOf 0.2 CONFIRMED;
                           Sample.orderOf 0.3 PENDING;
                           Sample.orderOf 0.1 PENDING];
      [apply perm_skip, perm_swap |].
    apply perm_trans with [Sample.orderOf 0.3 PENDING;
                           Sample.orderOf 0.2 CONFIRMED;
                           Sample.orderOf 0.1 PENDING];
      [apply perm_swap | apply Permutation_refl]. }
  unfold lowStockCount. rewrite length_zero_iff_nil, Forall_forall.
  split.
  - intros H p Hp.
    destruct (Z.ltb_spec (Product.stock p) 10) as [Hlt | Hge];
      [| exact Hge].
    exfalso.
    assert (Hin : In p (filter (fun p => (Product.stock p <? 10)%Z)
                               products)).
    { apply filter_In. split; [exact Hp |]. apply Z.ltb_lt, Hlt. }
    rewrite H in Hin. contradiction.
  - intro H. induction products as [| p r IH]; simpl; [reflexivity |].
    pose proof (H p (or_introl eq_refl)) as Hp.
    apply Z.ltb_ge in Hp. rewrite Hp. apply IH.
    intros q Hq. apply H. right. exact Hq.
Qed.

End Dashboard.

(* ------------------------------------------------------------------ *)
(** ** Regular expressions: the matcher and the patterns of the pages    *)
(* ------------------------------------------------------------------ *)

Section RegularExpressions.

Lemma matches_seq_iff (r1 r2 : Js.RegExp) (s : Js.str) :
  matches (Js.Seq r1 r2) s
  <-> exists s1 s2, s = s1 ++ s2 /\ matches r1 s1 /\ matches r2 s2.
Proof.
  split.
  - intro H. inversion H; subst. eauto.
  - intros (s1 & s2 & -> & H1 & H2). constructor; assumption.
Qed.

Lemma nullable_iff (r : Js.RegExp) :
  Js.nullable r = true <-> matches r [].
Proof.
  induction r as [| | cls | r1 IH1 r2 IH2 | r1 IH1 r2 IH2 | r IH]; simpl.
  - split; [discriminate | intro H; inversion H].
  - split; [intros _; constructor | reflexivity].
  - split; [discriminate | intro H; inversion H].
  - rewrite andb_true_iff, IH1, IH2. split.
    + intros [H1 H2]. apply (matches_seq _ _ [] [] H1 H2).
    + intro H. apply matches_seq_iff in H.
      destruct H as (s1 & s2 & E & H1 & H2). symmetry in E.
      apply app_eq_nil in E. destruct E; subst. tauto.
  - rewrite orb_true_iff, IH1, IH2. split.
    + intros [H | H]; [apply matches_or_l | apply matches_or_r]; exact H.
    + intro H. inversion H; subst; tauto.
  - split; [intros _; constructor | reflexivity].
Qed.

(** A match of [Star r] against a non-empty string starts with a
    non-empty match of [r]. *)
Lemma matches_star_cons (r : Js.RegExp) (c : N) (s : Js.str) :
  matches (Js.Star r) (c :: s) ->
  exists s1 s2, s = s1 ++ s2 /\ matches r (c :: s1)
                /\ matches (Js.Star r) s2.
Proof.
  intro H. remember (Js.Star r) as r' eqn:Er. remember (c :: s) as t eqn:Et.
  induction H as [| | | | | | r0 s1 s2 H1 _ H2 IH2]; try discriminate.
  injection Er as ->. destruct s1 as [| c1 s1]; simpl in Et.
  - apply IH2; [reflexivity | exact Et].
  - injection Et as -> <-. exists s1, s2. auto.
Qed.

Lemma derive_iff (r : Js.RegExp) (c : N) (s : Js.str) :
  matches (Js.derive c r) s <-> matches r (c :: s).
Proof.
  revert s.
  induction r as [| | cls | r1 IH1 r2 IH2 | r1 IH1 r2 IH2 | r IH];
    intro s; simpl.
  - split; intro H; inversion H.
  - split; intro H; inversion H.
  - destruct (cls c) eqn:E.
    + split; intro H; inversion H; subst.
      * constructor. exact E.
      * constructor.
    + split; intro H; inversion H; subst. congruence.
  - assert (Hseq : matches (Js.Seq (Js.derive c r1) r2) s
                   <-> exists s1 s2, s = s1 ++ s2 /\ matches r1 (c :: s1)
                                     /\ matches r2 s2).
    { split.
      - intro H. inversion H as [| | ? ? s1 s2 H1 H2 | | | |]; subst.
        exists s1, s2. rewrite <- IH1. auto.
      - intros (s1 & s2 & -> & H1 & H2). constructor; [| exact H2].
        apply IH1, H1. }
    destruct (Js.nullable r1) eqn:N1.
    + apply nullable_iff in N1. split.
      * intro H. inversion H as [| | | ? ? ? H' | ? ? ? H' | |]; subst.
        -- apply Hseq in H'. destruct H' as (s1 & s2 & -> & H1 & H2).
           apply (matches_seq _ _ (c :: s1) s2 H1 H2).
        -- apply IH2 in H'. apply (matches_seq _ _ [] (c :: s) N1 H').
      * intro H. apply matches_seq_iff in H.
        destruct H as (s1 & s2 & E & H1 & H2).
        destruct s1 as [| c1 s1]; simpl in E.
        -- subst s2. apply matches_or_r, IH2, H2.
        -- injection E as <- ->. apply matches_or_l, Hseq. eauto.
    + rewrite Hseq. split.
      * intros (s1 & s2 & -> & H1 & H2).
        apply (matches_seq _ _ (c :: s1) s2 H1 H2).
      * intro H. apply matches_seq_iff in H.
        destruct H as (s1 & s2 & E & H1 & H2).
        destruct s1 as [| c1 s1]; simpl in E.
        -- apply nullable_iff in H1. congruence.
        -- injection E as <- ->. eauto.
  - split.
    + intro H. inversion H; subst;
        [apply matches_or_l, IH1 | apply matches_or_r, IH2]; assumption.
    + intro H. inversion H; subst;
        [apply matches_or_l, IH1 | apply matches_or_r, IH2]; assumption.
  - split.
    + intro H. inversion H as [| | ? ? s1 s2 H1 H2 | | | |]; subst.
      apply IH in H1. apply (matches_star_more _ (c :: s1) s2 H1 H2).
    + intro H. apply matches_star_cons in H.
      destruct H as (s1 & s2 & -> & H1 & H2).
      constructor; [apply IH, H1 | exact H2].
Qed.

Lemma test_iff (r : Js.RegExp) (s : Js.str) :
  Js.test r s = true <-> matches r s.
Proof.
  unfold Js.test. revert r. induction s as [| c s IH]; intro r; simpl.
  - apply nullable_iff.
  - rewrite IH. apply derive_iff.
Qed.

(** One or more characters of a class. *)
Lemma matches_star_class (cls : N -> bool) (s : Js.str) :
  matches (Js.Star (Js.Class cls)) s
  <-> Forall (fun c => cls c = true) s.
Proof.
  split.
  - intro H. remember (Js.Star (Js.Class cls)) as r eqn:Er.
    induction H as [| | | | | | r0 s1 s2 H1 _ H2 IH2]; try discriminate.
    + constructor.
    + injection Er as ->. inversion H1; subst. simpl.
      constructor; [assumption | apply IH2; reflexivity].
  - induction 1 as [| c r Hc Hr IH]; [constructor |].
    apply (matches_star_more _ [c] r); [constructor; exact Hc | exact IH].
Qed.

Lemma matches_plus_class (cls : N -> bool) (s : Js.str) :
  matches (Js.Plus (Js.Class cls)) s
  <-> s <> [] /\ Forall (fun c => cls c = true) s.
Proof.
  unfold Js.Plus. split.
  - intro H. inversion H as [| | ? ? s1 s2 H1 H2 | | | |]; subst.
    inversion H1; subst. apply matches_star_class in H2. simpl.
    split; [discriminate | constructor; assumption].
  - intros [Hne Hall]. destruct s as [| c r]; [contradiction |].
    inversion Hall; subst.
    apply (matches_seq _ _ [c] r); [constructor; assumption |].
    apply matches_star_class. assumption.
Qed.

Lemma matches_char (k : N) (s : Js.str) :
  matches (Js.Class (N.eqb k)) s <-> s = [k].
Proof.
  split.
  - intro H. inversion H; subst. f_equal. symmetry. apply N.eqb_eq.
    assumption.
  - intros ->. constructor. apply N.eqb_refl.
Qed.

Lemma notSpaceNorAt_iff (c : N) :
  Js.notSpaceNorAt c = true <-> addressChar c.
Proof.
  unfold Js.notSpaceNorAt, addressChar.
  rewrite negb_true_iff, orb_false_iff, N.eqb_neq. tauto.
Qed.

Lemma Forall_addressChar (s : Js.str) :
  Forall (fun c => Js.notSpaceNorAt c = true) s <-> Forall addressChar s.
Proof.
  rewrite !Forall_forall. split; intros H c Hc; apply notSpaceNorAt_iff;
    auto.
Qed.

Lemma emailRegExp_iff (s : Js.str) :
  Js.test ClientFormPage.emailRegExp s = true <-> emailShaped s.
Proof.
  rewrite test_iff. unfold ClientFormPage.emailRegExp, emailShaped.
  rewrite matches_seq_iff. split.
  - intros (a & t1 & -> & Ha & H).
    apply matches_seq_iff in H. destruct H as (x & t2 & -> & Hx & H).
    apply matches_char in Hx. subst x.
    apply matches_seq_iff in H. destruct H as (b & t3 & -> & Hb & H).
    apply matches_seq_iff in H. destruct H as (y & c & -> & Hy & Hc).
    apply matches_char in Hy. subst y.
    apply matches_plus_class in Ha, Hb, Hc.
    rewrite Forall_addressChar in Ha, Hb, Hc.
    exists a, b, c. tauto.
  - intros (a & b & c & -> & Na & Nb & Nc & Ha & Hb & Hc).
    rewrite <- Forall_addressChar in Ha, Hb, Hc.
    exists a, ([64%N] ++ b ++ [46%N] ++ c). split; [reflexivity |].
    split; [apply matches_plus_class; auto |].
    apply matches_seq_iff. exists [64%N], (b ++ [46%N] ++ c).
    split; [reflexivity |]. split; [apply matches_char; reflexivity |].
    apply matches_seq_iff. exists b, ([46%N] ++ c).
    split; [reflexivity |]. split; [apply matches_plus_class; auto |].
    apply matches_seq_iff. exists [46%N], c.
    split; [reflexivity |]. split; [apply matches_char; reflexivity |].
    apply matches_plus_class; auto.
Qed.

Lemma matches_Lit (lit s : Js.str) : matches (Js.Lit lit) s <-> s = lit.
Proof.
  revert s. induction lit as [| c lit IH]; intro s; simpl.
  - split; [intro H; inversion H; reflexivity | intros ->; constructor].
  - rewrite matches_seq_iff. split.
    + intros (s1 & s2 & -> & H1 & H2). apply matches_char in H1.
      apply IH in H2. subst. reflexivity.
    + intros ->. exists [c], lit. split; [reflexivity |].
      split; [apply matches_char; reflexivity | apply IH; reflexivity].
Qed.

Lemma matches_Times_class (cls : N -> bool) (n : nat) (s : Js.str) :
  matches (Js.Times n (Js.Class cls)) s
  <-> List.length s = n /\ Forall (fun c => cls c = true) s.
Proof.
  revert s. induction n as [| n IH]; intro s; simpl.
  - split.
    + intro H. inversion H. split; [reflexivity | constructor].
    + intros [H _]. apply length_zero_iff_nil in H. subst. constructor.
  - rewrite matches_seq_iff. split.
    + intros (s1 & s2 & -> & H1 & H2). inversion H1; subst.
      apply IH in H2. destruct H2 as [Hl Hf]. simpl.
      split; [congruence | constructor; assumption].
    + intros [Hl Hf]. destruct s as [| c r]; [discriminate |].
      inversion Hf; subst. exists [c], r. split; [reflexivity |].
      split; [constructor; assumption |].
      apply IH. split; [simpl in Hl; congruence | assumption].
Qed.

(** X24.  The promo check of the totals preview accepts a string exactly
    when the regular expression [PROMO-] followed by four times [[A-Z0-9]],
    anchored at both ends, matches it. *)
Lemma promoRegex_is_the_pattern (promoCode : Js.str) :
  CreateOrderPage.promoRegex promoCode = Js.test promoRegExp promoCode.
Proof.
  assert (H : Js.test promoRegExp promoCode = true
              <-> promoShaped promoCode).
  { rewrite test_iff. unfold promoRegExp, promoShaped.
    rewrite matches_seq_iff. split.
    - intros (s1 & s2 & -> & H1 & H2). apply matches_Lit in H1.
      apply matches_Times_class in H2. destruct H2 as [Hl Hf]. subst s1.
      destruct s2 as [| c1 [| c2 [| c3 [| c4 [| ? ?]]]]];
        try discriminate.
      exists c1, c2, c3, c4. split; [reflexivity |].
      apply Forall_upperOrDigit, Hf.
    - intros (c1 & c2 & c3 & c4 & -> & Hf).
      exists (Js.of_ascii "PROMO-"), [c1; c2; c3; c4].
      split; [reflexivity |].
      split; [apply matches_Lit; reflexivity |].
      apply matches_Times_class. split; [reflexivity |].
      apply Forall_upperOrDigit, Hf. }
  apply eq_true_iff_eq. rewrite promoRegex_iff, H. tauto.
Qed.

Lemma trim_fixed (s : Js.str) :
  Forall (fun c => Js.isWhiteSpace c = false) s -> Js.trim s = s.
Proof.
  intro H. unfold Js.trim.
  assert (H1 : Js.trimStart s = s).
  { apply trimStart_fixed. destruct s; [exact I |]. inversion H; auto. }
  rewrite H1. unfold Js.trimEnd.
  assert (H2 : Js.trimStart (rev s) = rev s).
  { apply trimStart_fixed. destruct (rev s) as [| c r] eqn:E; [exact I |].
    rewrite Forall_forall in H. apply H. apply in_rev. rewrite E.
    left. reflexivity. }
  rewrite H2. apply rev_involutive.
Qed.

Lemma trim_length (s : Js.str) :
  (List.length (Js.trim s) <= List.length s)%nat.
Proof.
  assert (Hs : forall t, (List.length (Js.trimStart t) <= List.length t)%nat).
  { intro t. destruct (trimStart_suffix t) as (pre & E & _).
    rewrite E at 2. rewrite length_app. lia. }
  unfold Js.trim, Js.trimEnd. rewrite length_rev.
  eapply Nat.le_trans; [apply Hs |]. rewrite length_rev. apply Hs.
Qed.

Lemma addressChar_not_space (s : Js.str) :
  Forall addressChar s -> Forall (fun c => Js.isWhiteSpace c = false) s.
Proof.
  apply Forall_impl. intros c [H _]. exact H.
Qed.

(** X20.  The e-mail check of the client form accepts exactly the strings
    made of three non-empty parts without white space or at sign,
    joined by an at sign and a dot (the middle and last parts may contain
    further dots).  An accepted address therefore has at least five
    characters, exactly one at sign, no white space anywhere, and is left
    unchanged by [trim]. *)
Theorem email_check_accepts_exactly (s : Js.str) :
  (Js.test ClientFormPage.emailRegExp s = true <-> emailShaped s)
  /\ (Js.test ClientFormPage.emailRegExp s = true ->
      (5 <= List.length s)%nat
      /\ count_occ N.eq_dec s 64%N = 1%nat
      /\ Forall (fun c => Js.isWhiteSpace c = false) s
      /\ Js.trim s = s).
Proof.
  split; [apply emailRegExp_iff |].
  intro H. apply emailRegExp_iff in H.
  destruct H as (a & b & c & -> & Na & Nb & Nc & Ha & Hb & Hc).
  assert (Hws : Forall (fun x => Js.isWhiteSpace x = false)
                  (a ++ [64%N] ++ b ++ [46%N] ++ c)).
  { repeat (apply Forall_app; split);
      try (apply addressChar_not_space; assumption);
      constructor; try reflexivity; constructor. }
  assert (Hcount : forall l, Forall addressChar l ->
                             count_occ N.eq_dec l 64%N = 0%nat).
  { intros l Hl. apply count_occ_not_In. intro Hin.
    rewrite Forall_forall in Hl. destruct (Hl _ Hin) as [_ Hne].
    congruence. }
  split.
  { rewrite !length_app. simpl.
    destruct a; [contradiction |]. destruct b; [contradiction |].
    destruct c; [contradiction |]. simpl. lia. }
  split.
  { rewrite !count_occ_app, (Hcount a Ha), (Hcount b Hb), (Hcount c Hc).
    reflexivity. }
  split; [exact Hws | apply trim_fixed, Hws].
Qed.

End RegularExpressions.

(* ------------------------------------------------------------------ *)
(** ** Client form: validation and request                               *)
(* ------------------------------------------------------------------ *)

Section ClientForm.

Import ClientFormPage.

Lemma client_validate_result (isEditing : bool) (formData : FormData.t) :
  snd (validate isEditing formData)
  = negb (Js.falsy_str (Js.trim (FormData.fullName formData)))
    && negb ((List.length (FormData.fullName formData) <? 2)%nat
             || (100 <? List.length (FormData.fullName formData))%nat)
    && negb (Js.falsy_str (Js.trim (FormData.email formData)))
    && Js.test emailRegExp (FormData.email formData)
    && (isEditing
        || (negb (Js.falsy_str (FormData.password formData))
            && negb (List.length (FormData.password formData) <? 6)%nat)).
Proof.
  unfold validate.
  destruct (Js.falsy_str (Js.trim (FormData.fullName formData)));
    destruct ((List.length (FormData.fullName formData) <? 2)%nat
              || (100 <? List.length (FormData.fullName formData))%nat);
    destruct (Js.falsy_str (Js.trim (FormData.email formData)));
    destruct (Js.test emailRegExp (FormData.email formData));
    destruct isEditing;
    destruct (Js.falsy_str (FormData.password formData));
    destruct (List.length (FormData.password formData) <? 6)%nat;
    reflexivity.
Qed.

Lemma client_validate_iff (isEditing : bool) (formData : FormData.t) :
  snd (validate isEditing formData) = true
  <-> ~ whiteSpaceOnly (FormData.fullName formData)
      /\ (2 <= List.length (FormData.fullName formData) <= 100)%nat
      /\ emailShaped (FormData.email formData)
      /\ (isEditing = true
          \/ (6 <= List.length (FormData.password formData))%nat).
Proof.
  rewrite client_validate_result, !andb_true_iff, !negb_true_iff,
          orb_false_iff, orb_true_iff, andb_true_iff, !negb_true_iff.
  rewrite !Nat.ltb_ge, emailRegExp_iff.
  rewrite (false_iff_not _ _ (falsy_str_iff _)), trim_nil_iff,
          whiteSpaceOnly_iff.
  split.
  - intros ((((Hn & Hl1 & Hl2) & _) & He) & Hp).
    split; [exact Hn |]. split; [lia |]. split; [exact He |].
    destruct Hp as [Hp | [_ Hp]]; [left; exact Hp | right; lia].
  - intros (Hn & Hl & He & Hp).
    split; [split; [split; [split; [exact Hn | lia] |] | exact He] |].
    + destruct (Js.falsy_str (Js.trim (FormData.email formData))) eqn:E;
        [| reflexivity].
      exfalso. apply falsy_str_iff, trim_nil_iff in E.
      destruct He as (a & b & c & Hs & Na & _ & _ & Ha & _).
      rewrite Hs in E. destruct a as [| x a]; [contradiction |].
      simpl in E. apply andb_true_iff in E. destruct E as [E _].
      inversion Ha as [| ? ? [Hx _] _]; subst. congruence.
    + destruct Hp as [Hp | Hp]; [left; exact Hp | right].
      split; [| exact Hp].
      destruct (FormData.password formData); [simpl in Hp; lia |].
      reflexivity.
Qed.

(** The error object of the client form, field by field. *)
Lemma client_validate_errors (isEditing : bool) (formData : FormData.t) :
  fst (validate isEditing formData)
  = mkErrors
      (if Js.falsy_str (Js.trim (FormData.fullName formData))
       then Some "Full name is required"%string
       else if (List.length (FormData.fullName formData) <? 2)%nat
               || (100 <? List.length (FormData.fullName formData))%nat
       then Some "Full name must be between 2 and 100 characters"%string
       else None)
      (if Js.falsy_str (Js.trim (FormData.email formData))
       then Some "Email is required"%string
       else if negb (Js.test emailRegExp (FormData.email formData))
       then Some "Invalid email format"%string
       else None)
      (if isEditing then None
       else if Js.falsy_str (FormData.password formData)
       then Some "Password is required"%string
       else if (List.length (FormData.password formData) <? 6)%nat
       then Some "Password must be at least 6 characters"%string
       else None).
Proof.
  unfold validate.
  destruct (Js.falsy_str (Js.trim (FormData.fullName formData)));
    destruct ((List.length (FormData.fullName formData) <? 2)%nat
              || (100 <? List.length (FormData.fullName formData))%nat);
    destruct (Js.falsy_str (Js.trim (FormData.email formData)));
    destruct (Js.test emailRegExp (FormData.email formData));
    destruct isEditing;
    destruct (Js.falsy_str (FormData.password formData));
    destruct (List.length (FormData.password formData) <? 6)%nat;
    reflexivity.
Qed.

(** X21.  The client form is accepted exactly when the full name is not
    blank and has between 2 and 100 characters (counted before
    trimming), the e-mail has the shape local@domain.tld, and, when a
    client is created, the password has at least six characters (the
    password is not trimmed; it is not looked at when a client is
    edited).  A blank name or e-mail is reported as required, any other
    rejected name or e-mail by its own message. *)
Theorem client_form_accepts_exactly (isEditing : bool)
    (formData : FormData.t) :
  let e := fst (validate isEditing formData) in
  (snd (validate isEditing formData) = true
   <-> ~ whiteSpaceOnly (FormData.fullName formData)
       /\ (2 <= List.length (FormData.fullName formData) <= 100)%nat
       /\ emailShaped (FormData.email formData)
       /\ (isEditing = true
           \/ (6 <= List.length (FormData.password formData))%nat))
  /\ (fullName e = Some "Full name is required"%string
      <-> whiteSpaceOnly (FormData.fullName formData))
  /\ (fullName e
      = Some "Full name must be between 2 and 100 characters"%string
      <-> ~ whiteSpaceOnly (FormData.fullName formData)
          /\ ((List.length (FormData.fullName formData) < 2)%nat
              \/ (100 < List.length (FormData.fullName formData))%nat))
  /\ (email e = Some "Email is required"%string
      <-> whiteSpaceOnly (FormData.email formData))
  /\ (email e = Some "Invalid email format"%string
      <-> ~ whiteSpaceOnly (FormData.email formData)
          /\ ~ emailShaped (FormData.email formData))
  /\ (password e <> None
      <-> isEditing = false
          /\ (List.length (FormData.password formData) < 6)%nat).
Proof.
  intro e. unfold e. rewrite client_validate_errors.
  cbn [fullName email password].
  split; [apply client_validate_iff |].
  rewrite <- !whiteSpaceOnly_iff, <- !trim_nil_iff, <- !falsy_str_iff.
  rewrite <- emailRegExp_iff.
  split; [| split; [| split; [| split]]].
  - destruct (Js.falsy_str (Js.trim (FormData.fullName formData)));
      [tauto |].
    destruct (_ || _); split; discriminate.
  - destruct (Js.falsy_str (Js.trim (FormData.fullName formData))).
    + split; [discriminate | intros [H _]; congruence].
    + destruct ((List.length (FormData.fullName formData) <? 2)%nat
                || (100 <? List.length (FormData.fullName formData))%nat)
        eqn:E.
      * apply orb_true_iff in E. rewrite !Nat.ltb_lt in E.
        split; [intros _; split; [discriminate | exact E] | reflexivity].
      * apply orb_false_iff in E. rewrite !Nat.ltb_ge in E.
        split; [discriminate | intros [_ H]; lia].
  - destruct (Js.falsy_str (Js.trim (FormData.email formData)));
      [tauto |].
    destruct (negb _); split; discriminate.
  - destruct (Js.falsy_str (Js.trim (FormData.email formData))).
    + split; [discriminate | intros [H _]; congruence].
    + destruct (Js.test emailRegExp (FormData.email formData)); simpl.
      * split; [discriminate | intros [_ H]; exfalso; apply H; reflexivity].
      * split; [intros _; split; discriminate | reflexivity].
  - destruct isEditing.
    + split; [intro H; exfalso; apply H; reflexivity |
              intros [H _]; discriminate].
    + destruct (FormData.password formData) as [| c r] eqn:Ep; simpl.
      * split; [intros _; split; [reflexivity | lia] | discriminate].
      * destruct (Nat.ltb_spec (S (List.length r)) 6) as [Hlt | Hge].
        -- split; [intros _; split; [reflexivity | exact Hlt] |
                   discriminate].
        -- split; [intro H; exfalso; apply H; reflexivity |
                   intros [_ H]; lia].
Qed.

(** X22.  The client form sends a request exactly when [validate]
    succeeds: an update (name and e-mail) when editing, a creation (name,
    e-mail and the password as typed, at least six characters)
    otherwise.  The name sent is the trimmed one: it is not empty, has no
    outer white space and at most 100 characters, but only at least one,
    since the length is checked before trimming; the e-mail sent is the
    one typed, which [trim] leaves unchanged. *)
Theorem client_request_is_trimmed (isEditing : bool)
    (formData : FormData.t) :
  ((exists request, handleSubmit isEditing formData = Some request)
   <-> snd (validate isEditing formData) = true)
  /\ (handleSubmit isEditing formData = None
      <-> snd (validate isEditing formData) = false)
  /\ (forall request,
        handleSubmit isEditing formData = Some request ->
        (exists name,
           name = Js.trim (FormData.fullName formData)
           /\ name <> [] /\ Js.trim name = name
           /\ (1 <= List.length name <= 100)%nat
           /\ (if isEditing
               then request = Update name (FormData.email formData)
               else request = Create name (FormData.email formData)
                                     (FormData.password formData)
                    /\ (6 <= List.length (FormData.password formData))%nat))
        /\ emailShaped (FormData.email formData))
  /\ handleSubmit true
       (FormData.mk (Js.of_ascii " a") (Js.of_ascii "a@b.c") [])
     = Some (Update (Js.of_ascii "a") (Js.of_ascii "a@b.c")).
Proof.
  split; [| split; [| split; [| reflexivity]]].
  { unfold handleSubmit. destruct (snd (validate isEditing formData)); simpl.
    - split; [reflexivity |]. intros _. destruct isEditing; eauto.
    - split; [intros [r H]; discriminate | discriminate]. }
  { unfold handleSubmit. destruct (snd (validate isEditing formData)); simpl;
      [| split; reflexivity].
    destruct isEditing; split; discriminate. }
  intros request Hsent.
  unfold handleSubmit in Hsent.
  destruct (snd (validate isEditing formData)) eqn:Hv; simpl in Hsent;
    [| discriminate].
  apply client_validate_iff in Hv. destruct Hv as (Hn & Hl & He & Hp).
  assert (Htrim : Js.trim (FormData.email formData)
                  = FormData.email formData).
  { apply trim_fixed. destruct He as (a & b & c & -> & _ & _ & _ & Ha & Hb & Hc).
    repeat (apply Forall_app; split);
      try (apply addressChar_not_space; assumption);
      constructor; try reflexivity; constructor. }
  rewrite Htrim in Hsent.
  split; [| exact He].
  exists (Js.trim (FormData.fullName formData)).
  split; [reflexivity |].
  assert (Hne : Js.trim (FormData.fullName formData) <> []).
  { intro E. apply Hn, whiteSpaceOnly_iff, trim_nil_iff, E. }
  split; [exact Hne |]. split; [apply trim_idempotent |].
  split.
  { pose proof (trim_length (FormData.fullName formData)).
    destruct (Js.trim (FormData.fullName formData));
      [contradiction | simpl in *; lia]. }
  destruct isEditing.
  - injection Hsent as <-. reflexivity.
  - injection Hsent as <-. split; [reflexivity |].
    destruct Hp as [Hp | Hp]; [discriminate | exact Hp].
Qed.

Lemma client_request_is_trimmed_witness :
  handleSubmit false
    (FormData.mk (Js.of_ascii " Amal B ") (Js.of_ascii "amal@example.org")
                 (Js.of_ascii "secret1"))
  = Some (Create (Js.of_ascii "Amal B") (Js.of_ascii "amal@example.org")
                 (Js.of_ascii "secret1"))
  /\ emailShaped (Js.of_ascii "amal@example.org").
Proof.
  assert (H : handleSubmit false
                (FormData.mk (Js.of_ascii " Amal B ")
                             (Js.of_ascii "amal@example.org")
                             (Js.of_ascii "secret1"))
              = Some (Create (Js.of_ascii "Amal B")
                             (Js.of_ascii "amal@example.org")
                             (Js.of_ascii "secret1")))
    by reflexivity.
  split; [exact H |].
  destruct (client_request_is_trimmed false
              (FormData.mk (Js.of_ascii " Amal B ")
                           (Js.of_ascii "amal@example.org")
                           (Js.of_ascii "secret1"))) as (_ & _ & Hreq & _).
  destruct (Hreq _ H) as [_ He]. exact He.
Defined.

End ClientForm.

(* ------------------------------------------------------------------ *)
(** ** Product list: the pager                                           *)
(* ------------------------------------------------------------------ *)

Section Pager.

Import ProductsListPage.

Lemma pagerReachable_nonneg (p : Pager) :
  pagerReachable p -> (0 <= currentPage p)%Z.
Proof.
  induction 1 as [| p e _ IH Hoff]; simpl; [lia |].
  destruct e as [| | | n]; simpl in *.
  - lia.
  - unfold nextDisabled in Hoff. apply Z.leb_gt in Hoff. lia.
  - lia.
  - lia.
Qed.

(** X23.  Through the pager buttons the page index of the product list
    never becomes negative.  When the previous button is enabled it moves
    back by exactly one page, when the next button is enabled it moves
    forward by exactly one page and stays below the number of pages: the
    clamps of the two handlers never come into play.  Toggling the
    deleted filter returns to the first page. *)
Theorem pager_stays_in_range (p : Pager) (Hreach : pagerReachable p) :
  (0 <= currentPage p)%Z
  /\ (previousDisabled p = false ->
      currentPage (handle p PreviousPage) = (currentPage p - 1)%Z
      /\ (0 <= currentPage (handle p PreviousPage))%Z)
  /\ (nextDisabled p = false ->
      currentPage (handle p NextPage) = (currentPage p + 1)%Z
      /\ (currentPage (handle p NextPage) < totalPages p)%Z)
  /\ currentPage (handle p ToggleDeleted) = 0%Z
  /\ (nextDisabled p = true -> previousDisabled p = true ->
      (totalPages p <= 1)%Z).
Proof.
  pose proof (pagerReachable_nonneg p Hreach) as H0.
  split; [exact H0 |].
  unfold previousDisabled, nextDisabled. simpl.
  split; [intro H; apply Z.eqb_neq in H; lia |].
  split; [intro H; apply Z.leb_gt in H; lia |].
  split; [reflexivity |].
  intros H1 H2. apply Z.leb_le in H1. apply Z.eqb_eq in H2. lia.
Qed.

Lemma pager_stays_in_range_witness :
  pagerReachable (handle (handle initialPager (Loaded 3)) NextPage)
  /\ currentPage (handle (handle initialPager (Loaded 3)) NextPage) = 1%Z.
Proof.
  assert (H : pagerReachable (handle initialPager (Loaded 3))).
  { apply pager_step; [apply pager_initial | exact I]. }
  assert (H' : pagerReachable
                 (handle (handle initialPager (Loaded 3)) NextPage)).
  { apply pager_step; [exact H | reflexivity]. }
  split; [exact H' |].
  destruct (pager_stays_in_range _ H) as (_ & _ & Hn & _).
  destruct (Hn eq_refl) as [E _]. exact E.
Defined.

End Pager.

(* ------------------------------------------------------------------ *)
(** ** More evaluation checks                                            *)
(* ------------------------------------------------------------------ *)

Section MoreChecks.

Example email_samples :
  Js.test ClientFormPage.emailRegExp (Js.of_ascii "a@b.c") = true
  /\ Js.test ClientFormPage.emailRegExp (Js.of_ascii "amal@shop.example.org")
     = true
  /\ Js.test ClientFormPage.emailRegExp (Js.of_ascii "a@b") = false
  /\ Js.test ClientFormPage.emailRegExp (Js.of_ascii "a@@b.c") = false
  /\ Js.test ClientFormPage.emailRegExp (Js.of_ascii "a b@c.d") = false
  /\ Js.test ClientFormPage.emailRegExp (Js.of_ascii "@b.c") = false
  /\ Js.test ClientFormPage.emailRegExp (Js.of_ascii "a@b.") = false
  /\ Js.test ClientFormPage.emailRegExp [] = false.
Proof. repeat split. Qed.

Example promo_pattern_samples :
  Js.test promoRegExp (Js.of_ascii "PROMO-AB12") = true
  /\ Js.test promoRegExp (Js.of_ascii "PROMO-AB1") = false
  /\ Js.test promoRegExp (Js.of_ascii "PROMO-AB123") = false
  /\ Js.test promoRegExp (Js.of_ascii "promo-AB12") = false.
Proof. repeat split. Qed.

Example includes_samples :
  Js.includes (Js.of_ascii "keyboard") (Js.of_ascii "boa") = true
  /\ Js.includes (Js.of_ascii "keyboard") [] = true
  /\ Js.includes (Js.of_ascii "keyboard") (Js.of_ascii "bord") = false
  /\ Js.includes [] (Js.of_ascii "k") = false.
Proof. repeat split. Qed.

Example sort_is_stable_and_descending :
  map (fun p => (fst p, snd p))
      (Js.sort (fun a b => (fst b - fst a)%Z)
               [(1, 10); (3, 20); (1, 30); (2, 40)]%Z)
  = [(3, 20); (2, 40); (1, 10); (1, 30)]%Z.
Proof. reflexivity. Qed.

Example recent_orders_sample :
  map Order.id
      (DashboardPage.recentOrders
         (map (fun i => Order.mk i [] (Js.num 0) (Js.num 0) (Js.num 0)
                                   (Js.num 0) PENDING)
              [4; 9; 1; 7; 3; 8; 2]%Z))
  = [9; 8; 7; 4; 3]%Z.
Proof. reflexivity. Qed.

Example client_form_samples :
  ClientFormPage.validate false
    (ClientFormPage.FormData.mk (Js.of_ascii "A") (Js.of_ascii "a@b")
                                (Js.of_ascii "12345"))
  = (ClientFormPage.mkErrors
       (Some "Full name must be between 2 and 100 characters"%string)
       (Some "Invalid email format"%string)
       (Some "Password must be at least 6 characters"%string),
     false)
  /\ ClientFormPage.validate true
       (ClientFormPage.FormData.mk (Js.of_ascii "  ") [] [])
     = (ClientFormPage.mkErrors (Some "Full name is required"%string)
                                (Some "Email is required"%string) None,
        false).
Proof. split; reflexivity. Qed.

Example login_then_logout :
  App.ProtectedRoute
    (AuthContext.run [AuthContext.CheckAuth Js.Rejected;
                      AuthContext.Login (Js.Resolved tt)
                                        (Js.Resolved Sample.admin)])
  = App.Children
  /\ App.ProtectedRoute
       (AuthContext.run [AuthContext.CheckAuth Js.Rejected;
                         AuthContext.Login (Js.Resolved tt)
                                           (Js.Resolved Sample.admin);
                         AuthContext.Logout Js.Rejected])
     = App.NavigateToLogin
  /\ App.ProtectedRoute
       (AuthContext.run [AuthContext.Login (Js.Resolved tt)
                                           (Js.Resolved Sample.admin)])
     = App.Spinner.
Proof. repeat split. Qed.

End MoreChecks.
